(** * osm.py: grid tiling, per-tile fetch and textual merge of OSM extracts

    A shallow embedding of [src/osm.py] and the properties of its three
    functions and of its driver.

    - Numbers.  [divide_area_to_bboxes] is written once, over the arithmetic
      that the Python operators [-], [/], [*], [+], [<], [int()] and [min()]
      resolve to for the type of its arguments (class [PyNumber]).  The driver
      [main] calls it with [float]s, so the instance that matters is IEEE 754
      binary64, here Rocq's primitive floats with their specification
      [SpecFloat]; float literals are read, as by Python, to the nearest
      double.  Called with [fractions.Fraction] arguments the very same code
      computes exactly (instance on [Q]).  That rounding to nearest is
      monotone, on which the order of the float tiles rests, is proved here
      from [SpecFloat]'s rounding algorithm.
    - Exceptions.  A Python call returns [Ok] or [Raise]s.
    - Effects.  [fetch_osm_by_bbox], [merge_osm_files] and [main] are commands
      on a [world]: the file system, the trace of what was printed, posted and
      slept, and the server's outcome for each request.  Folders hold regular
      text files, listed in a fixed order in which new files come last; lines
      end with "\n" as on POSIX; what is written is in the file at once.
      Printed lines are kept as constructors, not as formatted text. *)

From Stdlib Require Import String Ascii DecimalString DecimalNat ZArith List Bool Lia.
From Stdlib Require Import QArith Qpower Qround Lqa Finite.
From Stdlib Require Import Floats.
Import ListNotations.

#[local] Set Warnings "-inexact-float".
#[local] Open Scope Z_scope.

(** ** Python exceptions and results *)

Inductive exn : Type :=
| ZeroDivisionError
| OverflowError        (* int() of an infinity *)
| ValueError           (* int() of a NaN *)
| ConnectionError      (* a transport-level requests.exceptions.RequestException *)
| HTTPError (status : Z)   (* raised by raise_for_status; a RequestException too *)
| FileNotFoundError (name : string)
| FileExistsError (name : string).

Inductive result (A : Type) : Type :=
| Ok (a : A)
| Raise (e : exn).
Arguments Ok {A} a.
Arguments Raise {A} e.

Definition bind {A B : Type} (r : result A) (k : A -> result B) : result B :=
  match r with
  | Ok a => k a
  | Raise e => Raise e
  end.

Notation "x <- r ;; k" := (bind r (fun x => k))
  (at level 61, r at next level, right associativity).

(** ** The numeric interface the tiler relies on *)

Class PyNumber (T : Type) : Type := {
  py_add : T -> T -> T;                 (* a + b *)
  py_sub : T -> T -> T;                 (* a - b *)
  py_mul : T -> T -> T;                 (* a * b *)
  py_truediv : T -> T -> result T;      (* a / b, ZeroDivisionError when b == 0 *)
  py_lt : T -> T -> bool;               (* a < b *)
  py_le : T -> T -> bool;               (* a <= b *)
  py_of_int : Z -> T;                   (* coercion of an int operand *)
  py_int : T -> result Z                (* int(a): truncation toward zero *)
}.

(** ** divide_area_to_bboxes *)

Section Tiler.
Context {T : Type} `{PyNumber T}.

(** A bbox is the Python 4-tuple (min_lat, min_lon, max_lat, max_lon). *)
Definition Rectangle : Type := T * T * T * T.

Definition bb_min_lat (r : Rectangle) : T := fst (fst (fst r)).
Definition bb_min_lon (r : Rectangle) : T := snd (fst (fst r)).
Definition bb_max_lat (r : Rectangle) : T := snd (fst r).
Definition bb_max_lon (r : Rectangle) : T := snd r.

(** [min(a, b)] keeps its first argument unless the second is smaller. *)
Definition py_min (a b : T) : T := if py_lt b a then b else a.

(** [range(n)]: 0, 1, ..., n-1; empty when n <= 0. *)
Definition range (n : Z) : list Z := map Z.of_nat (seq 0 (Z.to_nat n)).

(** [int((hi - lo) / step) + 1], lines 51 and 52. *)
Definition grid_steps (lo hi step : T) : result Z :=
  q <- py_truediv (py_sub hi lo) step ;;
  n <- py_int q ;;
  Ok (n + 1).

Section Loops.
Variables min_lat max_lat min_lon max_lon step : T.

(** The tuple built at lines 55-60. *)
Definition bbox_at (i j : Z) : Rectangle :=
  (py_add min_lat (py_mul (py_of_int i) step),
   py_add min_lon (py_mul (py_of_int j) step),
   py_min (py_add min_lat (py_mul (py_of_int (i + 1)) step)) max_lat,
   py_min (py_add min_lon (py_mul (py_of_int (j + 1)) step)) max_lon).

(** [for j in range(lon_steps): bboxes.append(bbox)] *)
Definition lon_loop (lon_steps : Z) (i : Z) (bboxes : list Rectangle)
  : list Rectangle :=
  fold_left (fun bboxes j => bboxes ++ [bbox_at i j]) (range lon_steps) bboxes.

(** [for i in range(lat_steps): ...] *)
Definition lat_loop (lat_steps lon_steps : Z) (bboxes : list Rectangle)
  : list Rectangle :=
  fold_left (fun bboxes i => lon_loop lon_steps i bboxes) (range lat_steps) bboxes.

Definition divide_area_to_bboxes : result (list Rectangle) :=
  lat_steps <- grid_steps min_lat max_lat step ;;
  lon_steps <- grid_steps min_lon max_lon step ;;
  Ok (lat_loop lat_steps lon_steps []).

End Loops.

(** *** Vocabulary of the tiling properties *)

(** The point (lat, lon) lies in the half-open cell
    [min_lat, min_lat + step) x [min_lon, min_lon + step) of tile [r]. *)
Definition in_cell (step : T) (lat lon : T) (r : Rectangle) : bool :=
  (py_le (bb_min_lat r) lat && py_lt lat (py_add (bb_min_lat r) step))
  && (py_le (bb_min_lon r) lon && py_lt lon (py_add (bb_min_lon r) step)).

(** [a == b], as [a <= b] and [b <= a]. *)
Definition py_eq (a b : T) : bool := py_le a b && py_le b a.

(** The point (lat, lon) has a coordinate on one of the four edges of [r]. *)
Definition on_edge (lat lon : T) (r : Rectangle) : bool :=
  py_eq lat (bb_min_lat r) || py_eq lat (bb_max_lat r)
  || py_eq lon (bb_min_lon r) || py_eq lon (bb_max_lon r).

(** The point (lat, lon) lies strictly inside tile [r]. *)
Definition strictly_inside (lat lon : T) (r : Rectangle) : bool :=
  (py_lt (bb_min_lat r) lat && py_lt lat (bb_max_lat r))
  && (py_lt (bb_min_lon r) lon && py_lt lon (bb_max_lon r)).

End Tiler.

(** ** Instance: Python [float] (IEEE 754 binary64) *)

(** [int(x)] truncates toward zero; it raises on infinities and NaN. *)
Definition float_int (x : float) : result Z :=
  match Prim2SF x with
  | S754_zero _ => Ok 0
  | S754_finite s m e => Ok (cond_Zopp s (Z.shiftl (Zpos m) e))
  | S754_infinity _ => Raise OverflowError
  | S754_nan => Raise ValueError
  end.

(** An int operand of a float operation is converted with round to nearest
    even.  CPython raises OverflowError when the int does not fit a double
    (from 2^1024 - 2^970 on); here the conversion saturates to an infinity
    instead.  The loop indices are bounded by [int(q) + 1] for a finite [q],
    which is at most (2^53 - 1) * 2^971 + 1 and still converts to a finite
    double, so the difference is out of reach of [divide_area_to_bboxes]. *)
Definition float_of_int (z : Z) : float :=
  SF2Prim (binary_normalize prec emax z 0 false).

(** True division raises ZeroDivisionError on a zero divisor (0.0 or -0.0). *)
Definition float_truediv (x y : float) : result float :=
  if PrimFloat.eqb y 0%float then Raise ZeroDivisionError
  else Ok (PrimFloat.div x y).

#[export] Instance PyNumber_float : PyNumber float := {
  py_add := PrimFloat.add;
  py_sub := PrimFloat.sub;
  py_mul := PrimFloat.mul;
  py_truediv := float_truediv;
  py_lt := PrimFloat.ltb;
  py_le := PrimFloat.leb;
  py_of_int := float_of_int;
  py_int := float_int
}.

(** The mathematical floor of a finite float (the specification's [floor]),
    next to [float_int], which truncates. *)
Definition float_floor (x : float) : option Z :=
  match Prim2SF x with
  | S754_zero _ => Some 0
  | S754_finite s m e => Some (Z.shiftl (cond_Zopp s (Zpos m)) e)
  | _ => None
  end.

(** The exact rational value of a finite float. *)
Definition float_to_Q (x : float) : option Q :=
  match Prim2SF x with
  | S754_zero _ => Some 0%Q
  | S754_finite s m e =>
      Some (inject_Z (cond_Zopp s (Zpos m)) * Qpower 2 e)%Q
  | _ => None
  end.

(** A float that is neither a negative number nor a negative infinity
    (zeros of either sign and NaN are let through). *)
Definition sf_sign_ok (x : spec_float) : Prop :=
  match x with
  | S754_finite true _ _ | S754_infinity true => False
  | _ => True
  end.

(** [lo <= x < lo + step] on the exact values of three finite floats. *)
Definition in_band_exact (step x lo : float) : bool :=
  match float_to_Q lo, float_to_Q step, float_to_Q x with
  | Some lo', Some step', Some x' =>
      Qle_bool lo' x' && negb (Qle_bool (lo' + step') x')
  | _, _, _ => false
  end.

(** ** Vocabulary of binary64 rounding *)

(** 2^e, for an exponent of either sign. *)
Definition pow2 (e : Z) : Q := Qpower 2 e.

(** The number [x] lies in the unit [m * u, (m + 1) * u) at the place that the
    round and sticky bits give. *)
Definition located (mrs : shr_record) (u x : Q) : Prop :=
  match shr_r mrs, shr_s mrs with
  | false, false => x == inject_Z (shr_m mrs) * u
  | false, true => inject_Z (shr_m mrs) * u < x /\ x < (inject_Z (shr_m mrs) + (1#2)) * u
  | true, false => x == (inject_Z (shr_m mrs) + (1#2)) * u
  | true, true => (inject_Z (shr_m mrs) + (1#2)) * u < x /\ x < (inject_Z (shr_m mrs) + 1) * u
  end%Q.

(** The binary64 format, without its upper bound: the numbers M * 2^E with
    |M| < 2^53 and E >= -1074. *)
Definition in_format (f : Q) : Prop :=
  exists M E : Z, Z.abs M < 2 ^ prec /\ FloatOps.emin <= E /\ (f == inject_Z M * pow2 E)%Q.

(** [v] is at least as near to [x] as [f] is. *)
Definition nearer (x v f : Q) : Prop :=
  ((f < v -> f + v <= 2 * x) /\ (v < f -> 2 * x <= f + v))%Q.

(** [v] is a number of the format nearest to [x]. *)
Definition nearest (x v : Q) : Prop :=
  in_format v /\ forall f, in_format f -> nearer x v f.

(** The result of [binary_round_aux], from a mantissa and an exponent. *)
Definition SF_of_rounded (s : bool) (m3 e3 : Z) : spec_float :=
  match m3 with
  | Z0 => S754_zero s
  | Zpos p => if e3 <=? emax - prec then S754_finite s p e3 else S754_infinity s
  | Zneg _ => S754_nan
  end.

(** The exact value of a finite float (0 for the others). *)
Definition SF2Q (x : spec_float) : Q :=
  match x with
  | S754_finite s m e => inject_Z (cond_Zopp s (Zpos m)) * pow2 e
  | _ => 0
  end.

(** [r] is a correct rounding of the number [x]: a finite result is a number
    of the format nearest to [x]; an infinity stands for a nearest number of
    the unbounded format that is out of range. *)
Definition rounds (x : Q) (r : spec_float) : Prop :=
  match r with
  | S754_nan => False
  | S754_zero _ => nearest x 0
  | S754_finite s m e => bounded prec emax m e = true /\ nearest x (SF2Q r)
  | S754_infinity s =>
      exists v, nearest x v /\ (if s then v <= - pow2 emax else pow2 emax <= v)%Q
  end.

(** The order of the values of two floats, infinities included; it holds of
    no NaN. *)
Definition sf_le (x y : spec_float) : Prop :=
  match x, y with
  | S754_nan, _ | _, S754_nan => False
  | S754_infinity true, _ => True
  | _, S754_infinity false => True
  | S754_infinity false, _ => False
  | _, S754_infinity true => False
  | _, _ => (SF2Q x <= SF2Q y)%Q
  end.

(** The strict order of the values. *)
Definition sf_lt (x y : spec_float) : Prop :=
  match x, y with
  | S754_nan, _ | _, S754_nan => False
  | S754_infinity true, S754_infinity true => False
  | S754_infinity true, _ => True
  | S754_infinity false, _ => False
  | _, S754_infinity false => True
  | _, S754_infinity true => False
  | _, _ => (SF2Q x < SF2Q y)%Q
  end.

(** A float that is a number and is not negative. *)
Definition sf_nonneg (x : spec_float) : Prop :=
  match x with
  | S754_zero _ | S754_finite false _ _ | S754_infinity false => True
  | _ => False
  end.

(** A float that is positive: what [0 < x] tells. *)
Definition sf_pos (x : spec_float) : Prop :=
  match x with
  | S754_finite false _ _ | S754_infinity false => True
  | _ => False
  end.

(** ** Instance: exact rationals ([fractions.Fraction]) *)

Definition Q_truediv (x y : Q) : result Q :=
  if Qeq_bool y 0 then Raise ZeroDivisionError else Ok (x / y)%Q.

(** [Fraction.__trunc__]: the quotient of numerator by denominator, toward zero. *)
Definition Q_int (x : Q) : result Z := Ok (Z.quot (Qnum x) (Zpos (Qden x))).

Definition Q_lt (x y : Q) : bool := negb (Qle_bool y x).

#[export] Instance PyNumber_Q : PyNumber Q := {
  py_add := Qplus;
  py_sub := Qminus;
  py_mul := Qmult;
  py_truediv := Q_truediv;
  py_lt := Q_lt;
  py_le := Qle_bool;
  py_of_int := inject_Z;
  py_int := Q_int
}.

#[local] Open Scope string_scope.

(** * The script's world: file system, console, clock and network *)

(** ** Text *)

Definition nl : string := String (ascii_of_nat 10) EmptyString.
Definition cr_char : ascii := ascii_of_nat 13.
Definition lf_char : ascii := ascii_of_nat 10.
Definition dquote : string := String (ascii_of_nat 34) EmptyString.

(** [s.startswith(p)] and [s.endswith(p)]. *)
Definition startswith (s p : string) : bool := String.prefix p s.

Definition endswith (s p : string) : bool :=
  (String.length p <=? String.length s)%nat
  && String.eqb (substring (String.length s - String.length p) (String.length p) s) p.

(** The concatenation of a list of strings. *)
Definition join (ls : list string) : string := fold_right String.append EmptyString ls.

(** Reading in text mode with the default [newline=None]: "\r\n" and a lone
    "\r" both arrive as "\n". *)
Fixpoint universal_newlines (s : string) : string :=
  match s with
  | EmptyString => EmptyString
  | String c s' =>
      if Ascii.eqb c cr_char then
        match s' with
        | String c' s'' =>
            if Ascii.eqb c' lf_char
            then String lf_char (universal_newlines s'')
            else String lf_char (universal_newlines s')
        | EmptyString => String lf_char EmptyString
        end
      else String c (universal_newlines s')
  end.

(** The lines of a text, each with its terminating "\n" (the last one may
    lack it), as iterating over a file object yields them. *)
Fixpoint split_lines (s : string) : list string :=
  match s with
  | EmptyString => []
  | String c s' =>
      if Ascii.eqb c lf_char then String c EmptyString :: split_lines s'
      else match split_lines s' with
           | [] => [String c EmptyString]
           | l :: ls => String c l :: ls
           end
  end.

(** [for line in infile] on a file whose stored text is [content]. *)
Definition file_lines (content : string) : list string :=
  split_lines (universal_newlines content).

(** ** Files *)

(** A path is a folder and a file name in it, [os.path.join(folder, name)];
    a bare file name lives in the working directory. *)
Definition path : Type := string * string.
Definition os_path_join (folder name : string) : path := (folder, name).
Definition cwd : string := ".".
Definition in_cwd (name : string) : path := (cwd, name).

(** A folder lists its files in the order [os.listdir] reports them; the file
    system is a list of folders.  Only regular text files are modelled. *)
Definition folder : Type := list (string * string).
Definition file_system : Type := list (string * folder).

Fixpoint assoc {V : Type} (k : string) (l : list (string * V)) : option V :=
  match l with
  | [] => None
  | (k', v) :: l' => if String.eqb k k' then Some v else assoc k l'
  end.

(** Replace the value of an existing key in place, or add the key at the end. *)
Fixpoint assoc_set {V : Type} (k : string) (v : V) (l : list (string * V))
  : list (string * V) :=
  match l with
  | [] => [(k, v)]
  | (k', v') :: l' =>
      if String.eqb k k' then (k, v) :: l' else (k', v') :: assoc_set k v l'
  end.

Definition fs_read (fs : file_system) (p : path) : option string :=
  match assoc (fst p) fs with
  | Some entries => assoc (snd p) entries
  | None => None
  end.

(** The file system with [content] stored at [p]; [None] when the folder of
    [p] does not exist. *)
Definition fs_store (fs : file_system) (p : path) (content : string)
  : option file_system :=
  match assoc (fst p) fs with
  | Some entries => Some (assoc_set (fst p) (assoc_set (snd p) content entries) fs)
  | None => None
  end.

(** ** Network *)

Record response : Type := { status_code : Z; text : string }.

(** What [requests.post] does with a request: it returns a response, or raises
    a transport-level [RequestException] (connection error, timeout, ...). *)
Inductive post_outcome : Type :=
| Responds (r : response)
| TransportFailure.

(** The statuses that [raise_for_status] turns into an [HTTPError]. *)
Definition is_error_status (status : Z) : bool :=
  Z.leb 400 status && Z.ltb status 600.

(** The statuses of the 2xx class. *)
Definition is_2xx (status : Z) : bool :=
  Z.leb 200 status && Z.ltb status 300.

(** ** Console, clock and the trace of effects *)

Inductive message : Type :=
| FetchingArea (bbox : @Rectangle float)                        (* line 25 *)
| AreaSaved (bbox : @Rectangle float) (output_file : path)      (* line 33 *)
| RequestFailed (e : exn)                                       (* line 37 *)
| MergeDone (output_file : path).                               (* line 85 *)

Inductive event : Type :=
| Print (m : message)
| Post (bbox : @Rectangle float)     (* requests.post with the query of [bbox] *)
| Sleep (seconds : Z).               (* time.sleep *)

Record world : Type := {
  files : file_system;
  trace : list event;                                (* oldest first *)
  server : nat -> @Rectangle float -> post_outcome   (* outcome of the n-th request *)
}.

Definition with_files (fs : file_system) (w : world) : world :=
  {| files := fs; trace := trace w; server := server w |}.

Definition with_event (e : event) (w : world) : world :=
  {| files := files w; trace := (trace w ++ [e])%list; server := server w |}.

Definition with_events (es : list event) (w : world) : world :=
  {| files := files w; trace := (trace w ++ es)%list; server := server w |}.

(** The rectangles requested so far, oldest first. *)
Fixpoint posts (t : list event) : list (@Rectangle float) :=
  match t with
  | [] => []
  | Post bbox :: t' => bbox :: posts t'
  | _ :: t' => posts t'
  end.

(** ** Commands: state and exceptions *)

Definition M (A : Type) : Type := world -> result A * world.

Definition ret {A : Type} (a : A) : M A := fun w => (Ok a, w).

Definition raise {A : Type} (e : exn) : M A := fun w => (Raise e, w).

Definition bindM {A B : Type} (c : M A) (k : A -> M B) : M B :=
  fun w =>
    match c w with
    | (Ok a, w') => k a w'
    | (Raise e, w') => (Raise e, w')
    end.

Notation "x <~ c ;; k" := (bindM c (fun x => k))
  (at level 61, c at next level, right associativity).
Notation "c ;;; k" := (bindM c (fun _ => k))
  (at level 61, right associativity).

Definition lift {A : Type} (r : result A) : M A := fun w => (r, w).

(** [for x in xs: body(x)] *)
Fixpoint for_each {A : Type} (xs : list A) (body : A -> M unit) : M unit :=
  match xs with
  | [] => ret tt
  | x :: xs' => body x ;;; for_each xs' body
  end.

(** [try: body except requests.exceptions.RequestException as e: handler(e)] *)
Definition is_RequestException (e : exn) : bool :=
  match e with
  | ConnectionError | HTTPError _ => true
  | _ => false
  end.

Definition try_except_RequestException (body : M unit) (handler : exn -> M unit)
  : M unit :=
  fun w =>
    match body w with
    | (Raise e, w') => if is_RequestException e then handler e w' else (Raise e, w')
    | done => done
    end.

(** *** Primitive commands *)

Definition print (m : message) : M unit := fun w => (Ok tt, with_event (Print m) w).

Definition time_sleep (seconds : Z) : M unit :=
  fun w => (Ok tt, with_event (Sleep seconds) w).

(** [requests.post(url, data=query, headers=headers)], the query being
    determined by [bbox]. *)
Definition requests_post (bbox : @Rectangle float) : M response :=
  fun w =>
    let w' := with_event (Post bbox) w in
    match server w (List.length (posts (trace w))) bbox with
    | Responds r => (Ok r, w')
    | TransportFailure => (Raise ConnectionError, w')
    end.

(** [response.raise_for_status()] of the requests library: client (4xx) and
    server (5xx) error statuses raise [HTTPError], every other status passes. *)
Definition raise_for_status (r : response) : M unit :=
  if is_error_status (status_code r)
  then raise (HTTPError (status_code r))
  else ret tt.

(** [open(p, "w")]: the file is created or truncated. *)
Definition open_w (p : path) : M unit :=
  fun w =>
    match fs_store (files w) p EmptyString with
    | Some fs => (Ok tt, with_files fs w)
    | None => (Raise (FileNotFoundError (fst p)), w)
    end.

(** [file.write(s)] on a file opened for writing at [p]. *)
Definition file_write (p : path) (s : string) : M unit :=
  fun w =>
    match fs_read (files w) p with
    | Some old =>
        match fs_store (files w) p (old ++ s) with
        | Some fs => (Ok tt, with_files fs w)
        | None => (Raise (FileNotFoundError (fst p)), w)
        end
    | None => (Raise (FileNotFoundError (fst p)), w)
    end.

(** [open(p, "r")] and the lines the file object then yields. *)
Definition open_r_lines (p : path) : M (list string) :=
  fun w =>
    match fs_read (files w) p with
    | Some content => (Ok (file_lines content), w)
    | None => (Raise (FileNotFoundError (snd p)), w)
    end.

Definition os_listdir (d : string) : M (list string) :=
  fun w =>
    match assoc d (files w) with
    | Some entries => (Ok (map fst entries), w)
    | None => (Raise (FileNotFoundError d), w)
    end.

Definition os_path_exists (d : string) : M bool :=
  fun w => (Ok (match assoc d (files w) with Some _ => true | None => false end), w).

Definition os_makedirs (d : string) : M unit :=
  fun w =>
    match assoc d (files w) with
    | Some _ => (Raise (FileExistsError d), w)
    | None => (Ok tt, with_files (files w ++ [(d, [])])%list w)
    end.

(** ** fetch_osm_by_bbox *)

Definition fetch_osm_by_bbox (bbox : @Rectangle float) (output_file : path) : M unit :=
  try_except_RequestException
    (print (FetchingArea bbox) ;;;
     response <~ requests_post bbox ;;
     raise_for_status response ;;;
     let osm_data := text response in
     open_w output_file ;;;
     file_write output_file osm_data ;;;
     print (AreaSaved bbox output_file) ;;;
     time_sleep 2)
    (fun e => print (RequestFailed e)).

(** ** merge_osm_files *)

Definition xml_declaration : string :=
  "<?xml version=" ++ dquote ++ "1.0" ++ dquote
  ++ " encoding=" ++ dquote ++ "UTF-8" ++ dquote ++ "?>" ++ nl.

Definition osm_open_tag : string :=
  "<osm version=" ++ dquote ++ "0.6" ++ dquote ++ ">" ++ nl.

Definition osm_close_tag : string := "</osm>".

(** The test of line 80: the line is an envelope line and is skipped. *)
Definition is_envelope_line (line : string) : bool :=
  startswith line "<?xml" || startswith line "<osm" || startswith line "</osm".

Definition merge_osm_files (input_folder : string) (output_file : path) : M unit :=
  names <~ os_listdir input_folder ;;
  let files := filter (fun f => endswith f ".osm") names in
  open_w output_file ;;;
  file_write output_file xml_declaration ;;;
  file_write output_file osm_open_tag ;;;
  for_each files (fun file =>
    lines <~ open_r_lines (os_path_join input_folder file) ;;
    for_each lines (fun line =>
      if is_envelope_line line then ret tt
      else file_write output_file line)) ;;;
  file_write output_file osm_close_tag ;;;
  print (MergeDone output_file).

(** ** main *)

Definition string_of_nat (n : nat) : string := NilEmpty.string_of_uint (Nat.to_uint n).

(** [enumerate(xs)], counting from [start]. *)
Fixpoint enumerate_from {A : Type} (start : nat) (xs : list A) : list (nat * A) :=
  match xs with
  | [] => []
  | x :: xs' => (start, x) :: enumerate_from (S start) xs'
  end.

Definition output_folder : string := "osm_data".
Definition final_output_file : path := in_cwd "guangzhou_full.osm".

Definition part_file (i : nat) : path :=
  os_path_join output_folder ("guangzhou_part_" ++ string_of_nat (i + 1) ++ ".osm").

Definition fetch_all (bboxes : list (@Rectangle float)) : M unit :=
  for_each (enumerate_from 0 bboxes) (fun ib =>
    fetch_osm_by_bbox (snd ib) (part_file (fst ib))).

Definition main : M unit :=
  bboxes <~ lift (divide_area_to_bboxes 22.5 23.5 112.5 114.0 0.1)%float ;;
  present <~ os_path_exists output_folder ;;
  (if negb present then os_makedirs output_folder else ret tt) ;;;
  fetch_all bboxes ;;;
  merge_osm_files output_folder final_output_file.

(** ** Frames *)

(** [w'] differs from [w] at most in the content of the file [p]. *)
Definition same_but_file (p : path) (w w' : world) : Prop :=
  (forall p', p' <> p -> fs_read (files w') p' = fs_read (files w) p') /\
  trace w' = trace w /\ server w' = server w.

(** ** Sample worlds *)

Definition sample_folder : folder :=
  [ ("part_1.osm", xml_declaration ++ "<osm version=" ++ dquote ++ "0.6" ++ dquote
                   ++ " generator=" ++ dquote ++ "Overpass API" ++ dquote ++ ">" ++ nl
                   ++ "  <node id=" ++ dquote ++ "1" ++ dquote ++ "/>" ++ nl
                   ++ "</osm>" ++ nl);
    ("notes.txt", "<way/>" ++ nl);
    ("part_2.osm", "<osmAuthor>me</osmAuthor>" ++ String cr_char nl
                   ++ "  <way id=" ++ dquote ++ "2" ++ dquote ++ "/>" ++ nl) ].

(** Every request fails at the transport level. *)
Definition sample_world : world :=
  {| files := [(".", []); ("osm_data", sample_folder)];
     trace := [];
     server := fun _ _ => TransportFailure |}.

Definition osm_reply (body : string) : post_outcome :=
  Responds {| status_code := 200;
              text := xml_declaration ++ osm_open_tag ++ body ++ "</osm>" ++ nl |}.

(** Every request is answered with status 200. *)
Definition replying_world : world :=
  {| files := [(".", []); ("osm_data", [])];
     trace := [];
     server := fun _ _ => osm_reply ("<node/>" ++ nl) |}.

(** Every request is answered with status 304 and an empty body. *)
Definition not_modified_world : world :=
  {| files := [(".", []); ("osm_data", [])];
     trace := [];
     server := fun _ _ => Responds {| status_code := 304; text := "" |} |}.

(** Every request is answered with status 403; part_1.osm exists already. *)
Definition forbidden_world : world :=
  {| files := [(".", []); ("osm_data", [("part_1.osm", "old")])];
     trace := [];
     server := fun _ _ => Responds {| status_code := 403; text := "Forbidden" |} |}.

(** Every other request fails, by a timeout or with status 429 in turn. *)
Definition flaky_world : world :=
  {| files := [(".", [])];
     trace := [];
     server := fun n _ =>
       if Nat.even n then osm_reply ("<node/>" ++ nl)
       else if Nat.even (Nat.div2 n) then TransportFailure
       else Responds {| status_code := 429; text := "Too Many Requests" |} |}.

(** The third request fails; request n is otherwise answered with node n. *)
Definition third_fails_world : world :=
  {| files := [(".", []); ("osm_data", [])];
     trace := [];
     server := fun n _ =>
       if Nat.eqb n 2 then TransportFailure
       else osm_reply ("<node id=" ++ string_of_nat (n + 1) ++ "/>" ++ nl) |}.

(** ** Vocabulary for statements about texts *)

(** [c in s] *)
Fixpoint has_char (c : ascii) (s : string) : bool :=
  match s with
  | EmptyString => false
  | String a s' => Ascii.eqb a c || has_char c s'
  end.

(** The text is empty or its last character is "\n": every line is complete. *)
Fixpoint lines_complete (s : string) : bool :=
  match s with
  | EmptyString => true
  | String c EmptyString => Ascii.eqb c lf_char
  | String _ s' => lines_complete s'
  end.

(** Every request is answered with status 200 and the text "new"; the output
    folder holds a part file and another file from an earlier run. *)
Definition stale_world : world :=
  {| files := [(".", [("readme.txt", "keep")]);
               ("osm_data", [("part_1.osm", "old"); ("old.osm", "<way/>" ++ nl)])];
     trace := [];
     server := fun _ _ => Responds {| status_code := 200; text := "new" |} |}.

(** The output folder holds one merged document and a file of another kind. *)
Definition merged_world : world :=
  {| files := [(".", []);
               ("osm_data", [("full.osm", xml_declaration ++ osm_open_tag
                                          ++ ("  <node/>" ++ nl ++ "<way/>" ++ nl)
                                          ++ "</osm>");
                             ("full.txt", "")])];
     trace := [];
     server := fun _ _ => TransportFailure |}.

(** No request gets through; the working directory holds one file. *)
Definition offline_world : world :=
  {| files := [(".", [("notes.txt", "keep")])];
     trace := [];
     server := fun _ _ => TransportFailure |}.

(** ** Vocabulary for statements about the driver *)

(** The text of an answer that [raise_for_status] lets pass. *)
Definition accepted_text (o : post_outcome) : option string :=
  match o with
  | Responds r => if is_error_status (status_code r) then None else Some (text r)
  | TransportFailure => None
  end.

(** The seconds slept in a trace. *)
Fixpoint total_sleep (t : list event) : Z :=
  match t with
  | [] => 0
  | Sleep seconds :: t' => seconds + total_sleep t'
  | _ :: t' => total_sleep t'
  end.

(** How many of the requests for [bboxes], sent as requests [n], [n + 1], ...,
    are answered with a passing status. *)
Fixpoint saved_count (srv : nat -> @Rectangle float -> post_outcome) (n : nat)
    (bboxes : list (@Rectangle float)) : nat :=
  match bboxes with
  | [] => 0
  | bbox :: bboxes' =>
      (match accepted_text (srv n bbox) with Some _ => 1 | None => 0 end
       + saved_count srv (S n) bboxes')%nat
  end.

#[local] Close Scope string_scope.

(** * Properties of the tiler *)

(** ** The loops, read as list comprehensions *)

Lemma fold_left_append {A B : Type} (f : B -> A) (l : list B) (acc : list A) :
  fold_left (fun acc x => acc ++ [f x]) l acc = acc ++ map f l.
Proof.
  revert acc; induction l as [|x l IH]; intros acc; simpl.
  - now rewrite app_nil_r.
  - rewrite IH, <- app_assoc. reflexivity.
Qed.

Lemma range_length (n : Z) : length (range n) = Z.to_nat n.
Proof. unfold range. now rewrite length_map, length_seq. Qed.

Lemma range_nth (n : Z) (i : nat) :
  (i < Z.to_nat n)%nat -> nth_error (range n) i = Some (Z.of_nat i).
Proof.
  intros Hi. unfold range.
  rewrite nth_error_map, nth_error_seq.
  destruct (Nat.ltb_spec i (Z.to_nat n)); [reflexivity | lia].
Qed.

(** Row [i] of a concatenation of rows of equal length [c] starts at [i * c]. *)
Lemma nth_error_flat_map_rows {A B : Type} (f : A -> list B) (c : nat) :
  (forall x, length (f x) = c) ->
  forall (l : list A) (i j : nat) (a : A),
    nth_error l i = Some a -> (j < c)%nat ->
    nth_error (flat_map f l) (i * c + j) = nth_error (f a) j.
Proof.
  intros Hc l; induction l as [|x l IH]; intros i j a Hi Hj.
  - destruct i; discriminate.
  - destruct i as [|i]; simpl in *.
    + injection Hi as ->. apply nth_error_app1. now rewrite Hc.
    + rewrite nth_error_app2 by (rewrite Hc; lia).
      rewrite Hc. replace (c + i * c + j - c)%nat with (i * c + j)%nat by lia.
      now apply IH.
Qed.

Lemma flat_map_rows_length {A B : Type} (f : A -> list B) (c : nat) :
  (forall x, length (f x) = c) ->
  forall l : list A, length (flat_map f l) = (length l * c)%nat.
Proof.
  intros Hc l; induction l as [|x l IH]; simpl; [reflexivity|].
  now rewrite length_app, Hc, IH.
Qed.

Section TilerFacts.
Context {T : Type} `{PyNumber T}.
Variables min_lat max_lat min_lon max_lon step : T.

Let bbox := bbox_at min_lat max_lat min_lon max_lon step.

Lemma lon_loop_spec (lon_steps i : Z) (bboxes : list Rectangle) :
    lon_loop min_lat max_lat min_lon max_lon step lon_steps i bboxes
    = bboxes ++ map (bbox i) (range lon_steps).
Proof. unfold lon_loop. apply (fold_left_append (bbox i)). Qed.

Lemma lat_loop_spec (lat_steps lon_steps : Z) (bboxes : list Rectangle) :
    lat_loop min_lat max_lat min_lon max_lon step lat_steps lon_steps bboxes
    = bboxes ++ flat_map (fun i => map (bbox i) (range lon_steps)) (range lat_steps).
Proof.
    unfold lat_loop. generalize (range lat_steps) as rows. intros rows.
    revert bboxes; induction rows as [|i rows IH]; intros bboxes; simpl.
    - now rewrite app_nil_r.
    - rewrite IH, lon_loop_spec, <- app_assoc. reflexivity.
Qed.

Lemma lat_loop_length (lat_steps lon_steps : Z) :
    length (lat_loop min_lat max_lat min_lon max_lon step lat_steps lon_steps [])
    = (Z.to_nat lat_steps * Z.to_nat lon_steps)%nat.
Proof.
    rewrite lat_loop_spec. simpl.
    rewrite (flat_map_rows_length _ (Z.to_nat lon_steps)).
    - now rewrite range_length.
    - intros x. now rewrite length_map, range_length.
Qed.

Lemma lat_loop_nth (lat_steps lon_steps : Z) (i j : nat) :
    (i < Z.to_nat lat_steps)%nat -> (j < Z.to_nat lon_steps)%nat ->
    nth_error (lat_loop min_lat max_lat min_lon max_lon step lat_steps lon_steps [])
              (i * Z.to_nat lon_steps + j)
    = Some (bbox (Z.of_nat i) (Z.of_nat j)).
Proof.
    intros Hi Hj. rewrite lat_loop_spec. simpl.
    rewrite (nth_error_flat_map_rows _ (Z.to_nat lon_steps)) with (a := Z.of_nat i).
    - rewrite nth_error_map, range_nth by assumption. reflexivity.
    - intros x. now rewrite length_map, range_length.
    - now apply range_nth.
    - assumption.
Qed.


  (** The function raises exactly when one of the two step counts does. *)
Lemma divide_area_to_bboxes_unfold :
    divide_area_to_bboxes min_lat max_lat min_lon max_lon step
    = match grid_steps min_lat max_lat step with
      | Raise e => Raise e
      | Ok lat_steps =>
          match grid_steps min_lon max_lon step with
          | Raise e => Raise e
          | Ok lon_steps =>
              Ok (lat_loop min_lat max_lat min_lon max_lon step lat_steps lon_steps [])
          end
      end.
Proof. reflexivity. Qed.
End TilerFacts.

(** ** Grid positions and flat indices (any numeric type) *)

Section TilerOrder.
Context {T : Type} `{PyNumber T}.

(** C1. For every input with min_lat <= max_lat, min_lon <= max_lon and
    step > 0 on which [divide_area_to_bboxes] returns, the returned list has
    one tile per grid position (i, j), i below the row count and j below the
    column count, the tile of (i, j) sits at flat index i * col_count + j
    (row-major order) and it is the tuple
    (min_lat + i*step, min_lon + j*step,
     min(min_lat + (i+1)*step, max_lat), min(min_lon + (j+1)*step, max_lon)),
    all operations being those of the arguments' numeric type.  The function
    raises only when one of the two step counts cannot be computed. *)
Theorem divide_area_tiles_row_major
      (min_lat max_lat min_lon max_lon step : T) :
    py_le min_lat max_lat = true ->
    py_le min_lon max_lon = true ->
    py_lt (py_of_int 0) step = true ->
    match divide_area_to_bboxes min_lat max_lat min_lon max_lon step with
    | Ok tiles =>
        exists row_count col_count : Z,
          grid_steps min_lat max_lat step = Ok row_count /\
          grid_steps min_lon max_lon step = Ok col_count /\
          List.length tiles = (Z.to_nat row_count * Z.to_nat col_count)%nat /\
          forall i j : nat,
            (i < Z.to_nat row_count)%nat -> (j < Z.to_nat col_count)%nat ->
            nth_error tiles (i * Z.to_nat col_count + j)
            = Some (py_add min_lat (py_mul (py_of_int (Z.of_nat i)) step),
                    py_add min_lon (py_mul (py_of_int (Z.of_nat j)) step),
                    py_min (py_add min_lat (py_mul (py_of_int (Z.of_nat i + 1)) step))
                           max_lat,
                    py_min (py_add min_lon (py_mul (py_of_int (Z.of_nat j + 1)) step))
                           max_lon)
    | Raise e =>
        grid_steps min_lat max_lat step = Raise e \/
        grid_steps min_lon max_lon step = Raise e
    end.
Proof.
    intros _ _ _. rewrite divide_area_to_bboxes_unfold.
    destruct (grid_steps min_lat max_lat step) as [rows|e]; [|now left].
    destruct (grid_steps min_lon max_lon step) as [cols|e]; [|now right].
    exists rows, cols. repeat split.
    - apply lat_loop_length.
    - intros i j Hi Hj. now rewrite lat_loop_nth.
Qed.
End TilerOrder.

(** The end-to-end input of the specification, run on floats. *)
Lemma divide_area_tiles_row_major_witness :
  match divide_area_to_bboxes 22.5%float 22.7%float 112.5%float 112.7%float 0.1%float with
  | Ok tiles =>
      exists row_count col_count : Z,
        grid_steps 22.5%float 22.7%float 0.1%float = Ok row_count /\
        grid_steps 112.5%float 112.7%float 0.1%float = Ok col_count /\
        List.length tiles = (Z.to_nat row_count * Z.to_nat col_count)%nat /\
        forall i j : nat,
          (i < Z.to_nat row_count)%nat -> (j < Z.to_nat col_count)%nat ->
          nth_error tiles (i * Z.to_nat col_count + j)
          = Some (py_add 22.5%float (py_mul (py_of_int (Z.of_nat i)) 0.1%float),
                  py_add 112.5%float (py_mul (py_of_int (Z.of_nat j)) 0.1%float),
                  py_min (py_add 22.5%float (py_mul (py_of_int (Z.of_nat i + 1)) 0.1%float))
                         22.7%float,
                  py_min (py_add 112.5%float (py_mul (py_of_int (Z.of_nat j + 1)) 0.1%float))
                         112.7%float)
  | Raise e =>
      grid_steps 22.5%float 22.7%float 0.1%float = Raise e \/
      grid_steps 112.5%float 112.7%float 0.1%float = Raise e
  end.
Proof.
  apply (divide_area_tiles_row_major 22.5%float 22.7%float 112.5%float 112.7%float 0.1%float);
    vm_compute; reflexivity.
Defined.

(** ** Binary64 facts: order, sign of a difference and of a quotient *)

Lemma digits2_pos_bounds (m : positive) :
  2 ^ (Zpos (digits2_pos m) - 1) <= Zpos m < 2 ^ Zpos (digits2_pos m).
Proof.
  induction m as [m IH|m IH|]; simpl digits2_pos.
  - rewrite Pos2Z.inj_succ.
    replace (Z.succ (Zpos (digits2_pos m)) - 1) with (Z.succ (Zpos (digits2_pos m) - 1)) by lia.
    rewrite !Z.pow_succ_r by lia. lia.
  - rewrite Pos2Z.inj_succ.
    replace (Z.succ (Zpos (digits2_pos m)) - 1) with (Z.succ (Zpos (digits2_pos m) - 1)) by lia.
    rewrite !Z.pow_succ_r by lia. lia.
  - simpl. lia.
Qed.

Lemma iter_xO_value (m d : positive) :
  Zpos (Pos.iter xO m d) = Zpos m * 2 ^ Zpos d.
Proof.
  revert m. induction d as [|d IH] using Pos.peano_ind; intros m.
  - simpl. lia.
  - rewrite Pos.iter_succ, Pos2Z.inj_succ, Z.pow_succ_r by lia.
    rewrite Pos2Z.inj_xO, IH. lia.
Qed.

Lemma shl_align_value (m : positive) (e ez : Z) :
  ez <= e -> Zpos (fst (shl_align m e ez)) = Zpos m * 2 ^ (e - ez).
Proof.
  intros Hle. unfold shl_align.
  destruct (ez - e) as [|d|d] eqn:Hd; simpl fst.
  - replace (e - ez) with 0 by lia. simpl. lia.
  - lia.
  - rewrite iter_xO_value. f_equal. f_equal. lia.
Qed.

Lemma binary_round_aux_sign_ok (m e : Z) (l : location) :
  sf_sign_ok (binary_round_aux prec emax false m e l).
Proof.
  unfold binary_round_aux.
  destruct (shr_fexp prec emax m e l) as [mrs' e'].
  destruct (shr_fexp prec emax _ e' loc_Exact) as [mrs'' e''].
  destruct (shr_m mrs''); simpl; auto.
  destruct (e'' <=? 971); simpl; auto.
Qed.

Lemma binary_normalize_sign_ok (m e : Z) :
  0 <= m -> sf_sign_ok (binary_normalize prec emax m e false).
Proof.
  intros Hm. destruct m as [|p|p]; simpl; auto; [|lia].
  unfold binary_round. destruct (shl_align _ _ _) as [mz ez].
  apply binary_round_aux_sign_ok.
Qed.

Lemma bounded_digits (m : positive) (e : Z) :
  bounded prec emax m e = true ->
  FloatOps.emin <= e /\ Zpos (digits2_pos m) <= prec /\
  (FloatOps.emin < e -> Zpos (digits2_pos m) = prec).
Proof.
  unfold bounded, canonical_mantissa, fexp. intros Hb.
  apply andb_prop in Hb as [Hc _]. apply Z.eqb_eq in Hc.
  unfold FloatOps.emin, SpecFloat.emin in *. lia.
Qed.

(** On canonical representations a smaller exponent means a smaller magnitude. *)
Lemma bounded_exponent_lt (m1 m2 : positive) (e1 e2 : Z) :
  bounded prec emax m1 e1 = true -> bounded prec emax m2 e2 = true ->
  e1 < e2 -> Zpos m1 < Zpos m2 * 2 ^ (e2 - e1).
Proof.
  intros H1 H2 Hlt.
  destruct (bounded_digits _ _ H1) as (Hmin1 & Hd1 & _).
  destruct (bounded_digits _ _ H2) as (_ & _ & Hd2).
  specialize (Hd2 ltac:(lia)).
  pose proof (digits2_pos_bounds m1) as [_ Hu].
  pose proof (digits2_pos_bounds m2) as [Hl _].
  rewrite Hd2 in Hl.
  assert (Hp1 : 2 ^ Zpos (digits2_pos m1) <= 2 ^ prec)
    by (apply Z.pow_le_mono_r; lia).
  assert (Hp2 : 2 ^ 1 <= 2 ^ (e2 - e1)) by (apply Z.pow_le_mono_r; lia).
  change (2 ^ 1) with 2 in Hp2.
  change (2 ^ prec) with (2 * 2 ^ (prec - 1)) in Hp1.
  nia.
Qed.

(** [a <= b] on valid floats gives a difference [b - a] that is not negative
    (or no number at all, for infinities of equal sign). *)
Lemma SFsub_sign_ok (a b : spec_float) :
  valid_binary a = true -> valid_binary b = true ->
  SFleb a b = true -> sf_sign_ok (SF64sub b a).
Proof.
  intros Va Vb Hle. unfold SFleb in Hle.
  destruct a as [sa|sa| |sa ma ea], b as [sb|sb| |sb mb eb];
    try (destruct sa; destruct sb; simpl in *; try discriminate; now auto);
    try (destruct sa; simpl in *; try discriminate; now auto);
    try (destruct sb; simpl in *; try discriminate; now auto);
    try (simpl in *; discriminate).
  unfold SF64sub, SFsub. apply binary_normalize_sign_ok.
  cbn [valid_binary] in Va, Vb.
  destruct sa, sb; cbn [cond_Zopp]; cbn [SFcompare] in Hle; try discriminate.
  - (* both negative *)
    destruct (Z.compare_spec ea eb) as [Heq|Hlt|Hgt]; try discriminate.
    + subst eb. rewrite Z.min_id, !shl_align_value by lia.
      rewrite Z.sub_diag. simpl Z.pow.
      destruct (Pos.compare_cont Eq ma mb) eqn:Hc; simpl in Hle; try discriminate.
      * apply Pos.compare_eq in Hc. subst. lia.
      * change (Pos.compare ma mb = Gt) in Hc. apply -> Pos.compare_gt_iff in Hc. lia.
    + pose proof (bounded_exponent_lt _ _ _ _ Vb Va Hgt).
      rewrite Z.min_l, !shl_align_value by lia.
      rewrite Z.sub_diag. simpl Z.pow. lia.
  - (* both positive *)
    destruct (Z.compare_spec ea eb) as [Heq|Hlt|Hgt]; try discriminate.
    + subst eb. rewrite Z.min_id, !shl_align_value by lia.
      rewrite Z.sub_diag. simpl Z.pow.
      destruct (Pos.compare_cont Eq ma mb) eqn:Hc; simpl in Hle; try discriminate.
      * apply Pos.compare_eq in Hc. subst. lia.
      * change (Pos.compare ma mb = Lt) in Hc. apply -> Pos.compare_lt_iff in Hc. lia.
    + pose proof (bounded_exponent_lt _ _ _ _ Va Vb Hlt).
      rewrite Z.min_r, !shl_align_value by lia.
      rewrite Z.sub_diag. simpl Z.pow. lia.
Qed.

Lemma SFdiv_sign_ok (x y : spec_float) :
  sf_sign_ok x -> SFltb (S754_zero false) y = true -> sf_sign_ok (SF64div x y).
Proof.
  intros Hx Hy. unfold SFltb in Hy.
  destruct x as [sx|sx| |sx mx ex], y as [sy|sy| |sy my ey];
    try destruct sx; try destruct sy; simpl in *; try discriminate; auto;
    try contradiction.
  destruct (SFdiv_core_binary prec emax (Z.pos mx) ex (Z.pos my) ey) as [[mz ez] lz].
  apply binary_round_aux_sign_ok.
Qed.

Lemma float_quotient_sign_ok (lo hi step : float) :
  PrimFloat.leb lo hi = true -> PrimFloat.ltb 0 step = true ->
  sf_sign_ok (Prim2SF (PrimFloat.div (PrimFloat.sub hi lo) step)).
Proof.
  intros Hle Hstep. rewrite div_spec, sub_spec.
  apply SFdiv_sign_ok.
  - apply SFsub_sign_ok; auto using Prim2SF_valid. now rewrite <- leb_spec.
  - rewrite ltb_spec in Hstep. exact Hstep.
Qed.

Lemma float_truediv_positive (x step : float) :
  PrimFloat.ltb 0 step = true -> float_truediv x step = Ok (PrimFloat.div x step).
Proof.
  intros Hstep. unfold float_truediv.
  rewrite ltb_spec in Hstep. rewrite eqb_spec.
  change (Prim2SF 0) with (S754_zero false) in *.
  destruct (Prim2SF step) as [s|s| |s m e]; try destruct s; try discriminate; reflexivity.
Qed.

(** On a quotient that is not negative, truncation is the floor. *)
Lemma float_int_floor (q : float) (n : Z) :
  sf_sign_ok (Prim2SF q) -> float_int q = Ok n -> float_floor q = Some n /\ 0 <= n.
Proof.
  unfold float_int, float_floor. intros Hs Hn.
  destruct (Prim2SF q) as [s|s| |s m e]; try discriminate.
  - injection Hn as <-. split; [reflexivity | lia].
  - destruct s; [contradiction|]. simpl in *. injection Hn as <-.
    split; [reflexivity|]. apply Z.shiftl_nonneg. lia.
Qed.

(** [int(q)] of a finite double is at most the largest double, an integer. *)
Lemma float_int_bound (q : float) (n : Z) :
  float_int q = Ok n -> Z.abs n <= (2 ^ 53 - 1) * 2 ^ 971.
Proof.
  unfold float_int. pose proof (Prim2SF_valid q) as Hv.
  destruct (Prim2SF q) as [s|s| |s m e]; try discriminate.
  - intros [= <-]. now vm_compute.
  - intros [= <-]. cbn [valid_binary] in Hv.
    destruct (bounded_digits _ _ Hv) as (_ & Hd & _).
    unfold bounded in Hv. apply andb_prop in Hv as [_ He]. apply Z.leb_le in He.
    pose proof (digits2_pos_bounds m) as [_ Hm].
    assert (Hm53 : Z.pos m <= 2 ^ 53 - 1).
    { assert (2 ^ Z.pos (digits2_pos m) <= 2 ^ prec)
        by (apply Z.pow_le_mono_r; lia).
      change (2 ^ prec) with (2 ^ 53) in *. lia. }
    assert (Hsh : 0 <= Z.shiftl (Z.pos m) e <= (2 ^ 53 - 1) * 2 ^ 971).
    { split; [apply Z.shiftl_nonneg; lia|].
      destruct (Z.leb_spec 0 e) as [Hpos|Hneg].
      - rewrite Z.shiftl_mul_pow2 by assumption.
        assert (2 ^ e <= 2 ^ 971)
          by (apply Z.pow_le_mono_r; [lia | change (emax - prec) with 971 in He; lia]).
        assert (0 < 2 ^ e) by (apply Z.pow_pos_nonneg; lia).
        nia.
      - rewrite Z.shiftl_div_pow2 by lia.
        assert (0 < 2 ^ (- e)) by (apply Z.pow_pos_nonneg; lia).
        assert (Z.pos m / 2 ^ (- e) <= Z.pos m)
          by (apply Z.div_le_upper_bound; nia).
        assert (0 < 2 ^ 971) by (apply Z.pow_pos_nonneg; lia).
        nia. }
    destruct s; cbn [cond_Zopp]; lia.
Qed.

(** One past that bound, an int still converts to a finite double. *)
Example float_of_int_at_bound :
  Prim2SF (float_of_int ((2 ^ 53 - 1) * 2 ^ 971 + 1))
  = S754_finite false (2 ^ 53 - 1) 971.
Proof. vm_compute. reflexivity. Qed.

Lemma float_int_raise_floor (q : float) (e : exn) :
  float_int q = Raise e -> float_floor q = None.
Proof.
  unfold float_int, float_floor.
  destruct (Prim2SF q) as [s|s| |s m e']; try discriminate; reflexivity.
Qed.

Lemma float_grid_steps (lo hi step : float) :
  PrimFloat.leb lo hi = true -> PrimFloat.ltb 0 step = true ->
  match grid_steps lo hi step with
  | Ok n => float_floor (PrimFloat.div (PrimFloat.sub hi lo) step) = Some (n - 1) /\ 1 <= n
  | Raise e => float_floor (PrimFloat.div (PrimFloat.sub hi lo) step) = None
  end.
Proof.
  intros Hle Hstep. unfold grid_steps. simpl.
  rewrite (float_truediv_positive _ _ Hstep). simpl.
  pose proof (float_quotient_sign_ok _ _ _ Hle Hstep) as Hs.
  destruct (float_int _) as [n|e] eqn:Hn; simpl.
  - destruct (float_int_floor _ _ Hs Hn) as [-> Hn0].
    split; [f_equal; lia | lia].
  - eapply float_int_raise_floor; eauto.
Qed.

(** C2. For every float input with min_lat <= max_lat, min_lon <= max_lon and
    step > 0 on which [divide_area_to_bboxes] returns, the row count is
    floor((max_lat - min_lat) / step) + 1, the column count is
    floor((max_lon - min_lon) / step) + 1 and the number of tiles is their
    product, with the subtraction and the division of binary64 (also when the
    range is an exact multiple of the step); the function raises only when one
    of the two quotients is not finite. *)
Theorem divide_area_tile_count (min_lat max_lat min_lon max_lon step : float) :
  PrimFloat.leb min_lat max_lat = true ->
  PrimFloat.leb min_lon max_lon = true ->
  PrimFloat.ltb 0 step = true ->
  match divide_area_to_bboxes min_lat max_lat min_lon max_lon step with
  | Ok tiles =>
      exists f_lat f_lon : Z,
        float_floor (PrimFloat.div (PrimFloat.sub max_lat min_lat) step) = Some f_lat /\
        float_floor (PrimFloat.div (PrimFloat.sub max_lon min_lon) step) = Some f_lon /\
        grid_steps min_lat max_lat step = Ok (f_lat + 1) /\
        grid_steps min_lon max_lon step = Ok (f_lon + 1) /\
        Z.of_nat (List.length tiles) = (f_lat + 1) * (f_lon + 1)
  | Raise e =>
      float_floor (PrimFloat.div (PrimFloat.sub max_lat min_lat) step) = None \/
      float_floor (PrimFloat.div (PrimFloat.sub max_lon min_lon) step) = None
  end.
Proof.
  intros Hlat Hlon Hstep. rewrite divide_area_to_bboxes_unfold.
  pose proof (float_grid_steps _ _ _ Hlat Hstep) as Glat.
  pose proof (float_grid_steps _ _ _ Hlon Hstep) as Glon.
  destruct (grid_steps min_lat max_lat step) as [rows|e]; [|now left].
  destruct (grid_steps min_lon max_lon step) as [cols|e]; [|now right].
  destruct Glat as [Flat Hrows], Glon as [Flon Hcols].
  exists (rows - 1), (cols - 1). repeat split; try assumption.
  - f_equal. lia.
  - f_equal. lia.
  - rewrite lat_loop_length. lia.
Qed.

(** The range 0..1 is an exact multiple of step 1: two rows and two columns. *)
Lemma divide_area_tile_count_witness :
  match divide_area_to_bboxes 0%float 1%float 0%float 1%float 1%float with
  | Ok tiles =>
      exists f_lat f_lon : Z,
        float_floor (PrimFloat.div (PrimFloat.sub 1 0) 1) = Some f_lat /\
        float_floor (PrimFloat.div (PrimFloat.sub 1 0) 1) = Some f_lon /\
        grid_steps 0%float 1%float 1%float = Ok (f_lat + 1) /\
        grid_steps 0%float 1%float 1%float = Ok (f_lon + 1) /\
        Z.of_nat (List.length tiles) = (f_lat + 1) * (f_lon + 1)
  | Raise e =>
      float_floor (PrimFloat.div (PrimFloat.sub 1 0) 1) = None \/
      float_floor (PrimFloat.div (PrimFloat.sub 1 0) 1) = None
  end.
Proof.
  apply (divide_area_tile_count 0%float 1%float 0%float 1%float 1%float);
    vm_compute; reflexivity.
Defined.

Example divide_area_exact_multiple :
  option_map (@List.length _)
    (match divide_area_to_bboxes 0%float 1%float 0%float 1%float 1%float with
     | Ok tiles => Some tiles
     | Raise _ => None
     end) = Some 4%nat.
Proof. vm_compute. reflexivity. Qed.

(** ** The end-to-end scenario tile(22.5, 22.7, 112.5, 112.7, step=0.1) *)

(** On floats the latitude quotient (22.7 - 22.5) / 0.1 is 1.9999999999999929
    and the longitude quotient (112.7 - 112.5) / 0.1 is 2.0000000000000284:
    two rows and three columns. *)
Lemma scenario_grid_steps :
  grid_steps 22.5%float 22.7%float 0.1%float = Ok 2 /\
  grid_steps 112.5%float 112.7%float 0.1%float = Ok 3.
Proof. split; vm_compute; reflexivity. Qed.

(** C6, refuted as stated: the call does not return the four tiles listed. *)
Lemma divide_area_scenario_not_four_tiles :
  divide_area_to_bboxes 22.5%float 22.7%float 112.5%float 112.7%float 0.1%float
  <> Ok [ (22.5, 112.5, 22.6, 112.6); (22.5, 112.6, 22.6, 112.7);
          (22.6, 112.5, 22.7, 112.6); (22.6, 112.6, 22.7, 112.7) ]%float.
Proof. vm_compute. discriminate. Qed.

(** C6, amended: divide_area_to_bboxes(22.5, 22.7, 112.5, 112.7, 0.1) returns
    exactly 6 tiles, two rows of three columns, the third column being the
    degenerate strip at longitude 112.7. *)
Theorem divide_area_scenario_six_tiles :
  divide_area_to_bboxes 22.5%float 22.7%float 112.5%float 112.7%float 0.1%float
  = Ok [ (22.5, 112.5, 22.6, 112.6); (22.5, 112.6, 22.6, 112.7);
         (22.5, 112.7, 22.6, 112.7);
         (22.6, 112.5, 22.7, 112.6); (22.6, 112.6, 22.7, 112.7);
         (22.6, 112.7, 22.7, 112.7) ]%float.
Proof. vm_compute. reflexivity. Qed.

(** With exact rationals both ranges are exact multiples of the step and the
    same call yields three rows of three columns. *)
Example divide_area_scenario_exact :
  option_map (@List.length _)
    (match divide_area_to_bboxes (225#10) (227#10) (1125#10) (1127#10) (1#10)%Q with
     | Ok tiles => Some tiles
     | Raise _ => None
     end) = Some 9%nat.
Proof. vm_compute. reflexivity. Qed.

(** ** Exact arithmetic: the tiler on rationals *)


Lemma Q_lt_iff (x y : Q) : Q_lt x y = true <-> (x < y)%Q.
Proof.
  unfold Q_lt. rewrite negb_true_iff, <- not_true_iff_false, Qle_bool_iff.
  split; [apply Qnot_le_lt | apply Qlt_not_le].
Qed.

Lemma Q_lt_false_iff (x y : Q) : Q_lt x y = false <-> (y <= x)%Q.
Proof.
  unfold Q_lt. rewrite negb_false_iff. apply Qle_bool_iff.
Qed.

Lemma Q_py_min_spec (a b : Q) :
  (py_min a b <= a)%Q /\ (py_min a b <= b)%Q /\
  forall c : Q, (c <= a)%Q -> (c <= b)%Q -> (c <= py_min a b)%Q.
Proof.
  unfold py_min. simpl py_lt.
  destruct (Q_lt b a) eqn:Hlt.
  - apply Q_lt_iff in Hlt. repeat split; try lra. auto.
  - apply Q_lt_false_iff in Hlt. repeat split; try lra. auto.
Qed.

Lemma Q_truediv_positive (x step : Q) :
  (0 < step)%Q -> Q_truediv x step = Ok (x / step)%Q.
Proof.
  intros Hs. unfold Q_truediv.
  destruct (Qeq_bool step 0) eqn:He; [|reflexivity].
  apply Qeq_bool_iff in He. lra.
Qed.

Lemma Q_int_nonneg (q : Q) : (0 <= q)%Q -> Q_int q = Ok (Qfloor q).
Proof.
  intros Hq. unfold Q_int. f_equal. destruct q as [n d]. simpl.
  unfold Qle in Hq. simpl in Hq.
  apply Z.quot_div_nonneg; lia.
Qed.

Lemma Q_scale (x step : Q) : (0 < step)%Q -> (x / step * step == x)%Q.
Proof. intros Hs. field. lra. Qed.

Section ExactGrid.
Variables lo hi step : Q.
Hypothesis Hrange : (lo <= hi)%Q.
Hypothesis Hstep : (0 < step)%Q.

Let q : Q := ((hi - lo) / step)%Q.

Lemma exact_quotient_nonneg : (0 <= q)%Q.
Proof.
  unfold q. apply Qle_shift_div_l; [assumption | lra].
Qed.

Lemma exact_grid_steps : grid_steps lo hi step = Ok (Qfloor q + 1).
Proof.
  unfold grid_steps, py_truediv, py_sub, py_int, PyNumber_Q.
  rewrite Q_truediv_positive by assumption. cbn [bind].
  rewrite Q_int_nonneg by apply exact_quotient_nonneg. reflexivity.
Qed.


(** Row [i] starts inside the range when [i <= floor q]. *)
Lemma exact_row_start_le (i : Z) :
  i <= Qfloor q -> (lo + inject_Z i * step <= hi)%Q.
Proof.
  intros Hi.
  assert (Hq : (inject_Z i <= q)%Q).
  { apply Qle_trans with (inject_Z (Qfloor q)); [now rewrite <- Zle_Qle | apply Qfloor_le]. }
  apply (Qmult_le_compat_r _ _ step) in Hq; [|lra].
  unfold q in Hq. rewrite Q_scale in Hq by assumption. lra.
Qed.

(** The row after the last one starts beyond the range. *)
Lemma exact_row_end_gt : (hi < lo + inject_Z (Qfloor q + 1) * step)%Q.
Proof.
  pose proof (Qlt_floor q) as Hq.
  apply (Qmult_lt_compat_r _ _ step) in Hq; [|assumption].
  unfold q in Hq at 1. rewrite Q_scale in Hq by assumption. lra.
Qed.

Lemma exact_row_mono (i j : Z) :
  i <= j -> (lo + inject_Z i * step <= lo + inject_Z j * step)%Q.
Proof.
  intros Hij. rewrite Zle_Qle in Hij.
  apply (Qmult_le_compat_r _ _ step) in Hij; lra.
Qed.


(** A coordinate of the range lies in the half-open band of exactly the row
    [floor((x - lo) / step)]. *)
Lemma exact_band_floor (x : Q) (i : Z) :
  (lo + inject_Z i * step <= x)%Q /\ (x < lo + inject_Z i * step + step)%Q
  <-> i = Qfloor ((x - lo) / step).
Proof.
  set (y := ((x - lo) / step)%Q).
  assert (Hy : (y * step == x - lo)%Q) by (unfold y; now apply Q_scale).
  split.
  - intros [Hl Hu].
    assert (H1 : (inject_Z i <= y)%Q).
    { apply (Qmult_le_r _ _ step); [assumption|]. lra. }
    assert (H2 : (y < inject_Z (i + 1))%Q).
    { apply (Qmult_lt_r _ _ step); [assumption|]. rewrite inject_Z_plus. change (inject_Z 1) with 1%Q. lra. }
    pose proof (Qfloor_le y) as F1. pose proof (Qlt_floor y) as F2.
    assert (i < Qfloor y + 1) by (rewrite Zlt_Qlt; lra).
    assert (Qfloor y < i + 1) by (rewrite Zlt_Qlt; lra).
    lia.
  - intros ->.
    pose proof (Qfloor_le y) as F1. pose proof (Qlt_floor y) as F2.
    apply (Qmult_le_compat_r _ _ step) in F1; [|lra].
    apply (Qmult_lt_compat_r _ _ step) in F2; [|assumption].
    rewrite inject_Z_plus in F2. change (inject_Z 1) with 1%Q in F2. split; lra.
Qed.

Lemma exact_band_floor_range (x : Q) :
  (lo <= x)%Q -> (x <= hi)%Q -> 0 <= Qfloor ((x - lo) / step) < Qfloor q + 1.
Proof.
  intros Hl Hu. split.
  - change 0 with (Qfloor 0). apply Qfloor_resp_le.
    apply Qle_shift_div_l; [assumption | lra].
  - assert (Qfloor ((x - lo) / step) <= Qfloor q); [|lia].
    apply Qfloor_resp_le. unfold q.
    apply (Qmult_le_r _ _ step); [assumption|].
    rewrite !Q_scale by assumption. lra.
Qed.

End ExactGrid.

(** ** Counting the tiles whose cell holds a point *)

Lemma flat_map_list_prod {A B C : Type} (g : A -> B -> C) (l : list A) (l' : list B) :
  flat_map (fun x => map (g x) l') l
  = map (fun p => g (fst p) (snd p)) (list_prod l l').
Proof.
  induction l as [|x l IH]; simpl; [reflexivity|].
  now rewrite map_app, map_map, IH.
Qed.

Lemma filter_map_pair {A B : Type} (P : A -> bool) (R : B -> bool) (x : A) (l : list B) :
  filter (fun p => P (fst p) && R (snd p)) (map (fun y => (x, y)) l)
  = if P x then map (fun y => (x, y)) (filter R l) else [].
Proof.
  induction l as [|y l IH]; simpl.
  - now destruct (P x).
  - rewrite IH. destruct (P x); simpl; [|reflexivity].
    now destruct (R y).
Qed.

Lemma filter_list_prod {A B : Type} (P : A -> bool) (R : B -> bool)
    (l : list A) (l' : list B) :
  filter (fun p => P (fst p) && R (snd p)) (list_prod l l')
  = list_prod (filter P l) (filter R l').
Proof.
  induction l as [|x l IH]; simpl; [reflexivity|].
  rewrite filter_app, filter_map_pair, IH.
  now destruct (P x).
Qed.

Lemma filter_none {A : Type} (P : A -> bool) (l : list A) :
  (forall y, In y l -> P y = false) -> filter P l = [].
Proof.
  induction l as [|x l IH]; intros Hall; simpl; [reflexivity|].
  rewrite (Hall x) by now left. apply IH. intros y Hy. apply Hall. now right.
Qed.

Lemma filter_unique {A : Type} (P : A -> bool) (l : list A) (x0 : A) :
  NoDup l -> In x0 l -> P x0 = true ->
  (forall y, In y l -> P y = true -> y = x0) ->
  filter P l = [x0].
Proof.
  intros Hnd. induction Hnd as [|x l Hx Hnd IH]; intros Hin Hp Huniq.
  - contradiction.
  - simpl. destruct Hin as [->|Hin].
    + rewrite Hp. f_equal. apply filter_none. intros y Hy.
      destruct (P y) eqn:Hy'; [|reflexivity].
      assert (y = x0) by (apply Huniq; [now right | assumption]).
      subst y. contradiction.
    + destruct (P x) eqn:Hx'.
      * assert (x = x0) by (apply Huniq; [now left | assumption]).
        subst x. contradiction.
      * apply IH; auto. intros y Hy. apply Huniq. now right.
Qed.

Lemma range_NoDup (n : Z) : NoDup (range n).
Proof.
  unfold range. apply Injective_map_NoDup; [|apply seq_NoDup].
  intros x y. apply Nat2Z.inj.
Qed.

Lemma range_In (n i : Z) : In i (range n) <-> 0 <= i < n.
Proof.
  unfold range. rewrite in_map_iff. split.
  - intros (k & <- & Hk). apply in_seq in Hk. lia.
  - intros Hi. exists (Z.to_nat i). split; [lia|]. apply in_seq. lia.
Qed.

(** A flat index names one grid position. *)
Lemma lat_loop_nth_inv {T : Type} `{PyNumber T}
    (min_lat max_lat min_lon max_lon step : T) (lat_steps lon_steps : Z)
    (k : nat) (r : Rectangle) :
  nth_error (lat_loop min_lat max_lat min_lon max_lon step lat_steps lon_steps []) k
  = Some r ->
  (0 < Z.to_nat lon_steps)%nat /\
  (k / Z.to_nat lon_steps < Z.to_nat lat_steps)%nat /\
  r = bbox_at min_lat max_lat min_lon max_lon step
        (Z.of_nat (k / Z.to_nat lon_steps)) (Z.of_nat (k mod Z.to_nat lon_steps)).
Proof.
  intros Hk.
  assert (Hlen : (k < Z.to_nat lat_steps * Z.to_nat lon_steps)%nat).
  { rewrite <- (lat_loop_length min_lat max_lat min_lon max_lon step).
    apply nth_error_Some. now rewrite Hk. }
  set (c := Z.to_nat lon_steps) in *.
  assert (Hc : (0 < c)%nat) by nia.
  assert (Hi : (k / c < Z.to_nat lat_steps)%nat).
  { apply Nat.Div0.div_lt_upper_bound. nia. }
  assert (Hj : (k mod c < c)%nat) by (apply Nat.mod_upper_bound; lia).
  pose proof (lat_loop_nth min_lat max_lat min_lon max_lon step _ _ _ _ Hi Hj) as Hn.
  fold c in Hn.
  replace (k / c * c + k mod c)%nat with k in Hn
    by (rewrite (Nat.div_mod_eq k c) at 1; lia).
  rewrite Hk in Hn. injection Hn as ->. auto.
Qed.

Lemma exact_divide_area (min_lat max_lat min_lon max_lon step : Q) :
  (min_lat <= max_lat)%Q -> (min_lon <= max_lon)%Q -> (0 < step)%Q ->
  divide_area_to_bboxes min_lat max_lat min_lon max_lon step
  = Ok (lat_loop min_lat max_lat min_lon max_lon step
          (Qfloor ((max_lat - min_lat) / step) + 1)
          (Qfloor ((max_lon - min_lon) / step) + 1) []).
Proof.
  intros Hlat Hlon Hstep. rewrite divide_area_to_bboxes_unfold.
  now rewrite !exact_grid_steps.
Qed.

(** ** Clipping *)

Lemma SFltb_irrefl (x : spec_float) : SFltb x x = false.
Proof.
  unfold SFltb.
  destruct x as [s|s| |s m e]; try destruct s; simpl; try reflexivity;
    rewrite Z.compare_refl, Pos.compare_cont_refl; reflexivity.
Qed.





(** ** Coverage by half-open cells *)

Section ExactCoverage.
Variables min_lat max_lat min_lon max_lon step : Q.
Hypothesis Hlat : (min_lat <= max_lat)%Q.
Hypothesis Hlon : (min_lon <= max_lon)%Q.
Hypothesis Hstep : (0 < step)%Q.

Let rows : Z := Qfloor ((max_lat - min_lat) / step) + 1.
Let cols : Z := Qfloor ((max_lon - min_lon) / step) + 1.
Let tiles : list (@Rectangle Q) :=
  lat_loop min_lat max_lat min_lon max_lon step rows cols [].

Let band (lo x : Q) (i : Z) : bool :=
  Qle_bool (lo + inject_Z i * step) x && Q_lt x (lo + inject_Z i * step + step).

Lemma band_iff (lo x : Q) (i : Z) :
  band lo x i = true <-> i = Qfloor ((x - lo) / step).
Proof.
  unfold band. rewrite andb_true_iff, Qle_bool_iff, Q_lt_iff.
  now apply exact_band_floor.
Qed.

Lemma band_filter (lo hi x : Q) :
  (lo <= hi)%Q -> (lo <= x)%Q -> (x <= hi)%Q ->
  filter (band lo x) (range (Qfloor ((hi - lo) / step) + 1))
  = [Qfloor ((x - lo) / step)].
Proof.
  intros Hr Hl Hu. apply filter_unique.
  - apply range_NoDup.
  - apply range_In. now apply exact_band_floor_range.
  - now apply band_iff.
  - intros i _ Hi. now apply band_iff.
Qed.

(** Exactly one tile's cell holds a point of the rectangle. *)
Lemma exact_cell_unique (lat lon : Q) :
  (min_lat <= lat)%Q -> (lat <= max_lat)%Q ->
  (min_lon <= lon)%Q -> (lon <= max_lon)%Q ->
  filter (in_cell step lat lon) tiles
  = [bbox_at min_lat max_lat min_lon max_lon step
       (Qfloor ((lat - min_lat) / step)) (Qfloor ((lon - min_lon) / step))].
Proof.
  intros Hl1 Hl2 Hl3 Hl4. unfold tiles.
  rewrite lat_loop_spec. cbn [app].
  rewrite (flat_map_list_prod (bbox_at min_lat max_lat min_lon max_lon step)).
  rewrite filter_map_swap.
  rewrite (filter_ext _ (fun p => band min_lat lat (fst p) && band min_lon lon (snd p)))
    by (intros [i j]; reflexivity).
  rewrite filter_list_prod.
  unfold rows, cols. rewrite !band_filter by assumption.
  reflexivity.
Qed.

(** Later rows start where earlier rows end, or beyond. *)
Lemma exact_rows_ordered (i i' j j' : Z) :
  i < i' ->
  (bb_max_lat (bbox_at min_lat max_lat min_lon max_lon step i j)
   <= bb_min_lat (bbox_at min_lat max_lat min_lon max_lon step i' j'))%Q.
Proof.
  intros Hii. unfold bbox_at, bb_max_lat, bb_min_lat.
  cbn [fst snd py_add py_mul py_of_int PyNumber_Q].
  destruct (Q_py_min_spec (min_lat + inject_Z (i + 1) * step) max_lat) as (Hm & _).
  eapply Qle_trans; [exact Hm|]. apply exact_row_mono; [assumption | lia].
Qed.

Lemma exact_cols_ordered (i i' j j' : Z) :
  j < j' ->
  (bb_max_lon (bbox_at min_lat max_lat min_lon max_lon step i j)
   <= bb_min_lon (bbox_at min_lat max_lat min_lon max_lon step i' j'))%Q.
Proof.
  intros Hjj. unfold bbox_at, bb_max_lon, bb_min_lon.
  cbn [fst snd py_add py_mul py_of_int PyNumber_Q].
  destruct (Q_py_min_spec (min_lon + inject_Z (j + 1) * step) max_lon) as (Hm & _).
  eapply Qle_trans; [exact Hm|]. apply exact_row_mono; [assumption | lia].
Qed.

Lemma strictly_inside_iff (lat lon : Q) (r : @Rectangle Q) :
  strictly_inside lat lon r = true <->
  ((bb_min_lat r < lat)%Q /\ (lat < bb_max_lat r)%Q) /\
  ((bb_min_lon r < lon)%Q /\ (lon < bb_max_lon r)%Q).
Proof.
  unfold strictly_inside. cbn [py_lt PyNumber_Q].
  now rewrite !andb_true_iff, !Q_lt_iff.
Qed.

(** Two tiles at different flat indices share no interior point. *)
Lemma exact_interiors_disjoint (k k' : nat) (r r' : @Rectangle Q) (lat lon : Q) :
  k <> k' ->
  nth_error tiles k = Some r -> nth_error tiles k' = Some r' ->
  strictly_inside lat lon r = true -> strictly_inside lat lon r' = true -> False.
Proof.
  intros Hkk Hk Hk' Hin Hin'. unfold tiles in Hk, Hk'.
  apply lat_loop_nth_inv in Hk as (Hc & _ & ->).
  apply lat_loop_nth_inv in Hk' as (_ & _ & ->).
  set (c := Z.to_nat cols) in *.
  apply strictly_inside_iff in Hin as [[A1 A2] [A3 A4]].
  apply strictly_inside_iff in Hin' as [[B1 B2] [B3 B4]].
  assert (Hpos : (k / c <> k' / c \/ k mod c <> k' mod c)%nat).
  { destruct (Nat.eq_dec (k / c) (k' / c)) as [Hd|Hd]; [|now left].
    right. intros Hm. apply Hkk.
    rewrite (Nat.div_mod_eq k c), (Nat.div_mod_eq k' c). congruence. }
  destruct Hpos as [Hd|Hm].
  - destruct (Nat.lt_total (k / c) (k' / c)) as [Hlt|[Heq|Hgt]]; [|contradiction|].
    + pose proof (exact_rows_ordered (Z.of_nat (k / c)) (Z.of_nat (k' / c))
                    (Z.of_nat (k mod c)) (Z.of_nat (k' mod c)) ltac:(lia)).
      lra.
    + pose proof (exact_rows_ordered (Z.of_nat (k' / c)) (Z.of_nat (k / c))
                    (Z.of_nat (k' mod c)) (Z.of_nat (k mod c)) ltac:(lia)).
      lra.
  - destruct (Nat.lt_total (k mod c) (k' mod c)) as [Hlt|[Heq|Hgt]]; [|contradiction|].
    + pose proof (exact_cols_ordered (Z.of_nat (k / c)) (Z.of_nat (k' / c))
                    (Z.of_nat (k mod c)) (Z.of_nat (k' mod c)) ltac:(lia)).
      lra.
    + pose proof (exact_cols_ordered (Z.of_nat (k' / c)) (Z.of_nat (k / c))
                    (Z.of_nat (k' mod c)) (Z.of_nat (k mod c)) ltac:(lia)).
      lra.
Qed.

End ExactCoverage.

(** ** Binary64 rounding: values *)

Lemma pow2_pos (e : Z) : (0 < pow2 e)%Q.
Proof. apply Qpower_0_lt. reflexivity. Qed.

Lemma pow2_plus (a b : Z) : (pow2 (a + b) == pow2 a * pow2 b)%Q.
Proof. apply Qpower_plus. discriminate. Qed.

Lemma pow2_succ (e : Z) : (pow2 (e + 1) == 2 * pow2 e)%Q.
Proof. rewrite pow2_plus. change (pow2 1) with 2%Q. ring. Qed.

Lemma pow2_le (a b : Z) : a <= b -> (pow2 a <= pow2 b)%Q.
Proof. intros Hab. apply Qpower_le_compat_l; [exact Hab | discriminate]. Qed.

Lemma pow2_lt (a b : Z) : a < b -> (pow2 a < pow2 b)%Q.
Proof. intros Hab. apply Qpower_lt_compat_l; [exact Hab | reflexivity]. Qed.

Lemma pow2_Z (n : Z) : 0 <= n -> (pow2 n == inject_Z (2 ^ n))%Q.
Proof. intros Hn. unfold pow2. now rewrite Zpower_Qpower. Qed.

Lemma inject_Z_xO (p : positive) : (inject_Z (Zpos p~0) == 2 * inject_Z (Zpos p))%Q.
Proof. rewrite Pos2Z.inj_xO, inject_Z_mult. reflexivity. Qed.

Lemma inject_Z_xI (p : positive) : (inject_Z (Zpos p~1) == 2 * inject_Z (Zpos p) + 1)%Q.
Proof. rewrite Pos2Z.inj_xI, inject_Z_plus, inject_Z_mult. reflexivity. Qed.

Ltac conj_lra :=
  repeat match goal with |- _ /\ _ => split end; try lia; try lra.

(** One shift to the right keeps the number located, in a unit twice as wide. *)
Lemma shr_1_located (mrs : shr_record) (u x : Q) :
  0 <= shr_m mrs -> (0 < u)%Q -> located mrs u x ->
  located (shr_1 mrs) (2 * u) x /\ 0 <= shr_m (shr_1 mrs).
Proof.
  destruct mrs as [m r s]. unfold located. cbn [shr_m shr_r shr_s].
  intros Hm Hu Hl.
  destruct m as [|p|p]; [| |lia].
  - change (inject_Z 0) with 0%Q in *.
    destruct r, s; cbn [shr_1 orb shr_m shr_r shr_s] in *;
      change (inject_Z 0) with 0%Q; conj_lra.
  - destruct p as [p|p|].
    + pose proof (inject_Z_xI p) as E.
      destruct r, s; cbn [shr_1 orb shr_m shr_r shr_s] in *; rewrite E in Hl;
        conj_lra.
    + pose proof (inject_Z_xO p) as E.
      destruct r, s; cbn [shr_1 orb shr_m shr_r shr_s] in *; rewrite E in Hl;
        conj_lra.
    + change (inject_Z 1) with 1%Q in *.
      destruct r, s; cbn [shr_1 orb shr_m shr_r shr_s] in *;
        change (inject_Z 0) with 0%Q; conj_lra.
Qed.

Lemma located_unit (mrs : shr_record) (u u' x : Q) :
  (u == u')%Q -> located mrs u x -> located mrs u' x.
Proof.
  intros E. unfold located. destruct (shr_r mrs), (shr_s mrs); rewrite E; auto.
Qed.

(** [p] shifts to the right widen the unit by 2^p. *)
Lemma iter_shr_1_located (p : positive) (mrs : shr_record) (u x : Q) :
  0 <= shr_m mrs -> (0 < u)%Q -> located mrs u x ->
  located (SpecFloat.iter_pos shr_1 p mrs) (pow2 (Zpos p) * u) x /\
  0 <= shr_m (SpecFloat.iter_pos shr_1 p mrs).
Proof.
  revert mrs u. induction p as [p IH|p IH|]; intros mrs u Hm Hu Hl; cbn [SpecFloat.iter_pos].
  - destruct (shr_1_located mrs u x Hm Hu Hl) as [L1 M1].
    destruct (IH _ (2 * u)%Q M1 ltac:(lra) L1) as [L2 M2].
    assert (P := pow2_pos (Zpos p)).
    destruct (IH _ (pow2 (Zpos p) * (2 * u))%Q M2 ltac:(nra) L2) as [L3 M3].
    split; [|exact M3]. eapply located_unit; [|exact L3].
    rewrite Pos2Z.inj_xI, pow2_succ.
    replace (2 * Zpos p) with (Zpos p + Zpos p) by lia. rewrite pow2_plus. ring.
  - destruct (IH _ u Hm Hu Hl) as [L2 M2].
    assert (P := pow2_pos (Zpos p)).
    destruct (IH _ (pow2 (Zpos p) * u)%Q M2 ltac:(nra) L2) as [L3 M3].
    split; [|exact M3]. eapply located_unit; [|exact L3].
    rewrite Pos2Z.inj_xO.
    replace (2 * Zpos p) with (Zpos p + Zpos p) by lia. rewrite pow2_plus. ring.
  - destruct (shr_1_located mrs u x Hm Hu Hl) as [L1 M1].
    split; [|exact M1]. eapply located_unit; [|exact L1].
    change (pow2 1) with 2%Q. reflexivity.
Qed.

Lemma scaled_le (a b : Z) (e : Z) :
  (inject_Z a * pow2 e <= inject_Z b * pow2 e)%Q <-> a <= b.
Proof.
  assert (P := pow2_pos e). rewrite Zle_Qle. split; intros Hab.
  - apply Qmult_le_r in Hab; assumption.
  - apply Qmult_le_r; assumption.
Qed.

Lemma scaled_lt (a b : Z) (e : Z) :
  (inject_Z a * pow2 e < inject_Z b * pow2 e)%Q <-> a < b.
Proof.
  assert (P := pow2_pos e). rewrite Zlt_Qlt. split; intros Hab.
  - apply Qmult_lt_r in Hab; assumption.
  - apply Qmult_lt_r; assumption.
Qed.

Lemma scaled_shift (a e p : Z) :
  0 <= p -> (inject_Z (a * 2 ^ p) * pow2 e == inject_Z a * pow2 (e + p))%Q.
Proof.
  intros Hp. rewrite inject_Z_mult, <- (pow2_Z p Hp), pow2_plus. ring.
Qed.

Lemma digits_le (m : positive) (k : Z) :
  0 <= k -> Zpos m < 2 ^ k -> Zpos (digits2_pos m) <= k.
Proof.
  intros Hk Hm. pose proof (digits2_pos_bounds m) as [Hl _].
  assert (H : 2 ^ (Zpos (digits2_pos m) - 1) < 2 ^ k) by lia.
  apply Z.pow_lt_mono_r_iff in H; lia.
Qed.

Lemma digits_ge (m : positive) (k : Z) :
  2 ^ (k - 1) <= Zpos m -> k <= Zpos (digits2_pos m).
Proof.
  intros Hm. pose proof (digits2_pos_bounds m) as [_ Hu].
  destruct (Z.le_gt_cases k 1) as [Hk|Hk]; [lia|].
  assert (H : 2 ^ (k - 1) < 2 ^ Zpos (digits2_pos m)) by lia.
  apply Z.pow_lt_mono_r_iff in H; lia.
Qed.

(** What rounding to nearest even picks, next to where the number lies. *)
Lemma round_nearest_even_bracket (mrs : shr_record) (u x : Q) :
  (0 < u)%Q -> located mrs u x ->
  let m1 := shr_m mrs in
  let m2 := round_nearest_even m1 (loc_of_shr_record mrs) in
  (m2 = m1 \/ m2 = m1 + 1) /\
  (inject_Z m1 * u <= x /\ x < (inject_Z m1 + 1) * u /\
   (2 * inject_Z m2 - 1) * u <= 2 * x /\ 2 * x <= (2 * inject_Z m2 + 1) * u)%Q.
Proof.
  destruct mrs as [m r s]. unfold located. cbn [shr_m shr_r shr_s loc_of_shr_record].
  intros Hu Hl.
  destruct r, s; cbn [round_nearest_even].
  - split; [now right|]. rewrite inject_Z_plus. change (inject_Z 1) with 1%Q. conj_lra.
  - destruct (Z.even m).
    + split; [now left|]. conj_lra.
    + split; [now right|]. rewrite inject_Z_plus. change (inject_Z 1) with 1%Q. conj_lra.
  - split; [now left|]. conj_lra.
  - split; [now left|]. conj_lra.
Qed.

(** The second alignment of [binary_round_aux] does nothing to a mantissa
    that fits. *)
Lemma shr_fexp_fits (m2 e1 : Z) :
  fexp prec emax (Zdigits2 m2 + e1) <= e1 ->
  shr_fexp prec emax m2 e1 loc_Exact
  = ({| shr_m := m2; shr_r := false; shr_s := false |}, e1).
Proof.
  intros Hf. unfold shr_fexp. cbn [shr_record_of_loc]. unfold shr.
  destruct (fexp prec emax (Zdigits2 m2 + e1) - e1) eqn:Hd; try reflexivity. lia.
Qed.

(** A mantissa rounded up to 2^53 is realigned to 2^52, exactly. *)
Lemma shr_fexp_carry (e1 : Z) :
  FloatOps.emin <= e1 ->
  shr_fexp prec emax (2 ^ prec) e1 loc_Exact
  = ({| shr_m := 2 ^ (prec - 1); shr_r := false; shr_s := false |}, e1 + 1).
Proof.
  intros He. unfold shr_fexp. cbn [shr_record_of_loc].
  replace (fexp prec emax (Zdigits2 (2 ^ prec) + e1) - e1) with 1.
  - reflexivity.
  - change (Zdigits2 (2 ^ prec)) with 54. unfold fexp.
    unfold FloatOps.emin, SpecFloat.emin, prec, emax in *. lia.
Qed.

(** Among the numbers of the format, a multiple of the unit nearest to [x] is
    nearest to [x] when the numbers below the unit's binade lie below it. *)
Lemma nearest_multiple (x : Q) (m1 m2 e1 : Z) :
  FloatOps.emin <= e1 ->
  (FloatOps.emin < e1 -> 2 ^ (prec - 1) <= m1) ->
  (m2 = m1 \/ m2 = m1 + 1) ->
  (inject_Z m1 * pow2 e1 <= x)%Q ->
  ((2 * inject_Z m2 - 1) * pow2 e1 <= 2 * x)%Q ->
  (2 * x <= (2 * inject_Z m2 + 1) * pow2 e1)%Q ->
  forall f, in_format f -> nearer x (inject_Z m2 * pow2 e1) f.
Proof.
  intros He Hnorm Hm2 Hlo Hdn Hup f (M & E & HM & HE & Hf).
  assert (U := pow2_pos e1).
  destruct (Z.le_gt_cases e1 E) as [Hge|Hlt].
  - (* f is a multiple of the unit *)
    assert (Hk : (f == inject_Z (M * 2 ^ (E - e1)) * pow2 e1)%Q).
    { rewrite Hf, scaled_shift by lia. now replace (e1 + (E - e1)) with E by lia. }
    set (k := M * 2 ^ (E - e1)) in *. split; intros Hcmp.
    + rewrite Hk in Hcmp. apply scaled_lt in Hcmp.
      assert (Hk1 : (inject_Z k <= inject_Z m2 - 1)%Q).
      { apply Qle_trans with (inject_Z (m2 - 1)); [rewrite <- Zle_Qle; lia|].
        unfold Z.sub. rewrite inject_Z_plus. apply Qle_refl. }
      rewrite Hk. nra.
    + rewrite Hk in Hcmp. apply scaled_lt in Hcmp.
      assert (Hk1 : (inject_Z m2 + 1 <= inject_Z k)%Q).
      { change 1%Q with (inject_Z 1). rewrite <- inject_Z_plus.
        rewrite <- Zle_Qle. lia. }
      rewrite Hk. nra.
  - (* f lies below the binade of the unit *)
    specialize (Hnorm ltac:(lia)).
    assert (Hfb : (f < inject_Z (2 ^ (prec - 1)) * pow2 e1)%Q).
    { rewrite Hf.
      apply Qle_lt_trans with (inject_Z (Z.abs M) * pow2 E)%Q.
      - apply Qmult_le_r; [apply pow2_pos|]. rewrite <- Zle_Qle. lia.
      - apply Qlt_le_trans with (inject_Z (2 ^ prec) * pow2 E)%Q.
        + apply scaled_lt. exact HM.
        + change (2 ^ prec) with (2 ^ (prec - 1) * 2 ^ 1).
          rewrite scaled_shift by lia.
          apply Qmult_le_l; [reflexivity|]. apply pow2_le. lia. }
    assert (Hm1 : (inject_Z (2 ^ (prec - 1)) * pow2 e1 <= inject_Z m1 * pow2 e1)%Q)
      by (now apply scaled_le).
    assert (Hm12 : (inject_Z m2 == inject_Z m1 \/ inject_Z m2 == inject_Z m1 + 1)%Q).
    { destruct Hm2 as [->| ->]; [now left|right].
      rewrite inject_Z_plus. reflexivity. }
    split; intros Hcmp.
    + destruct Hm12 as [Em|Em]; rewrite Em in *; nra.
    + exfalso. destruct Hm12 as [Em|Em]; rewrite Em in *; nra.
Qed.

(** [binary_round_aux] on an exact positive number m * 2^e that needs no
    shift to the left: the result comes from a mantissa below 2^53 at an
    exponent from -1074 on, canonical, whose value is a number of the format
    nearest to m * 2^e. *)
Lemma binary_round_aux_shape (s : bool) (m : positive) (e : Z) :
  e <= fexp prec emax (Zpos (digits2_pos m) + e) ->
  exists m3 e3 : Z,
    binary_round_aux prec emax s (Zpos m) e loc_Exact = SF_of_rounded s m3 e3 /\
    0 <= m3 < 2 ^ prec /\ FloatOps.emin <= e3 /\
    (FloatOps.emin < e3 -> 2 ^ (prec - 1) <= m3) /\
    forall f, in_format f ->
              nearer (inject_Z (Zpos m) * pow2 e) (inject_Z m3 * pow2 e3) f.
Proof.
  intros Hn.
  pose proof (digits2_pos_bounds m) as [Dl Du].
  set (d := Zpos (digits2_pos m)) in *.
  set (x := (inject_Z (Zpos m) * pow2 e)%Q).
  unfold binary_round_aux. unfold shr_fexp at 1. cbn [Zdigits2 shr_record_of_loc].
  fold d. set (e1 := fexp prec emax (d + e)) in *.
  assert (He1 : e1 = Z.max (d + e - 53) (-1074)) by reflexivity.
  destruct (e1 - e) as [|p|p] eqn:Hp; [| |lia]; cbn [shr].
  - (* the number is representable as it is *)
    assert (E0 : e1 = e) by lia.
    cbn [shr_m loc_of_shr_record round_nearest_even].
    rewrite shr_fexp_fits
      by (change (fexp prec emax (Zdigits2 (Zpos m) + e)) with e1; lia).
    cbn [shr_m]. exists (Zpos m), e. split; [reflexivity|].
    assert (Hd : d <= 53) by lia.
    assert (Hm : Zpos m < 2 ^ 53).
    { apply Z.lt_le_trans with (2 ^ d); [exact Du|]. apply Z.pow_le_mono_r; lia. }
    split; [split; [lia | exact Hm]|].
    split; [unfold FloatOps.emin, SpecFloat.emin, prec, emax; lia|].
    split.
    + unfold FloatOps.emin, SpecFloat.emin, prec, emax. intros He.
      assert (d = 53) by lia. replace (53 - 1) with (d - 1) by lia. exact Dl.
    + intros f _. unfold nearer. fold x. split; intros; lra.
  - (* the mantissa is shifted to the right by p *)
    assert (L0 : located {| shr_m := Zpos m; shr_r := false; shr_s := false |} (pow2 e) x)
      by (unfold located; cbn [shr_m shr_r shr_s]; reflexivity).
    assert (M0 : 0 <= shr_m {| shr_m := Zpos m; shr_r := false; shr_s := false |})
      by (cbn; lia).
    destruct (iter_shr_1_located p _ (pow2 e) x M0 (pow2_pos e) L0) as [L1 M1].
    clear M0 L0.
    set (mrs := SpecFloat.iter_pos shr_1 p _) in *.
    assert (Ee : e + Zpos p = e1) by lia. rewrite Ee.
    assert (U1 : (pow2 (Zpos p) * pow2 e == pow2 e1)%Q)
      by (rewrite <- pow2_plus; now replace (Zpos p + e) with e1 by lia).
    apply (located_unit _ _ _ _ U1) in L1.
    destruct (round_nearest_even_bracket mrs (pow2 e1) x (pow2_pos e1) L1)
      as (Hm2 & Hlo & Hhi & Hdn & Hup).
    set (m1 := shr_m mrs) in *.
    set (m2 := round_nearest_even m1 (loc_of_shr_record mrs)) in *.
    (* the integer bracket of the shifted mantissa *)
    assert (Hx : (x == inject_Z (Zpos m) * pow2 e)%Q) by reflexivity.
    assert (B1 : m1 * 2 ^ Zpos p <= Zpos m).
    { apply (scaled_le _ _ e). rewrite scaled_shift by lia.
      replace (e + Zpos p) with e1 by lia. now rewrite <- Hx. }
    assert (B2 : Zpos m < (m1 + 1) * 2 ^ Zpos p).
    { apply (scaled_lt _ _ e). rewrite scaled_shift by lia.
      replace (e + Zpos p) with e1 by lia. rewrite <- Hx, inject_Z_plus. exact Hhi. }
    assert (P0 : 0 < 2 ^ Zpos p) by (apply Z.pow_pos_nonneg; lia).
    destruct (Z.le_gt_cases (-1074) (d + e - 53)) as [Hnorm|Hsub].
    + (* normal range: the shifted mantissa has 53 digits *)
      assert (Ep : Zpos p = d - 53) by lia.
      assert (D1 : 2 ^ (d - 1) = 2 ^ 52 * 2 ^ Zpos p)
        by (rewrite <- Z.pow_add_r by lia; f_equal; lia).
      assert (D2 : 2 ^ d = 2 ^ 53 * 2 ^ Zpos p)
        by (rewrite <- Z.pow_add_r by lia; f_equal; lia).
      assert (N1 : 2 ^ 52 <= m1) by nia.
      assert (N2 : m1 < 2 ^ 53) by nia.
      assert (Near : forall f, in_format f -> nearer x (inject_Z m2 * pow2 e1) f).
      { apply (nearest_multiple x m1 m2 e1); auto.
        unfold FloatOps.emin, SpecFloat.emin, prec, emax; lia. }
      destruct (Z.eq_dec m2 (2 ^ 53)) as [Ecarry|Hnc].
      * (* rounded up to the next binade *)
        rewrite Ecarry. change (2 ^ 53) with (2 ^ prec).
        rewrite shr_fexp_carry
          by (unfold FloatOps.emin, SpecFloat.emin, prec, emax; lia).
        cbn [shr_m]. exists (2 ^ (prec - 1)), (e1 + 1).
        split; [reflexivity|]. split; [split; reflexivity || lia|].
        split; [unfold FloatOps.emin, SpecFloat.emin, prec, emax; lia|].
        split; [lia|].
        intros f Hf. specialize (Near f Hf).
        assert (Ev : (inject_Z (2 ^ (prec - 1)) * pow2 (e1 + 1)
                      == inject_Z m2 * pow2 e1)%Q).
        { rewrite Ecarry, pow2_succ. change (2 ^ 53) with (2 ^ (prec - 1) * 2).
          rewrite inject_Z_mult. change (inject_Z 2) with 2%Q. ring. }
        unfold nearer in *. rewrite Ev. exact Near.
      * assert (N3 : 2 ^ 52 <= m2 < 2 ^ 53) by lia.
        assert (Dm2 : Zdigits2 m2 = 53).
        { destruct m2 as [|q|q]; [lia| |lia]. cbn [Zdigits2].
          apply Z.le_antisymm; [apply digits_le; lia | apply digits_ge; lia]. }
        rewrite shr_fexp_fits
          by (rewrite Dm2; unfold fexp, SpecFloat.emin, prec, emax; lia).
        cbn [shr_m]. exists m2, e1.
        split; [reflexivity|]. split; [change (2 ^ prec) with (2 ^ 53); lia|].
        split; [unfold FloatOps.emin, SpecFloat.emin, prec, emax; lia|].
        split; [change (2 ^ (prec - 1)) with (2 ^ 52); lia|].
        exact Near.
    + (* subnormal range: the unit is 2^-1074 *)
      assert (E1 : e1 = -1074) by lia.
      assert (D2 : 2 ^ d <= 2 ^ 52 * 2 ^ Zpos p).
      { rewrite <- Z.pow_add_r by lia. apply Z.pow_le_mono_r; lia. }
      assert (N2 : m1 < 2 ^ 52) by nia.
      assert (N3 : 0 <= m2 <= 2 ^ 52) by (unfold m1 in *; lia).
      assert (Near : forall f, in_format f -> nearer x (inject_Z m2 * pow2 e1) f).
      { apply (nearest_multiple x m1 m2 e1); auto;
          unfold FloatOps.emin, SpecFloat.emin, prec, emax; lia. }
      assert (Dm2 : Zdigits2 m2 <= 53).
      { destruct m2 as [|q|q]; [cbn; lia| |lia]. cbn [Zdigits2].
        apply digits_le; lia. }
      assert (Dm0 : 0 <= Zdigits2 m2) by (destruct m2; cbn; lia).
      rewrite shr_fexp_fits
        by (unfold fexp, SpecFloat.emin, prec, emax; lia).
      cbn [shr_m]. exists m2, e1.
      split; [reflexivity|]. split; [change (2 ^ prec) with (2 ^ 53); lia|].
      split; [unfold FloatOps.emin, SpecFloat.emin, prec, emax; lia|].
      split; [unfold FloatOps.emin, SpecFloat.emin, prec, emax; lia|].
      exact Near.
Qed.

Lemma in_format_opp (f : Q) : in_format f -> in_format (- f).
Proof.
  intros (M & E & HM & HE & Hf). exists (- M), E.
  split; [lia|]. split; [exact HE|].
  rewrite Hf, inject_Z_opp. ring.
Qed.

Lemma in_format_0 : in_format 0.
Proof.
  exists 0, FloatOps.emin. split; [reflexivity|]. split; [lia|].
  change (inject_Z 0) with 0%Q. ring.
Qed.

Lemma nearest_opp (x v : Q) : nearest x v -> nearest (- x) (- v).
Proof.
  intros [Hv Hn]. split; [now apply in_format_opp|].
  intros f Hf. specialize (Hn (- f)%Q (in_format_opp f Hf)).
  unfold nearer in *. destruct Hn as [H1 H2]. split; intros Hc.
  - assert (H := H2 ltac:(lra)). lra.
  - assert (H := H1 ltac:(lra)). lra.
Qed.

Lemma nearest_ext (x x' v v' : Q) :
  (x == x')%Q -> (v == v')%Q -> nearest x v -> nearest x' v'.
Proof.
  intros Ex Ev [(M & E & HM & HE & Hv) Hn]. split.
  - exists M, E. rewrite <- Ev. auto.
  - intros f Hf. specialize (Hn f Hf). unfold nearer in *.
    rewrite <- Ex, <- Ev. exact Hn.
Qed.

(** A number of the format is nearest to itself. *)
Lemma nearest_self (v : Q) : in_format v -> nearest v v.
Proof. intros Hv. split; [exact Hv|]. intros f _. unfold nearer. lra. Qed.

Lemma bounded_of_digits (p : positive) (e3 : Z) :
  Zpos p < 2 ^ prec -> FloatOps.emin <= e3 ->
  (FloatOps.emin < e3 -> 2 ^ (prec - 1) <= Zpos p) ->
  e3 <= emax - prec ->
  bounded prec emax p e3 = true.
Proof.
  intros Hp He Hn Hmax. unfold bounded, canonical_mantissa.
  apply andb_true_intro. split; [|now apply Z.leb_le].
  apply Z.eqb_eq. unfold fexp.
  assert (D1 : Zpos (digits2_pos p) <= prec) by (apply digits_le; [discriminate | exact Hp]).
  unfold FloatOps.emin, SpecFloat.emin in *.
  destruct (Z.eq_dec e3 (3 - emax - prec)) as [->|Hne]; [lia|].
  assert (D2 : prec <= Zpos (digits2_pos p)) by (apply digits_ge, Hn; lia).
  lia.
Qed.

Lemma bounded_in_format (s : bool) (m : positive) (e : Z) :
  bounded prec emax m e = true -> in_format (SF2Q (S754_finite s m e)).
Proof.
  intros Hb. destruct (bounded_digits m e Hb) as (He & Hd & _).
  exists (cond_Zopp s (Zpos m)), e. split; [|split; [exact He | reflexivity]].
  pose proof (digits2_pos_bounds m) as [_ Hu].
  assert (2 ^ Zpos (digits2_pos m) <= 2 ^ prec) by (apply Z.pow_le_mono_r; lia).
  destruct s; cbn [cond_Zopp]; lia.
Qed.

(** The magnitude of a finite float is below 2^1024. *)
Lemma bounded_below_overflow (m : positive) (e : Z) :
  bounded prec emax m e = true -> (inject_Z (Zpos m) * pow2 e < pow2 emax)%Q.
Proof.
  intros Hb. destruct (bounded_digits m e Hb) as (He & Hd & _).
  apply andb_prop in Hb as [_ Hmax]. apply Z.leb_le in Hmax.
  pose proof (digits2_pos_bounds m) as [_ Hu].
  assert (Hm : Zpos m < 2 ^ prec).
  { apply Z.lt_le_trans with (2 ^ Zpos (digits2_pos m)); [exact Hu|].
    apply Z.pow_le_mono_r; lia. }
  apply Qlt_le_trans with (inject_Z (2 ^ prec) * pow2 e)%Q.
  - now apply scaled_lt.
  - rewrite <- (pow2_Z prec) by discriminate. rewrite <- pow2_plus.
    apply pow2_le. lia.
Qed.

(** From the mantissa and exponent that [binary_round_aux] ends with to a
    correct rounding, for either sign. *)
Lemma SF_of_rounded_rounds (s : bool) (m3 e3 : Z) (x : Q) :
  0 <= m3 < 2 ^ prec -> FloatOps.emin <= e3 ->
  (FloatOps.emin < e3 -> 2 ^ (prec - 1) <= m3) ->
  (forall f, in_format f -> nearer x (inject_Z m3 * pow2 e3) f) ->
  rounds (if s then - x else x)%Q (SF_of_rounded s m3 e3).
Proof.
  intros Hm He Hn Hnear.
  assert (Hfmt : in_format (inject_Z m3 * pow2 e3)).
  { exists m3, e3. split; [lia|]. split; [exact He | reflexivity]. }
  assert (N : nearest x (inject_Z m3 * pow2 e3)) by (split; assumption).
  destruct m3 as [|p|p]; [| |lia]; cbn [SF_of_rounded rounds].
  - assert (N0 : nearest x 0)
      by (apply (nearest_ext x x _ 0 (Qeq_refl x)) in N;
          [exact N | change (inject_Z 0) with 0%Q; ring]).
    destruct s; [|exact N0].
    apply (nearest_ext (- x) (- x) (- 0) 0); [reflexivity | ring |].
    now apply nearest_opp.
  - destruct (Z.leb_spec e3 (emax - prec)) as [Hle|Hgt]; cbn [rounds].
    + split; [apply bounded_of_digits; auto; lia|].
      destruct s; cbn [SF2Q cond_Zopp]; [|exact N].
      apply (nearest_ext (- x) (- x) (- (inject_Z (Zpos p) * pow2 e3))); [reflexivity | |].
      * change (Z.neg p) with (- Zpos p). rewrite inject_Z_opp. ring.
      * now apply nearest_opp.
    + assert (Hbig : (pow2 emax <= inject_Z (Zpos p) * pow2 e3)%Q).
      { specialize (Hn ltac:(unfold FloatOps.emin, SpecFloat.emin, prec, emax in *; lia)).
        apply Qle_trans with (inject_Z (2 ^ (prec - 1)) * pow2 e3)%Q.
        - rewrite <- (pow2_Z (prec - 1)) by discriminate. rewrite <- pow2_plus.
          apply pow2_le. unfold prec, emax in *. lia.
        - now apply scaled_le. }
      destruct s.
      * exists (- (inject_Z (Zpos p) * pow2 e3))%Q. split; [now apply nearest_opp | lra].
      * exists (inject_Z (Zpos p) * pow2 e3)%Q. split; [exact N | exact Hbig].
Qed.

Lemma digits_iter_xO (m d : positive) :
  Zpos (digits2_pos (Pos.iter xO m d)) = Zpos (digits2_pos m) + Zpos d.
Proof.
  induction d as [|d IH] using Pos.peano_ind.
  - cbn. lia.
  - rewrite Pos.iter_succ. cbn [digits2_pos]. rewrite Pos2Z.inj_succ, IH. lia.
Qed.

(** [binary_round] rounds the number (-1)^s * m * 2^e correctly. *)
Lemma binary_round_rounds (s : bool) (m : positive) (e : Z) :
  rounds (inject_Z (cond_Zopp s (Zpos m)) * pow2 e) (binary_round prec emax s m e).
Proof.
  unfold binary_round.
  set (e0 := fexp prec emax (Zpos (digits2_pos m) + e)).
  assert (Hal : exists mz ez,
             shl_align m e e0 = (mz, ez) /\
             (inject_Z (Zpos mz) * pow2 ez == inject_Z (Zpos m) * pow2 e)%Q /\
             ez <= fexp prec emax (Zpos (digits2_pos mz) + ez)).
  { unfold shl_align. destruct (e0 - e) as [|d|d] eqn:Hd.
    - exists m, e. split; [reflexivity|]. split; [reflexivity|]. fold e0. lia.
    - exists m, e. split; [reflexivity|]. split; [reflexivity|]. fold e0. lia.
    - exists (Pos.iter xO m d), e0. split; [reflexivity|]. split.
      + rewrite iter_xO_value, scaled_shift by lia.
        now replace (e0 + Zpos d) with e by lia.
      + rewrite digits_iter_xO.
        replace (Zpos (digits2_pos m) + Zpos d + e0) with (Zpos (digits2_pos m) + e) by lia.
        fold e0. lia. }
  destruct Hal as (mz & ez & -> & Hv & Hn).
  destruct (binary_round_aux_shape s mz ez Hn) as (m3 & e3 & -> & Hm & He & Hc & Hnear).
  assert (R := SF_of_rounded_rounds s m3 e3 _ Hm He Hc Hnear).
  assert (Ex : ((if s then - (inject_Z (Zpos mz) * pow2 ez) else inject_Z (Zpos mz) * pow2 ez)
                == inject_Z (cond_Zopp s (Zpos m)) * pow2 e)%Q).
  { destruct s; cbn [cond_Zopp]; rewrite Hv; [|reflexivity].
    change (Z.neg m) with (- Zpos m). rewrite inject_Z_opp. ring. }
  revert R. generalize (SF_of_rounded s m3 e3). intros r R.
  destruct r as [sr|sr| |sr mr er]; cbn [rounds] in *.
  - eapply nearest_ext; [exact Ex | reflexivity | exact R].
  - destruct R as (v & Nv & Hv'). exists v. split; [|exact Hv'].
    eapply nearest_ext; [exact Ex | reflexivity | exact Nv].
  - exact R.
  - destruct R as [Hb Nv]. split; [exact Hb|].
    eapply nearest_ext; [exact Ex | reflexivity | exact Nv].
Qed.

(** So does [binary_normalize], zero included. *)
Lemma binary_normalize_rounds (z e : Z) :
  rounds (inject_Z z * pow2 e) (binary_normalize prec emax z e false).
Proof.
  destruct z as [|p|p]; cbn [binary_normalize].
  - cbn [rounds]. apply (nearest_ext 0 _ 0 0); [|reflexivity|apply nearest_self, in_format_0].
    change (inject_Z 0) with 0%Q. ring.
  - apply (binary_round_rounds false p e).
  - apply (binary_round_rounds true p e).
Qed.

Lemma rounds_valid (x : Q) (r : spec_float) : rounds x r -> valid_binary r = true.
Proof. destruct r; cbn; auto. now intros [Hb _]. Qed.

Lemma rounds_not_nan (x : Q) : ~ rounds x S754_nan.
Proof. auto. Qed.

(** ** Binary64 order: comparison against values *)

(** On canonical representations the order of the values is the order of
    the exponents, then of the mantissas. *)
Lemma bounded_value_lt (m1 m2 : positive) (e1 e2 : Z) :
  bounded prec emax m1 e1 = true -> bounded prec emax m2 e2 = true ->
  (inject_Z (Zpos m1) * pow2 e1 < inject_Z (Zpos m2) * pow2 e2)%Q
  <-> (e1 < e2 \/ (e1 = e2 /\ Zpos m1 < Zpos m2)).
Proof.
  intros H1 H2.
  assert (Up : forall m m' e e', bounded prec emax m e = true ->
                                 bounded prec emax m' e' = true -> e < e' ->
                 (inject_Z (Zpos m) * pow2 e < inject_Z (Zpos m') * pow2 e')%Q).
  { intros m m' e e' B B' Hlt.
    pose proof (bounded_exponent_lt m m' e e' B B' Hlt) as Hm.
    apply (scaled_lt _ _ e) in Hm. rewrite scaled_shift in Hm by lia.
    now replace (e + (e' - e)) with e' in Hm by lia. }
  split.
  - intros Hv. destruct (Z.lt_trichotomy e1 e2) as [Hlt|[Heq|Hgt]].
    + now left.
    + right. split; [exact Heq|]. subst e2. now apply scaled_lt in Hv.
    + pose proof (Up m2 m1 e2 e1 H2 H1 Hgt). lra.
  - intros [Hlt|[-> Hm]]; [now apply Up | now apply scaled_lt].
Qed.

(** Canonical representations are unique. *)
Lemma bounded_value_eq (m1 m2 : positive) (e1 e2 : Z) :
  bounded prec emax m1 e1 = true -> bounded prec emax m2 e2 = true ->
  (inject_Z (Zpos m1) * pow2 e1 == inject_Z (Zpos m2) * pow2 e2)%Q ->
  m1 = m2 /\ e1 = e2.
Proof.
  intros H1 H2 Hv.
  pose proof (bounded_value_lt m1 m2 e1 e2 H1 H2) as [_ L12].
  pose proof (bounded_value_lt m2 m1 e2 e1 H2 H1) as [_ L21].
  destruct (Z.lt_trichotomy e1 e2) as [Hlt|[Heq|Hgt]].
  - specialize (L12 (or_introl Hlt)). lra.
  - subst e2. destruct (Z.lt_trichotomy (Zpos m1) (Zpos m2)) as [Hm|[Hm|Hm]].
    + specialize (L12 (or_intror (conj eq_refl Hm))). lra.
    + split; [congruence | reflexivity].
    + specialize (L21 (or_intror (conj eq_refl Hm))). lra.
  - specialize (L21 (or_introl Hgt)). lra.
Qed.

Lemma finite_value_pos (m : positive) (e : Z) : (0 < inject_Z (Zpos m) * pow2 e)%Q.
Proof.
  assert (P := pow2_pos e).
  assert (M : (0 < inject_Z (Zpos m))%Q) by (change 0%Q with (inject_Z 0); now rewrite <- Zlt_Qlt).
  nra.
Qed.

Lemma finite_value_neg (m : positive) (e : Z) : (inject_Z (Z.neg m) * pow2 e < 0)%Q.
Proof.
  assert (P := finite_value_pos m e).
  change (Z.neg m) with (- Zpos m). rewrite inject_Z_opp. lra.
Qed.

Lemma finite_value_neg_opp (m : positive) (e : Z) :
  (inject_Z (Z.neg m) * pow2 e == - (inject_Z (Zpos m) * pow2 e))%Q.
Proof. change (Z.neg m) with (- Zpos m). rewrite inject_Z_opp. ring. Qed.

Ltac order_case :=
  split; intros ?H; try discriminate; try contradiction; try exact I;
  try reflexivity; try lra.

(** The comparison of the hardware, on valid floats, is the order of the
    values. *)
Lemma SFltb_sf_lt (x y : spec_float) :
  valid_binary x = true -> valid_binary y = true ->
  (SFltb x y = true <-> sf_lt x y).
Proof.
  intros Vx Vy. unfold SFltb.
  destruct x as [sx|sx| |sx mx ex], y as [sy|sy| |sy my ey];
    cbn [SFcompare sf_lt SF2Q valid_binary] in *.
  - split; [discriminate | lra].
  - destruct sy; order_case.
  - order_case.
  - destruct sy; cbn [cond_Zopp Z.opp];
      [pose proof (finite_value_neg my ey) | pose proof (finite_value_pos my ey)];
      order_case.
  - destruct sx; order_case.
  - destruct sx, sy; order_case.
  - destruct sx; order_case.
  - destruct sx; order_case.
  - order_case.
  - order_case.
  - order_case.
  - order_case.
  - destruct sx; cbn [cond_Zopp Z.opp];
      [pose proof (finite_value_neg mx ex) | pose proof (finite_value_pos mx ex)];
      order_case.
  - destruct sy; order_case.
  - order_case.
  - (* finite against finite *)
    pose proof (finite_value_pos mx ex) as Px. pose proof (finite_value_pos my ey) as Py.
    pose proof (finite_value_neg_opp mx ex) as Nx.
    pose proof (finite_value_neg_opp my ey) as Ny.
    pose proof (bounded_value_lt mx my ex ey Vx Vy) as Lxy.
    pose proof (bounded_value_lt my mx ey ex Vy Vx) as Lyx.
    destruct sx, sy; cbn [cond_Zopp Z.opp].
    + (* both negative *)
      rewrite Nx, Ny.
      destruct (Z.compare_spec ex ey) as [Heq|Hlt|Hgt].
      * subst ey. change (Pos.compare_cont Eq mx my) with (Pos.compare mx my).
        destruct (Pos.compare_spec mx my) as [Hm|Hm|Hm]; cbn [CompOpp].
        -- subst my. split; [discriminate | lra].
        -- split; [discriminate|]. intros Hv.
           assert (L : (inject_Z (Zpos my) * pow2 ex < inject_Z (Zpos mx) * pow2 ex)%Q) by lra.
           apply Lyx in L. lia.
        -- split; [intros _|reflexivity].
           assert (L : (inject_Z (Zpos my) * pow2 ex < inject_Z (Zpos mx) * pow2 ex)%Q)
             by (apply Lyx; right; split; [reflexivity | lia]).
           lra.
      * split; [discriminate|]. intros Hv.
        assert (L : (inject_Z (Zpos my) * pow2 ey < inject_Z (Zpos mx) * pow2 ex)%Q) by lra.
        apply Lyx in L. lia.
      * split; [intros _|reflexivity].
        assert (L : (inject_Z (Zpos my) * pow2 ey < inject_Z (Zpos mx) * pow2 ex)%Q)
          by (apply Lyx; left; lia).
        lra.
    + rewrite Nx. split; [intros _; lra | reflexivity].
    + rewrite Ny. split; [discriminate | lra].
    + (* both positive *)
      destruct (Z.compare_spec ex ey) as [Heq|Hlt|Hgt].
      * subst ey. change (Pos.compare_cont Eq mx my) with (Pos.compare mx my).
        destruct (Pos.compare_spec mx my) as [Hm|Hm|Hm].
        -- subst my. split; [discriminate | lra].
        -- split; [intros _|reflexivity]. apply Lxy. right. split; [reflexivity | lia].
        -- split; [discriminate|]. intros Hv. apply Lxy in Hv. lia.
      * split; [intros _|reflexivity]. apply Lxy. now left.
      * split; [discriminate|]. intros Hv. apply Lxy in Hv. lia.
Qed.

Lemma sf_lt_trans (x y z : spec_float) : sf_lt x y -> sf_lt y z -> sf_lt x z.
Proof.
  destruct x as [sx|[|]| |sx mx ex], y as [sy|[|]| |sy my ey], z as [sz|[|]| |sz mz ez];
    cbn [sf_lt SF2Q]; intros H1 H2; try contradiction; try exact I; lra.
Qed.

Lemma sf_le_not_lt (x y : spec_float) : sf_le x y -> sf_lt y x -> False.
Proof.
  destruct x as [sx|[|]| |sx mx ex], y as [sy|[|]| |sy my ey];
    cbn [sf_le sf_lt SF2Q]; intros H1 H2; try contradiction; lra.
Qed.

Lemma sf_le_refl (x : spec_float) : x <> S754_nan -> sf_le x x.
Proof.
  destruct x as [sx|[|]| |sx mx ex]; cbn [sf_le SF2Q]; intros H;
    try exact I; try lra. congruence.
Qed.

(** ** Binary64 rounding is monotone *)

Lemma nearest_mono (x y v w : Q) :
  nearest x v -> nearest y w -> (x < y)%Q -> (v <= w)%Q.
Proof.
  intros [Fv Nv] [Fw Nw] Hxy.
  destruct (Qlt_le_dec w v) as [Hlt|Hle]; [|exact Hle].
  destruct (Nv w Fw) as [H1 _]. destruct (Nw v Fv) as [_ H2].
  specialize (H1 Hlt). specialize (H2 Hlt). lra.
Qed.

(** The number that a rounding stands for. *)
Lemma rounds_value (x : Q) (r : spec_float) :
  rounds x r ->
  exists v, nearest x v /\
            match r with
            | S754_zero _ => (v == 0)%Q
            | S754_finite _ _ _ => (v == SF2Q r /\ - pow2 emax < v /\ v < pow2 emax)%Q
            | S754_infinity s => (if s then v <= - pow2 emax else pow2 emax <= v)%Q
            | S754_nan => False
            end.
Proof.
  destruct r as [s|s| |s m e]; cbn [rounds].
  - intros N. exists 0%Q. split; [exact N | reflexivity].
  - intros (v & N & Hv). exists v. auto.
  - contradiction.
  - intros [Hb N]. exists (SF2Q (S754_finite s m e)). split; [exact N|].
    split; [reflexivity|].
    pose proof (bounded_below_overflow m e Hb) as Hlt.
    pose proof (finite_value_pos m e) as Hpos.
    pose proof (finite_value_neg_opp m e) as Hneg.
    destruct s; cbn [SF2Q cond_Zopp Z.opp]; lra.
Qed.

(** Correct roundings of two numbers are ordered as the numbers are. *)
Lemma rounds_mono (x y : Q) (r r' : spec_float) :
  rounds x r -> rounds y r' -> (x < y)%Q -> sf_le r r'.
Proof.
  intros Rx Ry Hxy.
  destruct (rounds_value x r Rx) as (v & Nv & Sv).
  destruct (rounds_value y r' Ry) as (w & Nw & Sw).
  pose proof (nearest_mono x y v w Nv Nw Hxy) as Hvw.
  pose proof (pow2_pos emax) as P.
  destruct r as [s|[|]| |s m e], r' as [s'|[|]| |s' m' e'];
    cbn [sf_le] in *; try contradiction; try exact I;
    try change (SF2Q (S754_zero s)) with 0%Q;
    try change (SF2Q (S754_zero s')) with 0%Q; lra.
Qed.

(** ** Binary64 operations are monotone *)

Lemma SFltb_zero_pos (x : spec_float) :
  SFltb (S754_zero false) x = true -> sf_pos x.
Proof. destruct x as [s|[|]| |[|] m e]; cbn; auto; discriminate. Qed.

Lemma rounds_nonneg (x : Q) (r : spec_float) :
  rounds x r -> sf_sign_ok r -> sf_nonneg r.
Proof. destruct r as [s|[|]| |[|] m e]; cbn; auto. Qed.

(** A finite float is the correct rounding of its own value. *)
Lemma rounds_self (s : bool) (m : positive) (e : Z) :
  bounded prec emax m e = true ->
  rounds (SF2Q (S754_finite s m e)) (S754_finite s m e).
Proof.
  intros Hb. cbn [rounds]. split; [exact Hb|].
  apply nearest_self. now apply bounded_in_format.
Qed.

(** *** Conversion of an int *)

Lemma float_of_int_rounds (k : Z) :
  Prim2SF (float_of_int k) = binary_normalize prec emax k 0 false /\
  rounds (inject_Z k) (Prim2SF (float_of_int k)).
Proof.
  assert (R : rounds (inject_Z k) (binary_normalize prec emax k 0 false)).
  { pose proof (binary_normalize_rounds k 0) as R.
    destruct (binary_normalize prec emax k 0 false) as [s|s| |s m e]; cbn [rounds] in *.
    - eapply nearest_ext; [|reflexivity|exact R]. change (pow2 0) with 1%Q. ring.
    - destruct R as (v & N & Hv). exists v. split; [|exact Hv].
      eapply nearest_ext; [|reflexivity|exact N]. change (pow2 0) with 1%Q. ring.
    - exact R.
    - destruct R as [Hb N]. split; [exact Hb|].
      eapply nearest_ext; [|reflexivity|exact N]. change (pow2 0) with 1%Q. ring. }
  unfold float_of_int. rewrite Prim2SF_SF2Prim by (eapply rounds_valid; exact R).
  split; [reflexivity | exact R].
Qed.

(** The conversion of a larger int is not a smaller float. *)
Lemma float_of_int_mono (k k' : Z) :
  0 <= k -> k < k' ->
  sf_le (Prim2SF (float_of_int k)) (Prim2SF (float_of_int k')) /\
  sf_nonneg (Prim2SF (float_of_int k)) /\ sf_nonneg (Prim2SF (float_of_int k')).
Proof.
  intros Hk Hlt.
  destruct (float_of_int_rounds k) as [E R]. destruct (float_of_int_rounds k') as [E' R'].
  split; [|split].
  - apply (rounds_mono (inject_Z k) (inject_Z k')); auto. now rewrite <- Zlt_Qlt.
  - apply (rounds_nonneg _ _ R). rewrite E. apply binary_normalize_sign_ok. lia.
  - apply (rounds_nonneg _ _ R'). rewrite E'. apply binary_normalize_sign_ok. lia.
Qed.

(** *** Multiplication by a positive float *)

(** The exact product of two canonical mantissas is never shifted to the
    left by the rounding. *)
Lemma mul_no_left_shift (mx my : positive) (ex ey : Z) :
  bounded prec emax mx ex = true -> bounded prec emax my ey = true ->
  ex + ey <= fexp prec emax (Zpos (digits2_pos (mx * my)) + (ex + ey)).
Proof.
  intros Bx By.
  destruct (bounded_digits mx ex Bx) as (Hex & Hdx & Hnx).
  destruct (bounded_digits my ey By) as (Hey & Hdy & Hny).
  pose proof (digits2_pos_bounds mx) as [Lx _].
  pose proof (digits2_pos_bounds my) as [Ly _].
  assert (Hd : Zpos (digits2_pos mx) + Zpos (digits2_pos my) - 1
               <= Zpos (digits2_pos (mx * my))).
  { apply digits_ge. rewrite Pos2Z.inj_mul.
    replace (Zpos (digits2_pos mx) + Zpos (digits2_pos my) - 1 - 1)
      with ((Zpos (digits2_pos mx) - 1) + (Zpos (digits2_pos my) - 1)) by lia.
    rewrite Z.pow_add_r by lia.
    apply Z.mul_le_mono_nonneg; try assumption; apply Z.pow_nonneg; lia. }
  unfold fexp. unfold FloatOps.emin, SpecFloat.emin, prec, emax in *.
  destruct (Z.eq_dec ex (3 - 1024 - 53)) as [Ex|Ex];
    destruct (Z.eq_dec ey (3 - 1024 - 53)) as [Ey|Ey]; lia.
Qed.

Lemma SFmul_finite_rounds (mx my : positive) (ex ey : Z) :
  bounded prec emax mx ex = true -> bounded prec emax my ey = true ->
  rounds (SF2Q (S754_finite false mx ex) * SF2Q (S754_finite false my ey))
         (SF64mul (S754_finite false mx ex) (S754_finite false my ey)) /\
  sf_nonneg (SF64mul (S754_finite false mx ex) (S754_finite false my ey)).
Proof.
  intros Bx By. unfold SF64mul. cbn [SFmul xorb].
  pose proof (mul_no_left_shift mx my ex ey Bx By) as Hn.
  pose proof (binary_round_aux_sign_ok (Zpos (mx * my)) (ex + ey) loc_Exact) as Hs.
  destruct (binary_round_aux_shape false (mx * my) (ex + ey) Hn)
    as (m3 & e3 & E & Hm & He & Hc & Hnear).
  rewrite E in *.
  assert (R := SF_of_rounded_rounds false m3 e3 _ Hm He Hc Hnear). cbv iota in R.
  assert (Ev : (inject_Z (Zpos (mx * my)) * pow2 (ex + ey)
                == SF2Q (S754_finite false mx ex) * SF2Q (S754_finite false my ey))%Q).
  { cbn [SF2Q cond_Zopp]. rewrite Pos2Z.inj_mul, inject_Z_mult, pow2_plus. ring. }
  assert (R' : rounds (SF2Q (S754_finite false mx ex) * SF2Q (S754_finite false my ey))
                      (SF_of_rounded false m3 e3)).
  { revert R. generalize (SF_of_rounded false m3 e3). intros r R.
    destruct r as [sr|sr| |sr mr er]; cbn [rounds] in *.
    - eapply nearest_ext; [exact Ev | reflexivity | exact R].
    - destruct R as (v & Nv & Hv'). exists v. split; [|exact Hv'].
      eapply nearest_ext; [exact Ev | reflexivity | exact Nv].
    - exact R.
    - destruct R as [Hb Nv]. split; [exact Hb|].
      eapply nearest_ext; [exact Ev | reflexivity | exact Nv]. }
  split; [exact R' | now apply (rounds_nonneg _ _ R')].
Qed.

(** Multiplying two non-negative floats, the smaller first, by one positive
    float keeps their order, unless a product is no number (0 * inf). *)
Lemma SFmul_mono (x y s : spec_float) :
  valid_binary x = true -> valid_binary y = true -> valid_binary s = true ->
  sf_nonneg x -> sf_nonneg y -> sf_pos s -> sf_le x y ->
  SF64mul x s = S754_nan \/ SF64mul y s = S754_nan \/
  (sf_le (SF64mul x s) (SF64mul y s) /\
   sf_nonneg (SF64mul x s) /\ sf_nonneg (SF64mul y s)).
Proof.
  intros Vx Vy Vs Nx Ny Ps Hle.
  destruct s as [ss|[|]| |[|] ms es]; cbn [sf_pos] in Ps; try contradiction.
  - (* an infinite factor *)
    assert (Hy : SF64mul y (S754_infinity false) = S754_nan \/
                 SF64mul y (S754_infinity false) = S754_infinity false).
    { destruct y as [sy|[|]| |[|] my ey]; cbn [sf_nonneg] in Ny; try contradiction;
        cbn; auto. }
    destruct x as [sx|[|]| |[|] mx ex]; cbn [sf_nonneg] in Nx; try contradiction.
    + now left.
    + destruct Hy as [Hy|Hy]; [right; now left|]. right. right. rewrite Hy. cbn. auto.
    + destruct Hy as [Hy|Hy]; [right; now left|]. right. right. rewrite Hy. cbn. auto.
  - (* a finite factor *)
    cbn [valid_binary] in Vs. right. right.
    destruct x as [sx|[|]| |[|] mx ex]; cbn [sf_nonneg] in Nx; try contradiction.
    + (* x is zero *)
      destruct y as [sy|[|]| |[|] my ey]; cbn [sf_nonneg] in Ny; try contradiction.
      * cbn. repeat split; auto; lra.
      * cbn. auto.
      * destruct (SFmul_finite_rounds my ms ey es Vy Vs) as [R N].
        split; [|split; [exact I | exact N]].
        change (SF64mul (S754_zero sx) (S754_finite false ms es))
          with (S754_zero (xorb sx false)).
        assert (P := finite_value_pos my ey). assert (P' := finite_value_pos ms es).
        assert (Hx : (0 < SF2Q (S754_finite false my ey) * SF2Q (S754_finite false ms es))%Q)
          by (cbn [SF2Q cond_Zopp]; nra).
        assert (R0 : rounds 0 (S754_zero (xorb sx false)))
          by (cbn [rounds]; apply nearest_self, in_format_0).
        exact (rounds_mono _ _ _ _ R0 R Hx).
    + (* x is infinite *)
      destruct y as [sy|[|]| |[|] my ey]; cbn [sf_nonneg sf_le] in *; try contradiction.
      cbn. auto.
    + (* x is finite *)
      cbn [valid_binary] in Vx.
      destruct (SFmul_finite_rounds mx ms ex es Vx Vs) as [R N].
      destruct y as [sy|[|]| |[|] my ey]; cbn [sf_nonneg] in Ny; try contradiction.
      * exfalso. cbn [sf_le SF2Q cond_Zopp] in Hle.
        assert (P := finite_value_pos mx ex). lra.
      * split; [|split; [exact N | exact I]].
        change (SF64mul (S754_infinity false) (S754_finite false ms es))
          with (S754_infinity false).
        destruct (SF64mul (S754_finite false mx ex) (S754_finite false ms es))
          as [s0|[|]| |s0 m0 e0]; cbn in *; auto.
      * cbn [valid_binary] in Vy.
        destruct (SFmul_finite_rounds my ms ey es Vy Vs) as [R' N'].
        split; [|split; assumption].
        cbn [sf_le] in Hle.
        destruct (Qlt_le_dec (SF2Q (S754_finite false mx ex))
                             (SF2Q (S754_finite false my ey))) as [Hlt|Hge].
        -- assert (P' := finite_value_pos ms es).
           apply (rounds_mono _ _ _ _ R R').
           cbn [SF2Q cond_Zopp] in *. nra.
        -- assert (Heq : (SF2Q (S754_finite false mx ex)
                          == SF2Q (S754_finite false my ey))%Q) by lra.
           cbn [SF2Q cond_Zopp] in Heq.
           destruct (bounded_value_eq mx my ex ey Vx Vy Heq) as [-> ->].
           apply sf_le_refl. intros En. rewrite En in R. exact R.
Qed.

(** *** Addition of a non-negative float *)

Lemma inject_Z_cond_Zopp (s : bool) (z : Z) :
  (inject_Z (cond_Zopp s z) == if s then - inject_Z z else inject_Z z)%Q.
Proof. destruct s; cbn [cond_Zopp]; [rewrite inject_Z_opp|]; reflexivity. Qed.

Lemma shl_align_scaled (m : positive) (e ez : Z) :
  ez <= e ->
  (inject_Z (Zpos (fst (shl_align m e ez))) * pow2 ez == inject_Z (Zpos m) * pow2 e)%Q.
Proof.
  intros Hle. rewrite shl_align_value by exact Hle.
  rewrite scaled_shift by lia. now replace (ez + (e - ez)) with e by lia.
Qed.

(** The sum of two finite floats is the correct rounding of the exact sum. *)
Lemma SFadd_finite_rounds (sc sp : bool) (mc mp : positive) (ec ep : Z) :
  rounds (SF2Q (S754_finite sc mc ec) + SF2Q (S754_finite sp mp ep))
         (SF64add (S754_finite sc mc ec) (S754_finite sp mp ep)).
Proof.
  unfold SF64add. cbn [SFadd]. set (ez := Z.min ec ep).
  set (z := cond_Zopp sc (Zpos (fst (shl_align mc ec ez)))
            + cond_Zopp sp (Zpos (fst (shl_align mp ep ez)))).
  pose proof (binary_normalize_rounds z ez) as R.
  assert (Ev : (inject_Z z * pow2 ez
                == SF2Q (S754_finite sc mc ec) + SF2Q (S754_finite sp mp ep))%Q).
  { unfold z. cbn [SF2Q]. rewrite inject_Z_plus, !inject_Z_cond_Zopp.
    pose proof (shl_align_scaled mc ec ez ltac:(lia)) as Ec.
    pose proof (shl_align_scaled mp ep ez ltac:(lia)) as Ep.
    destruct sc, sp; lra. }
  revert R. generalize (binary_normalize prec emax z ez false). intros r R.
  destruct r as [sr|sr| |sr mr er]; cbn [rounds] in *.
  - eapply nearest_ext; [exact Ev | reflexivity | exact R].
  - destruct R as (v & Nv & Hv'). exists v. split; [|exact Hv'].
    eapply nearest_ext; [exact Ev | reflexivity | exact Nv].
  - exact R.
  - destruct R as [Hb Nv]. split; [exact Hb|].
    eapply nearest_ext; [exact Ev | reflexivity | exact Nv].
Qed.

Lemma rounds_is_number (x : Q) (r : spec_float) : rounds x r -> r <> S754_nan.
Proof. intros R ->. exact R. Qed.

Lemma sf_le_inf (r : spec_float) : r <> S754_nan -> sf_le r (S754_infinity false).
Proof. destruct r as [s|[|]| |s m e]; cbn; auto. Qed.

(** Adding two non-negative floats, the smaller first, to one float keeps
    their order, unless a sum is no number (inf - inf, NaN). *)
Lemma SFadd_mono (c p p' : spec_float) :
  valid_binary c = true -> valid_binary p = true -> valid_binary p' = true ->
  sf_nonneg p -> sf_nonneg p' -> sf_le p p' ->
  SF64add c p = S754_nan \/ SF64add c p' = S754_nan \/
  sf_le (SF64add c p) (SF64add c p').
Proof.
  intros Vc Vp Vp' Np Np' Hle.
  destruct c as [sc|sc| |sc mc ec].
  - (* c is a zero: the sum is the other operand, or a zero for a zero *)
    right. right.
    destruct p as [sp|[|]| |[|] mp ep]; cbn [sf_nonneg] in Np; try contradiction;
      destruct p' as [sp'|[|]| |[|] mp' ep']; cbn [sf_nonneg] in Np'; try contradiction;
      destruct sc; try destruct sp; try destruct sp';
      cbn in *; try exact I; try contradiction; try lra.
  - (* c is an infinity *)
    assert (Hq : forall q, sf_nonneg q ->
                           SF64add (S754_infinity sc) q = S754_nan \/
                           SF64add (S754_infinity sc) q = S754_infinity sc).
    { intros q Nq. destruct q as [sq|[|]| |[|] mq eq]; cbn [sf_nonneg] in Nq;
        try contradiction; destruct sc; cbn; auto. }
    destruct (Hq p Np) as [E|E]; [now left|].
    destruct (Hq p' Np') as [E'|E']; [right; now left|].
    right. right. rewrite E, E'. apply sf_le_refl. discriminate.
  - now left.
  - (* c is finite *)
    cbn [valid_binary] in Vc. right. right.
    pose proof (rounds_self sc mc ec Vc) as Rc.
    destruct p as [sp|[|]| |[|] mp ep]; cbn [sf_nonneg] in Np; try contradiction.
    + (* p is a zero *)
      change (SF64add (S754_finite sc mc ec) (S754_zero sp)) with (S754_finite sc mc ec).
      destruct p' as [sp'|[|]| |[|] mp' ep']; cbn [sf_nonneg] in Np'; try contradiction.
      * apply sf_le_refl. discriminate.
      * apply sf_le_inf. discriminate.
      * pose proof (SFadd_finite_rounds sc false mc mp' ec ep') as R'.
        apply (rounds_mono _ _ _ _ Rc R').
        pose proof (finite_value_pos mp' ep'). cbn [SF2Q cond_Zopp] in *. lra.
    + (* p is infinite *)
      destruct p' as [sp'|[|]| |[|] mp' ep']; cbn [sf_nonneg sf_le] in *;
        try contradiction.
      cbn. exact I.
    + (* p is finite *)
      pose proof (SFadd_finite_rounds sc false mc mp ec ep) as R.
      destruct p' as [sp'|[|]| |[|] mp' ep']; cbn [sf_nonneg] in Np'; try contradiction.
      * exfalso. cbn [sf_le SF2Q cond_Zopp] in Hle.
        pose proof (finite_value_pos mp ep). lra.
      * change (SF64add (S754_finite sc mc ec) (S754_infinity false))
          with (S754_infinity false).
        apply sf_le_inf. now apply (rounds_is_number _ _ R).
      * pose proof (SFadd_finite_rounds sc false mc mp' ec ep') as R'.
        cbn [sf_le] in Hle. cbn [valid_binary] in Vp, Vp'.
        destruct (Qlt_le_dec (SF2Q (S754_finite false mp ep))
                             (SF2Q (S754_finite false mp' ep'))) as [Hlt|Hge].
        -- apply (rounds_mono _ _ _ _ R R'). lra.
        -- assert (Heq : (SF2Q (S754_finite false mp ep)
                          == SF2Q (S754_finite false mp' ep'))%Q) by lra.
           cbn [SF2Q cond_Zopp] in Heq.
           destruct (bounded_value_eq mp mp' ep ep' Vp Vp' Heq) as [-> ->].
           apply sf_le_refl. now apply (rounds_is_number _ _ R).
Qed.

(** ** Binary64 tiles: the rows and the columns are ordered *)

Lemma SFadd_nan_r (c : spec_float) : SF64add c S754_nan = S754_nan.
Proof. destruct c; reflexivity. Qed.

Lemma SFltb_nan_l (x : spec_float) : SFltb S754_nan x = false.
Proof. reflexivity. Qed.

Lemma SFltb_nan_r (x : spec_float) : SFltb x S754_nan = false.
Proof. destruct x; reflexivity. Qed.

(** [<] on floats is transitive. *)
Lemma float_ltb_trans (x y z : float) :
  PrimFloat.ltb x y = true -> PrimFloat.ltb y z = true -> PrimFloat.ltb x z = true.
Proof.
  rewrite !ltb_spec. intros Hxy Hyz.
  apply SFltb_sf_lt in Hxy; try apply Prim2SF_valid.
  apply SFltb_sf_lt in Hyz; try apply Prim2SF_valid.
  apply SFltb_sf_lt; try apply Prim2SF_valid.
  eapply sf_lt_trans; eassumption.
Qed.

(** The start [c + k * step] of row (or column) [k], as the floats compute
    it with a positive step, never decreases with [k]: rounding is
    monotone. *)
Lemma float_row_start_mono (c step : float) (k k' : Z) :
  PrimFloat.ltb 0 step = true -> 0 <= k -> k <= k' ->
  PrimFloat.ltb (PrimFloat.add c (PrimFloat.mul (float_of_int k') step))
                (PrimFloat.add c (PrimFloat.mul (float_of_int k) step)) = false.
Proof.
  intros Hstep Hk Hkk.
  destruct (Z.eq_dec k k') as [<-|Hne]; [rewrite ltb_spec; apply SFltb_irrefl|].
  rewrite ltb_spec in Hstep. apply SFltb_zero_pos in Hstep.
  destruct (float_of_int_mono k k' Hk ltac:(lia)) as (Hle & Nk & Nk').
  pose proof (SFmul_mono _ _ _ (Prim2SF_valid (float_of_int k))
                (Prim2SF_valid (float_of_int k')) (Prim2SF_valid step)
                Nk Nk' Hstep Hle) as Hmul.
  rewrite <- !mul_spec in Hmul.
  rewrite ltb_spec, !add_spec.
  destruct Hmul as [E|[E|(Hp & Np & Np')]].
  - rewrite E, SFadd_nan_r. apply SFltb_nan_r.
  - rewrite E, SFadd_nan_r. apply SFltb_nan_l.
  - pose proof (SFadd_mono (Prim2SF c) _ _ (Prim2SF_valid c)
                  (Prim2SF_valid (PrimFloat.mul (float_of_int k) step))
                  (Prim2SF_valid (PrimFloat.mul (float_of_int k') step))
                  Np Np' Hp) as Hadd.
    destruct Hadd as [E|[E|Ha]].
    + rewrite E. apply SFltb_nan_r.
    + rewrite E. apply SFltb_nan_l.
    + destruct (SFltb _ _) eqn:Hlt; [|reflexivity]. exfalso.
      rewrite <- !add_spec in Hlt, Ha.
      apply SFltb_sf_lt in Hlt; try apply Prim2SF_valid.
      exact (sf_le_not_lt _ _ Ha Hlt).
Qed.

(** A tile's clipped end is not beyond the start of any later row (column). *)
Lemma float_clipped_end_before (c bound step : float) (k k' : Z) :
  PrimFloat.ltb 0 step = true -> 0 <= k -> k < k' ->
  PrimFloat.ltb (PrimFloat.add c (PrimFloat.mul (float_of_int k') step))
                (py_min (PrimFloat.add c (PrimFloat.mul (float_of_int (k + 1)) step))
                        bound)
  = false.
Proof.
  intros Hstep Hk Hkk.
  pose proof (float_row_start_mono c step (k + 1) k' Hstep ltac:(lia) ltac:(lia)) as Hm.
  unfold py_min. cbn [py_lt PyNumber_float].
  destruct (PrimFloat.ltb bound _) eqn:Hb; [|exact Hm].
  destruct (PrimFloat.ltb _ bound) eqn:Hc; [|reflexivity].
  rewrite (float_ltb_trans _ _ _ Hc Hb) in Hm. discriminate.
Qed.

(** Two float tiles at different flat indices share no interior point. *)
Lemma float_interiors_disjoint (min_lat max_lat min_lon max_lon step : float)
    (rows cols : Z) (k k' : nat) (r r' : @Rectangle float) (lat lon : float) :
  PrimFloat.ltb 0 step = true ->
  k <> k' ->
  nth_error (lat_loop min_lat max_lat min_lon max_lon step rows cols []) k = Some r ->
  nth_error (lat_loop min_lat max_lat min_lon max_lon step rows cols []) k' = Some r' ->
  strictly_inside lat lon r = true -> strictly_inside lat lon r' = true -> False.
Proof.
  intros Hstep Hkk Hk Hk' Hin Hin'.
  apply lat_loop_nth_inv in Hk as (Hc & _ & ->).
  apply lat_loop_nth_inv in Hk' as (_ & _ & ->).
  set (c := Z.to_nat cols) in *.
  unfold strictly_inside in Hin, Hin'. cbn [py_lt PyNumber_float] in Hin, Hin'.
  apply andb_prop in Hin as [[A1 A2]%andb_prop [A3 A4]%andb_prop].
  apply andb_prop in Hin' as [[B1 B2]%andb_prop [B3 B4]%andb_prop].
  unfold bbox_at, bb_min_lat, bb_max_lat, bb_min_lon, bb_max_lon in *.
  cbn [fst snd py_add py_mul py_of_int PyNumber_float] in *.
  assert (Hpos : (k / c <> k' / c \/ k mod c <> k' mod c)%nat).
  { destruct (Nat.eq_dec (k / c) (k' / c)) as [Hd|Hd]; [|now left].
    right. intros Hm. apply Hkk.
    rewrite (Nat.div_mod_eq k c), (Nat.div_mod_eq k' c). congruence. }
  destruct Hpos as [Hd|Hm].
  - destruct (Nat.lt_total (k / c) (k' / c)) as [Hlt|[Heq|Hgt]]; [|contradiction|].
    + pose proof (float_clipped_end_before min_lat max_lat step
                    (Z.of_nat (k / c)) (Z.of_nat (k' / c)) Hstep ltac:(lia) ltac:(lia)) as E.
      rewrite (float_ltb_trans _ _ _ B1 A2) in E. discriminate.
    + pose proof (float_clipped_end_before min_lat max_lat step
                    (Z.of_nat (k' / c)) (Z.of_nat (k / c)) Hstep ltac:(lia) ltac:(lia)) as E.
      rewrite (float_ltb_trans _ _ _ A1 B2) in E. discriminate.
  - destruct (Nat.lt_total (k mod c) (k' mod c)) as [Hlt|[Heq|Hgt]]; [|contradiction|].
    + pose proof (float_clipped_end_before min_lon max_lon step
                    (Z.of_nat (k mod c)) (Z.of_nat (k' mod c)) Hstep ltac:(lia) ltac:(lia)) as E.
      rewrite (float_ltb_trans _ _ _ B3 A4) in E. discriminate.
    + pose proof (float_clipped_end_before min_lon max_lon step
                    (Z.of_nat (k' mod c)) (Z.of_nat (k mod c)) Hstep ltac:(lia) ltac:(lia)) as E.
      rewrite (float_ltb_trans _ _ _ A3 B4) in E. discriminate.
Qed.

(** C3, refuted as stated: on the float input (0.3, 3.3, 0.3, 3.3, 0.2) row 2
    starts at 0.7 and 0.7 + 0.2 = 0.8999999999999999, while row 3 starts at
    0.3 + 3 * 0.2 = 0.9000000000000001.  The point (0.9, 0.4) of the
    rectangle, which is on no tile edge, lies in no tile's half-open cell. *)
Lemma divide_area_point_in_no_cell :
  PrimFloat.leb 0.3%float 3.3%float = true /\ PrimFloat.ltb 0%float 0.2%float = true /\
  exists tiles : list (@Rectangle float),
    divide_area_to_bboxes 0.3%float 3.3%float 0.3%float 3.3%float 0.2%float = Ok tiles /\
    (PrimFloat.leb 0.3%float 0.9%float && PrimFloat.leb 0.9%float 3.3%float
     && PrimFloat.leb 0.3%float 0.4%float && PrimFloat.leb 0.4%float 3.3%float = true)%bool /\
    forallb (fun r => negb (on_edge 0.9%float 0.4%float r)) tiles = true /\
    filter (in_cell 0.2%float 0.9%float 0.4%float) tiles = [].
Proof.
  split; [reflexivity|]. split; [reflexivity|].
  eexists. split; [vm_compute; reflexivity|].
  split; [reflexivity|]. split; vm_compute; reflexivity.
Qed.

(** The same point stays uncovered when the end of each band, min + step, is
    taken exactly instead of rounded: the gap is between the real number
    0.7 + 0.2 (on the floats' values) and the float 0.9000000000000001. *)
Example divide_area_point_in_no_exact_band :
  match divide_area_to_bboxes 0.3%float 3.3%float 0.3%float 3.3%float 0.2%float with
  | Ok tiles =>
      forallb (fun r => negb (in_band_exact 0.2%float 0.9%float (bb_min_lat r))) tiles
  | Raise _ => false
  end = true.
Proof. vm_compute. reflexivity. Qed.

(** Double cover happens too: on (0.4, 3.4, 0.4, 3.4, 0.1) the latitude
    1.9000000000000001, on no tile edge, is in the bands of rows 14 and 15. *)
Example divide_area_point_in_two_bands :
  match divide_area_to_bboxes 0.4%float 3.4%float 0.4%float 3.4%float 0.1%float with
  | Ok tiles =>
      (forallb (fun r => negb (on_edge 1.9000000000000001%float 0.45%float r)) tiles,
       List.length (filter (in_cell 0.1%float 1.9000000000000001%float 0.45%float) tiles))
  | Raise _ => (false, 0%nat)
  end = (true, 2%nat).
Proof. vm_compute. reflexivity. Qed.

(** C3, amended.  On floats, for every input with step > 0 on which the
    function returns (so for every valid input), two distinct tiles share no
    interior point: tiles overlap at most on boundary coordinate values, never
    over an area.  With exact arithmetic (rational arguments), for every input
    with min_lat <= max_lat, min_lon <= max_lon and step > 0 the function
    returns, every point of the input rectangle moreover lies in the half-open
    cell [tile_min_lat, tile_min_lat + step) x [tile_min_lon, tile_min_lon + step)
    of exactly one tile, and again two distinct tiles share no interior
    point. *)
Theorem divide_area_disjoint_and_exact_coverage :
  (forall (min_lat max_lat min_lon max_lon step : float)
          (tiles : list (@Rectangle float)),
      PrimFloat.ltb 0 step = true ->
      divide_area_to_bboxes min_lat max_lat min_lon max_lon step = Ok tiles ->
      forall (k k' : nat) (r r' : @Rectangle float) (lat lon : float),
        k <> k' -> nth_error tiles k = Some r -> nth_error tiles k' = Some r' ->
        strictly_inside lat lon r = true -> strictly_inside lat lon r' = true ->
        False)
  /\
  (forall min_lat max_lat min_lon max_lon step : Q,
      (min_lat <= max_lat)%Q -> (min_lon <= max_lon)%Q -> (0 < step)%Q ->
      exists tiles : list (@Rectangle Q),
        divide_area_to_bboxes min_lat max_lat min_lon max_lon step = Ok tiles /\
        (forall lat lon : Q,
            (min_lat <= lat)%Q -> (lat <= max_lat)%Q ->
            (min_lon <= lon)%Q -> (lon <= max_lon)%Q ->
            List.length (filter (in_cell step lat lon) tiles) = 1%nat) /\
        (forall (k k' : nat) (r r' : @Rectangle Q) (lat lon : Q),
            k <> k' -> nth_error tiles k = Some r -> nth_error tiles k' = Some r' ->
            strictly_inside lat lon r = true -> strictly_inside lat lon r' = true ->
            False)).
Proof.
  split.
  - intros min_lat max_lat min_lon max_lon step tiles Hstep Hd k k' r r' lat lon.
    rewrite divide_area_to_bboxes_unfold in Hd.
    destruct (grid_steps min_lat max_lat step) as [rows|e]; [|discriminate].
    destruct (grid_steps min_lon max_lon step) as [cols|e]; [|discriminate].
    injection Hd as <-.
    now apply float_interiors_disjoint.
  - intros min_lat max_lat min_lon max_lon step Hlat Hlon Hstep.
    eexists. split; [now apply exact_divide_area|]. split.
    + intros lat lon H1 H2 H3 H4.
      now rewrite exact_cell_unique.
    + intros k k' r r' lat lon. now apply exact_interiors_disjoint.
Qed.

Lemma divide_area_disjoint_and_exact_coverage_witness :
  (forall (k k' : nat) (r r' : @Rectangle float) (lat lon : float),
      k <> k' ->
      nth_error (match divide_area_to_bboxes 0.4%float 3.4%float 0.4%float 3.4%float
                                             0.1%float with
                 | Ok tiles => tiles
                 | Raise _ => []
                 end) k = Some r ->
      nth_error (match divide_area_to_bboxes 0.4%float 3.4%float 0.4%float 3.4%float
                                             0.1%float with
                 | Ok tiles => tiles
                 | Raise _ => []
                 end) k' = Some r' ->
      strictly_inside lat lon r = true -> strictly_inside lat lon r' = true ->
      False)
  /\
  (exists tiles : list (@Rectangle Q),
      divide_area_to_bboxes (3#10) (33#10) (3#10) (33#10) (2#10) = Ok tiles /\
      (forall lat lon : Q,
          ((3#10) <= lat)%Q -> (lat <= (33#10))%Q ->
          ((3#10) <= lon)%Q -> (lon <= (33#10))%Q ->
          List.length (filter (in_cell (2#10) lat lon) tiles) = 1%nat) /\
      (forall (k k' : nat) (r r' : @Rectangle Q) (lat lon : Q),
          k <> k' -> nth_error tiles k = Some r -> nth_error tiles k' = Some r' ->
          strictly_inside lat lon r = true -> strictly_inside lat lon r' = true ->
          False)).
Proof.
  split.
  - apply (proj1 divide_area_disjoint_and_exact_coverage
             0.4%float 3.4%float 0.4%float 3.4%float 0.1%float).
    + reflexivity.
    + vm_compute. reflexivity.
  - apply (proj2 divide_area_disjoint_and_exact_coverage
             (3#10) (33#10) (3#10) (33#10) (2#10));
      vm_compute; congruence.
Defined.

(** The latitude 1.9000000000000001 that two half-open bands
    [min, min + step) of the float grid (0.4, 3.4, 0.4, 3.4, 0.1) hold lies
    strictly inside one tile only: the bands overlap, the tiles do not. *)
Example divide_area_point_in_one_tile :
  match divide_area_to_bboxes 0.4%float 3.4%float 0.4%float 3.4%float 0.1%float with
  | Ok tiles =>
      List.length (filter (strictly_inside 1.9000000000000001%float 0.45%float) tiles)
  | Raise _ => 0%nat
  end = 1%nat.
Proof. vm_compute. reflexivity. Qed.

(** The point that the floats leave uncovered is covered once exactly. *)
Example divide_area_exact_point :
  match divide_area_to_bboxes (3#10) (33#10) (3#10) (33#10) (2#10) with
  | Ok tiles => List.length (filter (in_cell (2#10) (9#10) (4#10)) tiles)
  | Raise _ => 0%nat
  end = 1%nat.
Proof. vm_compute. reflexivity. Qed.

(** * Properties of the fetcher, the merger and the driver *)

#[local] Open Scope string_scope.

(** ** Strings and association lists *)

Lemma string_app_assoc (a b c : string) : (a ++ b) ++ c = a ++ (b ++ c).
Proof. induction a as [|x a IH]; simpl; [reflexivity | now rewrite IH]. Qed.

Lemma string_app_nil_r (a : string) : a ++ "" = a.
Proof. induction a as [|x a IH]; simpl; [reflexivity | now rewrite IH]. Qed.


Lemma assoc_set_same {V : Type} (k : string) (v : V) (l : list (string * V)) :
  assoc k (assoc_set k v l) = Some v.
Proof.
  induction l as [|[k' v'] l IH]; simpl.
  - now rewrite String.eqb_refl.
  - destruct (String.eqb k k') eqn:E; simpl.
    + now rewrite String.eqb_refl.
    + now rewrite E.
Qed.

Lemma assoc_set_other {V : Type} (k k' : string) (v : V) (l : list (string * V)) :
  k' <> k -> assoc k' (assoc_set k v l) = assoc k' l.
Proof.
  intros Hne. induction l as [|[k0 v0] l IH]; simpl.
  - apply String.eqb_neq in Hne. now rewrite Hne.
  - destruct (String.eqb k k0) eqn:E; simpl.
    + apply String.eqb_eq in E. subst k0.
      apply String.eqb_neq in Hne. now rewrite Hne.
    + destruct (String.eqb k' k0); [reflexivity | exact IH].
Qed.

Lemma assoc_set_twice {V : Type} (k : string) (v1 v2 : V) (l : list (string * V)) :
  assoc_set k v2 (assoc_set k v1 l) = assoc_set k v2 l.
Proof.
  induction l as [|[k' v'] l IH]; simpl.
  - now rewrite String.eqb_refl.
  - destruct (String.eqb k k') eqn:E; simpl.
    + now rewrite String.eqb_refl.
    + now rewrite E, IH.
Qed.

(** ** The file system *)

Lemma fs_store_ok (fs : file_system) (p : path) (content : string) :
  assoc (fst p) fs <> None -> exists fs', fs_store fs p content = Some fs'.
Proof.
  unfold fs_store. destruct (assoc (fst p) fs); [eauto | contradiction].
Qed.

Lemma fs_store_read (fs fs' : file_system) (p : path) (content : string) :
  fs_store fs p content = Some fs' -> fs_read fs' p = Some content.
Proof.
  unfold fs_store, fs_read. destruct (assoc (fst p) fs) as [entries|]; [|discriminate].
  intros [= <-]. now rewrite !assoc_set_same.
Qed.

Lemma fs_store_other_folder (fs fs' : file_system) (p : path) (content d : string) :
  fs_store fs p content = Some fs' -> d <> fst p -> assoc d fs' = assoc d fs.
Proof.
  unfold fs_store. destruct (assoc (fst p) fs) as [entries|]; [|discriminate].
  intros [= <-] Hd. now apply assoc_set_other.
Qed.

Lemma fs_store_folder_kept (fs fs' : file_system) (p : path) (content d : string) :
  fs_store fs p content = Some fs' -> assoc d fs <> None -> assoc d fs' <> None.
Proof.
  intros Hs Hd. destruct (string_dec d (fst p)) as [->|Hne].
  - unfold fs_store in Hs. destruct (assoc (fst p) fs); [|discriminate].
    injection Hs as <-. now rewrite assoc_set_same.
  - now rewrite (fs_store_other_folder _ _ _ _ _ Hs Hne).
Qed.

Lemma fs_store_read_other (fs fs' : file_system) (p p' : path) (content : string) :
  fs_store fs p content = Some fs' -> fst p' <> fst p -> fs_read fs' p' = fs_read fs p'.
Proof.
  intros Hs Hne. unfold fs_read.
  now rewrite (fs_store_other_folder _ _ _ _ _ Hs Hne).
Qed.

Lemma fs_store_read_other_file (fs fs' : file_system) (p p' : path) (content : string) :
  fs_store fs p content = Some fs' -> p' <> p -> fs_read fs' p' = fs_read fs p'.
Proof.
  intros Hs Hne. destruct (string_dec (fst p') (fst p)) as [Hd|Hd].
  - unfold fs_store in Hs. unfold fs_read. rewrite Hd.
    destruct (assoc (fst p) fs) as [entries|]; [|discriminate].
    injection Hs as <-. rewrite assoc_set_same. apply assoc_set_other.
    intros Hn. apply Hne. destruct p, p'; simpl in *; congruence.
  - eapply fs_store_read_other; eauto.
Qed.

Lemma fs_store_twice (fs fs1 : file_system) (p : path) (c1 c2 : string) :
  fs_store fs p c1 = Some fs1 -> fs_store fs1 p c2 = fs_store fs p c2.
Proof.
  unfold fs_store. destruct (assoc (fst p) fs) as [entries|]; [|discriminate].
  intros [= <-]. now rewrite assoc_set_same, !assoc_set_twice.
Qed.

Lemma assoc_key_listed {V : Type} (k : string) (l : list (string * V)) :
  In k (map fst l) -> assoc k l <> None.
Proof.
  induction l as [|[k' v'] l IH]; simpl; [contradiction|].
  intros [<-|Hin].
  - now rewrite String.eqb_refl.
  - destruct (String.eqb k k'); [discriminate | auto].
Qed.

(** ** Running commands *)

Lemma bindM_ok {A B : Type} (c : M A) (k : A -> M B) (w w' : world) (a : A) :
  c w = (Ok a, w') -> bindM c k w = k a w'.
Proof. intros Hc. unfold bindM. now rewrite Hc. Qed.


Ltac run_step H := etransitivity; [apply (bindM_ok _ _ _ _ _ H) | cbv beta].

(** ** Writing to one file leaves the rest of the world alone *)


Lemma same_but_file_trans (p : path) (w1 w2 w3 : world) :
  same_but_file p w1 w2 -> same_but_file p w2 w3 -> same_but_file p w1 w3.
Proof.
  intros (F1 & T1 & S1) (F2 & T2 & S2). repeat split; try congruence.
  intros p' Hp. now rewrite F2, F1.
Qed.

Lemma open_w_run (p : path) (w : world) :
  assoc (fst p) (files w) <> None ->
  exists w', open_w p w = (Ok tt, w') /\
             fs_read (files w') p = Some "" /\ same_but_file p w w'.
Proof.
  intros Hd. unfold open_w.
  destruct (fs_store_ok (files w) p "" Hd) as [fs' Hs]. rewrite Hs.
  eexists. split; [reflexivity|]. split.
  - simpl. eapply fs_store_read; eauto.
  - repeat split. intros p' Hp'. simpl. eapply fs_store_read_other_file; eauto.
Qed.

Lemma file_write_run (p : path) (s old : string) (w : world) :
  fs_read (files w) p = Some old ->
  exists w', file_write p s w = (Ok tt, w') /\
             fs_read (files w') p = Some (old ++ s) /\ same_but_file p w w'.
Proof.
  intros Hr. unfold file_write. rewrite Hr.
  assert (Hd : assoc (fst p) (files w) <> None).
  { unfold fs_read in Hr. destruct (assoc (fst p) (files w)); discriminate. }
  destruct (fs_store_ok (files w) p (old ++ s) Hd) as [fs' Hs]. rewrite Hs.
  eexists. split; [reflexivity|]. split.
  - simpl. eapply fs_store_read; eauto.
  - repeat split. intros p' Hp'. simpl. eapply fs_store_read_other_file; eauto.
Qed.

(** ** merge_osm_files *)

Section Merge.
Variable input_folder : string.
Variable output_file : path.

Let keep (line : string) : bool := negb (is_envelope_line line).

Let copy_line (line : string) : M unit :=
  if is_envelope_line line then ret tt else file_write output_file line.

Let copy_file (file : string) : M unit :=
  lines <~ open_r_lines (os_path_join input_folder file) ;;
  for_each lines copy_line.

(** The inner loop appends the lines that are not envelope lines. *)
Lemma copy_lines_run (lines : list string) (w : world) (old : string) :
  fs_read (files w) output_file = Some old ->
  exists w', for_each lines copy_line w = (Ok tt, w') /\
             fs_read (files w') output_file = Some (old ++ join (filter keep lines)) /\
             same_but_file output_file w w'.
Proof.
  revert w old. induction lines as [|line lines IH]; intros w old Hr.
  - exists w. simpl. rewrite string_app_nil_r.
    repeat split; auto.
  - simpl for_each. unfold bindM. unfold copy_line at 1, keep. simpl filter.
    destruct (is_envelope_line line) eqn:El; simpl negb; cbv iota.
    + unfold ret. apply IH. exact Hr.
    + destruct (file_write_run output_file line old w Hr) as (w1 & -> & Hr1 & S1).
      destruct (IH w1 _ Hr1) as (w2 & -> & Hr2 & S2).
      exists w2. split; [reflexivity|]. split.
      * rewrite Hr2. simpl. now rewrite string_app_assoc.
      * eapply same_but_file_trans; eauto.
Qed.

(** What one input file contributes to the merged document. *)
Let contribution (fs : file_system) (file : string) : string :=
  match fs_read fs (os_path_join input_folder file) with
  | Some content => join (filter keep (file_lines content))
  | None => ""
  end.

(** The outer loop, over input files that exist and are not the output file. *)
Lemma copy_files_run (names : list string) (w0 w : world) (old : string) :
  same_but_file output_file w0 w ->
  (forall name, In name names ->
                fs_read (files w0) (os_path_join input_folder name) <> None /\
                os_path_join input_folder name <> output_file) ->
  fs_read (files w) output_file = Some old ->
  exists w', for_each names copy_file w = (Ok tt, w') /\
             fs_read (files w') output_file
             = Some (old ++ join (map (contribution (files w0)) names)) /\
             same_but_file output_file w0 w'.
Proof.
  revert w old. induction names as [|name names IH]; intros w old S0 Hin Hr.
  - exists w. simpl. rewrite string_app_nil_r. auto.
  - simpl for_each. unfold bindM. unfold copy_file at 1. unfold bindM, open_r_lines.
    destruct (Hin name (or_introl eq_refl)) as [Hex Hne].
    assert (Hsame : fs_read (files w) (os_path_join input_folder name)
                    = fs_read (files w0) (os_path_join input_folder name))
      by (destruct S0 as (F & _); now apply F).
    rewrite Hsame.
    destruct (fs_read (files w0) (os_path_join input_folder name)) as [content|] eqn:Hc;
      [|contradiction].
    destruct (copy_lines_run (file_lines content) w old Hr) as (w1 & -> & Hr1 & S1).
    destruct (IH w1 _ (same_but_file_trans _ _ _ _ S0 S1)
                 (fun n Hn => Hin n (or_intror Hn)) Hr1) as (w2 & -> & Hr2 & S2).
    exists w2. split; [reflexivity|]. split; [|assumption].
    rewrite Hr2. simpl map. simpl join. unfold contribution at 2. rewrite Hc.
    now rewrite string_app_assoc.
Qed.

(** The whole run of [merge_osm_files], when the two folders exist and the
    output file is not one of the files read. *)
Lemma merge_osm_files_run (w : world) (entries : folder) :
  assoc input_folder (files w) = Some entries ->
  assoc (fst output_file) (files w) <> None ->
  ~ In output_file
       (map (os_path_join input_folder)
            (filter (fun f => endswith f ".osm") (map fst entries))) ->
  exists w',
    merge_osm_files input_folder output_file w = (Ok tt, w') /\
    fs_read (files w') output_file
    = Some (xml_declaration ++ osm_open_tag
            ++ join (map (contribution (files w))
                         (filter (fun f => endswith f ".osm") (map fst entries)))
            ++ osm_close_tag) /\
    (forall p, p <> output_file -> fs_read (files w') p = fs_read (files w) p) /\
    trace w' = (trace w ++ [Print (MergeDone output_file)])%list /\
    server w' = server w.
Proof.
  intros Hin Hout Hfresh.
  assert (L : os_listdir input_folder w = (Ok (map fst entries), w))
    by (unfold os_listdir; now rewrite Hin).
  destruct (open_w_run output_file w Hout) as (w1 & H1 & R1 & S1).
  destruct (file_write_run output_file xml_declaration _ w1 R1) as (w2 & H2 & R2 & S2).
  destruct (file_write_run output_file osm_open_tag _ w2 R2) as (w3 & H3 & R3 & S3).
  assert (S03 : same_but_file output_file w w3)
    by (eauto using same_but_file_trans).
  assert (Hall : forall name,
             In name (filter (fun f => endswith f ".osm") (map fst entries)) ->
             fs_read (files w) (os_path_join input_folder name) <> None /\
             os_path_join input_folder name <> output_file).
  { intros name Hn. split.
    - apply filter_In in Hn as [Hn _].
      unfold fs_read. simpl. rewrite Hin. now apply assoc_key_listed.
    - intros Heq. apply Hfresh. rewrite <- Heq. now apply in_map. }
  destruct (copy_files_run _ w w3 _ S03 Hall R3) as (w4 & H4 & R4 & S4).
  destruct (file_write_run output_file osm_close_tag _ w4 R4) as (w5 & H5 & R5 & S5).
  assert (S05 : same_but_file output_file w w5)
    by (eauto using same_but_file_trans).
  destruct S05 as (F & Tr & Sv).
  exists (with_event (Print (MergeDone output_file)) w5). split.
  - unfold merge_osm_files.
    run_step L. run_step H1. run_step H2. run_step H3. run_step H4. run_step H5.
    reflexivity.
  - unfold with_event. cbn [files trace server]. split; [|split; [|split]].
    + rewrite R5. cbn [String.append]. now rewrite !string_app_assoc.
    + exact F.
    + now rewrite Tr.
    + exact Sv.
Qed.

End Merge.

(** C5. [merge_osm_files] returns and leaves in the output file exactly: the
    XML declaration line, the root open tag line [<osm version="0.6">], then,
    for each name of the input folder's listing that ends with ".osm" (the
    others are omitted), in listing order, every line of that file except the
    lines that start with "<?xml", "<osm" or "</osm", and finally the closing
    tag "</osm>".  The test is a prefix test, so any line starting with "<osm"
    is dropped.  The two folders exist and the output file is not one of the
    files read. *)
Theorem merge_osm_files_document
    (w : world) (input_folder : string) (output_file : path) (entries : folder) :
  assoc input_folder (files w) = Some entries ->
  assoc (fst output_file) (files w) <> None ->
  ~ In output_file
       (map (os_path_join input_folder)
            (filter (fun file => endswith file ".osm") (map fst entries))) ->
  exists w',
    merge_osm_files input_folder output_file w = (Ok tt, w') /\
    fs_read (files w') output_file
    = Some (xml_declaration ++ osm_open_tag
            ++ join (map (fun file =>
                            match fs_read (files w) (os_path_join input_folder file) with
                            | Some content =>
                                join (filter (fun line =>
                                                negb (startswith line "<?xml"
                                                      || startswith line "<osm"
                                                      || startswith line "</osm"))
                                             (file_lines content))
                            | None => ""
                            end)
                         (filter (fun file => endswith file ".osm") (map fst entries)))
            ++ "</osm>") /\
    (forall line, startswith line "<osm" = true ->
                  negb (startswith line "<?xml" || startswith line "<osm"
                        || startswith line "</osm") = false).
Proof.
  intros Hin Hout Hfresh.
  destruct (merge_osm_files_run input_folder output_file w entries Hin Hout Hfresh)
    as (w' & Hrun & Hread & _).
  exists w'. split; [exact Hrun|]. split; [exact Hread|].
  intros line ->. now rewrite orb_true_r.
Qed.

Lemma merge_osm_files_document_witness :
  exists w',
    merge_osm_files "osm_data" (in_cwd "full.osm") sample_world = (Ok tt, w') /\
    fs_read (files w') (in_cwd "full.osm")
    = Some (xml_declaration ++ osm_open_tag
            ++ join (map (fun file =>
                            match fs_read (files sample_world)
                                          (os_path_join "osm_data" file) with
                            | Some content =>
                                join (filter (fun line =>
                                                negb (startswith line "<?xml"
                                                      || startswith line "<osm"
                                                      || startswith line "</osm"))
                                             (file_lines content))
                            | None => ""
                            end)
                         (filter (fun file => endswith file ".osm")
                                 (map fst sample_folder)))
            ++ "</osm>") /\
    (forall line, startswith line "<osm" = true ->
                  negb (startswith line "<?xml" || startswith line "<osm"
                        || startswith line "</osm") = false).
Proof.
  apply (merge_osm_files_document sample_world "osm_data" (in_cwd "full.osm") sample_folder).
  - reflexivity.
  - vm_compute. discriminate.
  - vm_compute. intros [H|[H|[]]]; discriminate.
Defined.

(** On the sample folder: the text file is left out, the envelope lines of
    part_1 and the line [<osmAuthor>...] of part_2 are dropped. *)
Example merge_osm_files_sample :
  fs_read (files (snd (merge_osm_files "osm_data" (in_cwd "full.osm") sample_world)))
          (in_cwd "full.osm")
  = Some (xml_declaration ++ osm_open_tag
          ++ "  <node id=" ++ dquote ++ "1" ++ dquote ++ "/>" ++ nl
          ++ "  <way id=" ++ dquote ++ "2" ++ dquote ++ "/>" ++ nl
          ++ "</osm>").
Proof. vm_compute. reflexivity. Qed.

(** The two header lines are one line each. *)
Example header_lines :
  split_lines (xml_declaration ++ osm_open_tag) = [xml_declaration; osm_open_tag].
Proof. vm_compute. reflexivity. Qed.

(** C10. For every existing input folder whose listing has no name ending in
    ".osm", [merge_osm_files] returns and the output file consists of exactly
    the XML declaration line, the root open tag line and the closing tag. *)
Theorem merge_osm_files_empty_envelope
    (w : world) (input_folder : string) (output_file : path) (entries : folder) :
  assoc input_folder (files w) = Some entries ->
  assoc (fst output_file) (files w) <> None ->
  (forall name, In name (map fst entries) -> endswith name ".osm" = false) ->
  exists w',
    merge_osm_files input_folder output_file w = (Ok tt, w') /\
    fs_read (files w') output_file
    = Some (xml_declaration ++ osm_open_tag ++ "</osm>").
Proof.
  intros Hin Hout Hnone.
  assert (L : os_listdir input_folder w = (Ok (map fst entries), w))
    by (unfold os_listdir; now rewrite Hin).
  destruct (open_w_run output_file w Hout) as (w1 & H1 & R1 & S1).
  destruct (file_write_run output_file xml_declaration _ w1 R1) as (w2 & H2 & R2 & S2).
  destruct (file_write_run output_file osm_open_tag _ w2 R2) as (w3 & H3 & R3 & S3).
  destruct (file_write_run output_file osm_close_tag _ w3 R3) as (w4 & H4 & R4 & S4).
  exists (with_event (Print (MergeDone output_file)) w4). split.
  - unfold merge_osm_files.
    run_step L. run_step H1. run_step H2. run_step H3.
    rewrite (filter_none _ _ Hnone). cbn [for_each].
    unfold bindM at 1. unfold ret at 1. cbv iota beta.
    run_step H4. reflexivity.
  - unfold with_event. cbn [files]. rewrite R4. reflexivity.
Qed.

Lemma merge_osm_files_empty_envelope_witness :
  exists w',
    merge_osm_files "osm_data" (in_cwd "full.osm")
      {| files := [(".", []); ("osm_data", [("notes.txt", "<way/>")])];
         trace := []; server := fun _ _ => TransportFailure |} = (Ok tt, w') /\
    fs_read (files w') (in_cwd "full.osm")
    = Some (xml_declaration ++ osm_open_tag ++ "</osm>").
Proof.
  apply (merge_osm_files_empty_envelope _ "osm_data" (in_cwd "full.osm")
           [("notes.txt", "<way/>")]).
  - reflexivity.
  - vm_compute. discriminate.
  - intros name [<-|[]]. reflexivity.
Defined.

(** ** fetch_osm_by_bbox *)

Lemma posts_app (t1 t2 : list event) : posts (t1 ++ t2)%list = (posts t1 ++ posts t2)%list.
Proof.
  induction t1 as [|e t1 IH]; simpl; [reflexivity|].
  destruct e; simpl; now rewrite IH.
Qed.


Section Fetch.
Variable bbox : @Rectangle float.
Variable output_file : path.
Variable w : world.

Let outcome : post_outcome := server w (List.length (posts (trace w))) bbox.

(** The request is sent after the first console line. *)
Lemma requests_post_after_print :
  requests_post bbox (with_event (Print (FetchingArea bbox)) w)
  = (match outcome with
     | Responds r => Ok r
     | TransportFailure => Raise ConnectionError
     end,
     with_events [Print (FetchingArea bbox); Post bbox] w).
Proof.
  unfold requests_post, with_event, with_events, outcome. cbn [trace server files].
  rewrite posts_app. cbn [posts]. rewrite app_nil_r, <- app_assoc. cbn [app].
  destruct (server w _ bbox); reflexivity.
Qed.

(** Transport failure: logged, no file touched, no pause. *)
Lemma fetch_transport_failure :
  outcome = TransportFailure ->
  fetch_osm_by_bbox bbox output_file w
  = (Ok tt, with_events [Print (FetchingArea bbox); Post bbox;
                         Print (RequestFailed ConnectionError)] w).
Proof.
  intros Ho. unfold fetch_osm_by_bbox, try_except_RequestException.
  unfold bindM at 1. unfold print at 1.
  unfold bindM at 1. rewrite requests_post_after_print, Ho.
  cbn [is_RequestException]. unfold print, with_event, with_events.
  cbn [files trace server]. now rewrite <- app_assoc.
Qed.

(** A 4xx or 5xx status: logged, no file touched, no pause. *)
Lemma fetch_error_status (r : response) :
  outcome = Responds r -> is_error_status (status_code r) = true ->
  fetch_osm_by_bbox bbox output_file w
  = (Ok tt, with_events [Print (FetchingArea bbox); Post bbox;
                         Print (RequestFailed (HTTPError (status_code r)))] w).
Proof.
  intros Ho Hs. unfold fetch_osm_by_bbox, try_except_RequestException.
  unfold bindM at 1. unfold print at 1.
  unfold bindM at 1. rewrite requests_post_after_print, Ho.
  unfold bindM at 1. unfold raise_for_status. rewrite Hs. unfold raise.
  cbn [is_RequestException]. unfold print, with_event, with_events.
  cbn [files trace server]. now rewrite <- app_assoc.
Qed.

(** Any other status: the body is saved, then the pause. *)
Lemma fetch_saved (r : response) (fs : file_system) :
  outcome = Responds r -> is_error_status (status_code r) = false ->
  fs_store (files w) output_file (text r) = Some fs ->
  fetch_osm_by_bbox bbox output_file w
  = (Ok tt, with_files fs
              (with_events [Print (FetchingArea bbox); Post bbox;
                            Print (AreaSaved bbox output_file); Sleep 2] w)).
Proof.
  intros Ho Hs Hst. unfold fetch_osm_by_bbox, try_except_RequestException.
  unfold bindM at 1. unfold print at 1.
  unfold bindM at 1. rewrite requests_post_after_print, Ho.
  unfold bindM at 1. unfold raise_for_status. rewrite Hs. unfold ret.
  assert (Hex : exists fs0, fs_store (files w) output_file "" = Some fs0).
  { unfold fs_store in *. destruct (assoc (fst output_file) (files w)); [eauto | discriminate]. }
  destruct Hex as (fs0 & Hfs0).
  unfold bindM at 1. unfold open_w. cbn [files with_events]. rewrite Hfs0.
  unfold bindM at 1. unfold file_write. cbn [files with_files].
  rewrite (fs_store_read _ _ _ _ Hfs0).
  assert (Hfs1 : fs_store fs0 output_file ("" ++ text r) = Some fs)
    by (rewrite (fs_store_twice _ _ _ _ _ Hfs0); exact Hst).
  rewrite Hfs1.
  unfold bindM, print, time_sleep, with_event, with_events, with_files.
  cbn [files trace server]. rewrite <- !app_assoc. reflexivity.
Qed.

(** Any other status with the output folder missing: [open] raises, and the
    exception is not a RequestException. *)
Lemma fetch_unwritable (r : response) :
  outcome = Responds r -> is_error_status (status_code r) = false ->
  assoc (fst output_file) (files w) = None ->
  fetch_osm_by_bbox bbox output_file w
  = (Raise (FileNotFoundError (fst output_file)),
     with_events [Print (FetchingArea bbox); Post bbox] w).
Proof.
  intros Ho Hs Hd. unfold fetch_osm_by_bbox, try_except_RequestException.
  unfold bindM at 1. unfold print at 1.
  unfold bindM at 1. rewrite requests_post_after_print, Ho.
  unfold bindM at 1. unfold raise_for_status. rewrite Hs. unfold ret.
  unfold bindM at 1. unfold open_w, fs_store. cbn [files with_events].
  rewrite Hd. reflexivity.
Qed.

End Fetch.

(** Whatever the server does, the call returns when the folder of the output
    file exists, having sent exactly one request. *)
Lemma fetch_osm_by_bbox_returns (bbox : @Rectangle float) (output_file : path) (w : world) :
  assoc (fst output_file) (files w) <> None ->
  exists w',
    fetch_osm_by_bbox bbox output_file w = (Ok tt, w') /\
    posts (trace w') = (posts (trace w) ++ [bbox])%list /\
    (forall d, d <> fst output_file -> assoc d (files w') = assoc d (files w)) /\
    assoc (fst output_file) (files w') <> None /\
    server w' = server w.
Proof.
  intros Hd.
  destruct (server w (List.length (posts (trace w))) bbox) as [r|] eqn:Ho.
  - destruct (is_error_status (status_code r)) eqn:Hs.
    + rewrite (fetch_error_status bbox output_file w r Ho Hs).
      eexists. split; [reflexivity|]. unfold with_events. cbn [files trace server].
      rewrite posts_app. cbn [posts]. auto.
    + destruct (fs_store_ok (files w) output_file (text r) Hd) as (fs & Hfs).
      rewrite (fetch_saved bbox output_file w r fs Ho Hs Hfs).
      eexists. split; [reflexivity|].
      unfold with_events, with_files. cbn [files trace server].
      rewrite posts_app. cbn [posts]. repeat split.
      * intros d Hne. eapply fs_store_other_folder; eauto.
      * eapply fs_store_folder_kept; eauto.
  - rewrite (fetch_transport_failure bbox output_file w Ho).
    eexists. split; [reflexivity|]. unfold with_events. cbn [files trace server].
    rewrite posts_app. cbn [posts]. auto.
Qed.

(** ** main *)

Lemma fetch_loop_run (bboxes : list (@Rectangle float)) (start : nat) (w : world) :
  assoc output_folder (files w) <> None ->
  exists w',
    for_each (enumerate_from start bboxes)
             (fun ib => fetch_osm_by_bbox (snd ib) (part_file (fst ib))) w
    = (Ok tt, w') /\
    posts (trace w') = (posts (trace w) ++ bboxes)%list /\
    (forall d, d <> output_folder -> assoc d (files w') = assoc d (files w)) /\
    assoc output_folder (files w') <> None /\
    server w' = server w.
Proof.
  revert start w. induction bboxes as [|bbox bboxes IH]; intros start w Hd.
  - exists w. cbn. rewrite app_nil_r. auto.
  - cbn [enumerate_from for_each fst snd].
    destruct (fetch_osm_by_bbox_returns bbox (part_file start) w Hd)
      as (w1 & H1 & P1 & F1 & D1 & S1).
    destruct (IH (S start) w1 D1) as (w2 & H2 & P2 & F2 & D2 & S2).
    exists w2. split; [run_step H1; exact H2|].
    repeat split.
    + rewrite P2, P1, <- app_assoc. reflexivity.
    + intros d Hne. rewrite F2, F1; auto.
    + exact D2.
    + congruence.
Qed.

(** The grid of the driver: 11 rows of 16 columns. *)
Lemma main_bboxes :
  divide_area_to_bboxes 22.5%float 23.5%float 112.5%float 114.0%float 0.1%float
  = Ok (lat_loop 22.5%float 23.5%float 112.5%float 114.0%float 0.1%float 11 16 []).
Proof.
  rewrite divide_area_to_bboxes_unfold.
  replace (grid_steps 22.5%float 23.5%float 0.1%float) with (@Ok Z 11)
    by (vm_compute; reflexivity).
  replace (grid_steps 112.5%float 114.0%float 0.1%float) with (@Ok Z 16)
    by (vm_compute; reflexivity).
  reflexivity.
Qed.

Lemma assoc_app_l {V : Type} (k : string) (l l' : list (string * V)) :
  assoc k l <> None -> assoc k (l ++ l')%list = assoc k l.
Proof.
  induction l as [|[k' v'] l IH]; simpl; [contradiction|].
  destruct (String.eqb k k'); auto.
Qed.

Lemma assoc_app_new {V : Type} (k : string) (v : V) (l : list (string * V)) :
  assoc k l = None -> assoc k (l ++ [(k, v)])%list = Some v.
Proof.
  induction l as [|[k' v'] l IH]; simpl.
  - now rewrite String.eqb_refl.
  - destruct (String.eqb k k'); [discriminate | auto].
Qed.

(** The run of [main] from any world in which the working directory exists. *)
Lemma main_run (w : world) :
  assoc cwd (files w) <> None ->
  exists (bboxes : list (@Rectangle float)) (w' : world) (body : string),
    divide_area_to_bboxes 22.5%float 23.5%float 112.5%float 114.0%float 0.1%float
    = Ok bboxes /\
    List.length bboxes = 176%nat /\
    main w = (Ok tt, w') /\
    posts (trace w') = (posts (trace w) ++ bboxes)%list /\
    last (trace w') (Sleep 0) = Print (MergeDone final_output_file) /\
    fs_read (files w') final_output_file
    = Some (xml_declaration ++ osm_open_tag ++ body ++ osm_close_tag).
Proof.
  intros Hcwd.
  set (bboxes := lat_loop 22.5%float 23.5%float 112.5%float 114.0%float 0.1%float 11 16 []).
  (* the output folder, created when missing *)
  set (present := match assoc output_folder (files w) with Some _ => true | None => false end).
  assert (E : os_path_exists output_folder w = (Ok present, w)) by reflexivity.
  assert (Hmk : exists w1,
             (if negb present then os_makedirs output_folder else ret tt) w = (Ok tt, w1) /\
             assoc output_folder (files w1) <> None /\
             assoc cwd (files w1) <> None /\
             trace w1 = trace w /\ server w1 = server w).
  { unfold present, os_makedirs, ret.
    destruct (assoc output_folder (files w)) as [entries|] eqn:Hd; cbn [negb].
    - exists w. repeat split; auto. rewrite Hd. discriminate.
    - rewrite Hd. eexists. split; [reflexivity|].
      unfold with_files. cbn [files trace server]. repeat split.
      + rewrite (assoc_app_new _ _ _ Hd). discriminate.
      + now rewrite assoc_app_l. }
  destruct Hmk as (w1 & H1 & D1 & C1 & T1 & S1).
  destruct (fetch_loop_run bboxes 0 w1 D1) as (w2 & H2 & P2 & F2 & D2 & S2).
  destruct (assoc output_folder (files w2)) as [entries|] eqn:E2; [|contradiction].
  assert (Hfresh : ~ In final_output_file
                     (map (os_path_join output_folder)
                          (filter (fun f => endswith f ".osm") (map fst entries)))).
  { intros Hi. apply in_map_iff in Hi as (name & Heq & _). discriminate. }
  assert (C2 : assoc (fst final_output_file) (files w2) <> None).
  { cbn [final_output_file in_cwd fst]. rewrite F2; [exact C1 | discriminate]. }
  destruct (merge_osm_files_run output_folder final_output_file w2 entries E2 C2 Hfresh)
    as (w3 & H3 & R3 & _ & T3 & _).
  exists bboxes, w3. eexists. split; [apply main_bboxes|]. split.
  { unfold bboxes. now rewrite lat_loop_length. }
  split.
  - assert (L : lift (divide_area_to_bboxes 22.5%float 23.5%float 112.5%float
                                             114.0%float 0.1%float) w
                 = (Ok bboxes, w))
      by (rewrite main_bboxes; reflexivity).
    unfold main. run_step L. run_step E. run_step H1. run_step H2. exact H3.
  - split; [|split].
    + rewrite T3, posts_app, P2, T1. cbn [posts]. now rewrite app_nil_r.
    + rewrite T3. apply last_last.
    + exact R3.
Qed.

(** ** What a failed request leaves behind *)

(** C7, refuted as stated: the request fails at the transport level; a
    network call was made and the function returns without any pause. *)
Lemma fetch_failure_does_not_pause :
  let w' := snd (fetch_osm_by_bbox (22.5, 112.5, 22.6, 112.6)%float
                   (os_path_join "osm_data" "guangzhou_part_1.osm") sample_world) in
  trace w' = [Print (FetchingArea (22.5, 112.5, 22.6, 112.6)%float);
              Post (22.5, 112.5, 22.6, 112.6)%float;
              Print (RequestFailed ConnectionError)] /\
  ~ In (Sleep 2) (trace w').
Proof.
  split; [reflexivity|]. cbn. intros [H|[H|[H|[]]]]; discriminate.
Qed.

(** C7, amended.  For every rectangle, destination and world,
    [fetch_osm_by_bbox] pauses for 2 seconds only on the success path, as its
    last action after the response has been saved; when the request fails
    (transport failure, or a 4xx or 5xx status) it logs the error and returns
    without pausing. *)
Theorem fetch_pauses_only_after_saving
    (bbox : @Rectangle float) (output_file : path) (w : world) :
  let w' := snd (fetch_osm_by_bbox bbox output_file w) in
  match server w (List.length (posts (trace w))) bbox with
  | TransportFailure =>
      trace w' = (trace w ++ [Print (FetchingArea bbox); Post bbox;
                              Print (RequestFailed ConnectionError)])%list
  | Responds r =>
      if is_error_status (status_code r) then
        trace w' = (trace w ++ [Print (FetchingArea bbox); Post bbox;
                                Print (RequestFailed (HTTPError (status_code r)))])%list
      else
        assoc (fst output_file) (files w) <> None ->
        trace w' = (trace w ++ [Print (FetchingArea bbox); Post bbox;
                                Print (AreaSaved bbox output_file); Sleep 2])%list
  end.
Proof.
  cbv zeta.
  destruct (server w (List.length (posts (trace w))) bbox) as [r|] eqn:Ho.
  - destruct (is_error_status (status_code r)) eqn:Hs.
    + now rewrite (fetch_error_status bbox output_file w r Ho Hs).
    + intros Hd. destruct (fs_store_ok (files w) output_file (text r) Hd) as (fs & Hfs).
      now rewrite (fetch_saved bbox output_file w r fs Ho Hs Hfs).
  - now rewrite (fetch_transport_failure bbox output_file w Ho).
Qed.

Lemma fetch_pauses_only_after_saving_witness :
  trace (snd (fetch_osm_by_bbox (22.5, 112.5, 22.6, 112.6)%float
                (os_path_join "osm_data" "guangzhou_part_1.osm") replying_world))
  = ([] ++ [Print (FetchingArea (22.5, 112.5, 22.6, 112.6)%float);
            Post (22.5, 112.5, 22.6, 112.6)%float;
            Print (AreaSaved (22.5, 112.5, 22.6, 112.6)%float
                             (os_path_join "osm_data" "guangzhou_part_1.osm"));
            Sleep 2])%list.
Proof.
  apply (fetch_pauses_only_after_saving (22.5, 112.5, 22.6, 112.6)%float
           (os_path_join "osm_data" "guangzhou_part_1.osm") replying_world).
  vm_compute. discriminate.
Defined.

(** C8, refuted as stated: 304 is not a 2xx status, yet no error is logged;
    the (empty) body is saved as if the request had succeeded. *)
Lemma fetch_non_2xx_status_not_logged :
  is_2xx 304 = false /\
  fetch_osm_by_bbox (22.5, 112.5, 22.6, 112.6)%float
    (os_path_join "osm_data" "guangzhou_part_1.osm") not_modified_world
  = (Ok tt,
     {| files := [(".", []); ("osm_data", [("guangzhou_part_1.osm", "")])];
        trace := [Print (FetchingArea (22.5, 112.5, 22.6, 112.6)%float);
                  Post (22.5, 112.5, 22.6, 112.6)%float;
                  Print (AreaSaved (22.5, 112.5, 22.6, 112.6)%float
                                   (os_path_join "osm_data" "guangzhou_part_1.osm"));
                  Sleep 2];
        server := server not_modified_world |}).
Proof. split; reflexivity. Qed.

(** C8, amended.  For every rectangle and destination, if the network call
    suffers a transport-layer failure or returns a 4xx or 5xx status,
    [fetch_osm_by_bbox] logs the error and returns normally; and from every
    world in which the working directory exists, whatever the server replies
    to each request, [main] returns normally after requesting every rectangle
    of the grid in order and running the final merge. *)
Theorem fetch_failure_is_logged_and_main_goes_on :
  (forall (bbox : @Rectangle float) (output_file : path) (w : world),
      (server w (List.length (posts (trace w))) bbox = TransportFailure \/
       exists r, server w (List.length (posts (trace w))) bbox = Responds r /\
                 is_error_status (status_code r) = true) ->
      exists e : exn,
        fetch_osm_by_bbox bbox output_file w
        = (Ok tt, with_events [Print (FetchingArea bbox); Post bbox;
                               Print (RequestFailed e)] w))
  /\
  (forall w : world,
      assoc cwd (files w) <> None ->
      exists (bboxes : list (@Rectangle float)) (w' : world) (body : string),
        divide_area_to_bboxes 22.5%float 23.5%float 112.5%float 114.0%float 0.1%float
        = Ok bboxes /\
        main w = (Ok tt, w') /\
        posts (trace w') = (posts (trace w) ++ bboxes)%list /\
        last (trace w') (Sleep 0) = Print (MergeDone final_output_file) /\
        fs_read (files w') final_output_file
        = Some (xml_declaration ++ osm_open_tag ++ body ++ "</osm>")).
Proof.
  split.
  - intros bbox output_file w [Ho|(r & Ho & Hs)].
    + exists ConnectionError. now apply fetch_transport_failure.
    + exists (HTTPError (status_code r)). now apply fetch_error_status.
  - intros w Hcwd.
    destruct (main_run w Hcwd) as (bboxes & w' & body & Hb & _ & Hm & Hp & Hl & Hr).
    exists bboxes, w', body. auto.
Qed.

Lemma fetch_failure_is_logged_and_main_goes_on_witness :
  (exists e : exn,
      fetch_osm_by_bbox (22.5, 112.5, 22.6, 112.6)%float
        (os_path_join "osm_data" "guangzhou_part_1.osm") sample_world
      = (Ok tt, with_events [Print (FetchingArea (22.5, 112.5, 22.6, 112.6)%float);
                             Post (22.5, 112.5, 22.6, 112.6)%float;
                             Print (RequestFailed e)] sample_world))
  /\
  (exists (bboxes : list (@Rectangle float)) (w' : world) (body : string),
      divide_area_to_bboxes 22.5%float 23.5%float 112.5%float 114.0%float 0.1%float
      = Ok bboxes /\
      main flaky_world = (Ok tt, w') /\
      posts (trace w') = (posts (trace flaky_world) ++ bboxes)%list /\
      last (trace w') (Sleep 0) = Print (MergeDone final_output_file) /\
      fs_read (files w') final_output_file
      = Some (xml_declaration ++ osm_open_tag ++ body ++ "</osm>")).
Proof.
  split.
  - apply (proj1 fetch_failure_is_logged_and_main_goes_on). left. reflexivity.
  - apply (proj2 fetch_failure_is_logged_and_main_goes_on flaky_world).
    vm_compute. discriminate.
Defined.

(** The scenario of the specification: the third of five requests fails; the
    merged document holds the other four bodies. *)
Example failure_on_cell_3_of_5 :
  let bboxes := firstn 5 (lat_loop 22.5 23.5 112.5 114.0 0.1 11 16 [])%float in
  let w' := snd ((fetch_all bboxes ;;; merge_osm_files output_folder final_output_file)
                   third_fails_world) in
  List.length (posts (trace w')) = 5%nat /\
  fs_read (files w') final_output_file
  = Some (xml_declaration ++ osm_open_tag
          ++ "<node id=1/>" ++ nl ++ "<node id=2/>" ++ nl
          ++ "<node id=4/>" ++ nl ++ "<node id=5/>" ++ nl ++ "</osm>").
Proof. vm_compute. split; reflexivity. Qed.

(** C9, refuted as stated: with the non-2xx status 304 the destination file,
    absent before the call, exists after it. *)
Lemma fetch_non_2xx_status_writes_file :
  is_2xx 304 = false /\
  fs_read (files not_modified_world) (os_path_join "osm_data" "guangzhou_part_1.osm")
  = None /\
  fs_read (files (snd (fetch_osm_by_bbox (22.5, 112.5, 22.6, 112.6)%float
                         (os_path_join "osm_data" "guangzhou_part_1.osm")
                         not_modified_world)))
          (os_path_join "osm_data" "guangzhou_part_1.osm")
  = Some "".
Proof. repeat split; reflexivity. Qed.

(** C9, amended.  For every rectangle and destination, if the request fails
    (transport failure, or a 4xx or 5xx status, the statuses that
    raise_for_status rejects), the file system after the call is the file
    system before it: the destination is neither created nor modified. *)
Theorem fetch_failure_leaves_files
    (bbox : @Rectangle float) (output_file : path) (w : world) :
  (server w (List.length (posts (trace w))) bbox = TransportFailure \/
   exists r, server w (List.length (posts (trace w))) bbox = Responds r /\
             is_error_status (status_code r) = true) ->
  files (snd (fetch_osm_by_bbox bbox output_file w)) = files w /\
  fs_read (files (snd (fetch_osm_by_bbox bbox output_file w))) output_file
  = fs_read (files w) output_file.
Proof.
  intros [Ho|(r & Ho & Hs)].
  - now rewrite (fetch_transport_failure bbox output_file w Ho).
  - now rewrite (fetch_error_status bbox output_file w r Ho Hs).
Qed.

Lemma fetch_failure_leaves_files_witness :
  files (snd (fetch_osm_by_bbox (22.5, 112.5, 22.6, 112.6)%float
                (os_path_join "osm_data" "part_1.osm") forbidden_world))
  = files forbidden_world /\
  fs_read (files (snd (fetch_osm_by_bbox (22.5, 112.5, 22.6, 112.6)%float
                         (os_path_join "osm_data" "part_1.osm") forbidden_world)))
          (os_path_join "osm_data" "part_1.osm")
  = fs_read (files forbidden_world) (os_path_join "osm_data" "part_1.osm").
Proof.
  apply (fetch_failure_leaves_files (22.5, 112.5, 22.6, 112.6)%float
           (os_path_join "osm_data" "part_1.osm") forbidden_world).
  right. eexists. split; reflexivity.
Defined.

(** * Further properties of the tiler *)

(** X1. Whatever the numeric type, on every grid the function returns, a tile
    that has a tile above it ends, on the latitude axis, at
    min(start of the tile above, max_lat), and a tile that has a tile to its
    right ends, on the longitude axis, at min(start of the tile to the right,
    max_lon), in the arguments' own arithmetic: a tile ends where its
    neighbour starts unless the input maximum is smaller, and then it ends at
    the input maximum (on floats the neighbour can start above that maximum,
    as row 17 of the grid (0, 1.7, 0, 1.7, 0.1) does). *)
Theorem divide_area_neighbours_abut {T : Type} `{PyNumber T}
    (min_lat max_lat min_lon max_lon step : T)
    (tiles : list Rectangle) (row_count col_count : Z) :
  divide_area_to_bboxes min_lat max_lat min_lon max_lon step = Ok tiles ->
  grid_steps min_lat max_lat step = Ok row_count ->
  grid_steps min_lon max_lon step = Ok col_count ->
  (forall i j : nat,
      (S i < Z.to_nat row_count)%nat -> (j < Z.to_nat col_count)%nat ->
      exists r above : Rectangle,
        nth_error tiles (i * Z.to_nat col_count + j) = Some r /\
        nth_error tiles (S i * Z.to_nat col_count + j) = Some above /\
        bb_max_lat r = py_min (bb_min_lat above) max_lat) /\
  (forall i j : nat,
      (i < Z.to_nat row_count)%nat -> (S j < Z.to_nat col_count)%nat ->
      exists r right : Rectangle,
        nth_error tiles (i * Z.to_nat col_count + j) = Some r /\
        nth_error tiles (i * Z.to_nat col_count + S j) = Some right /\
        bb_max_lon r = py_min (bb_min_lon right) max_lon).
Proof.
  intros Hd Hr Hc. rewrite divide_area_to_bboxes_unfold, Hr, Hc in Hd.
  injection Hd as <-. split; intros i j Hi Hj.
  - do 2 eexists. rewrite !lat_loop_nth by lia.
    repeat split. unfold bbox_at, bb_max_lat, bb_min_lat. cbn [fst snd].
    now rewrite Nat2Z.inj_succ.
  - do 2 eexists. rewrite !lat_loop_nth by lia.
    repeat split. unfold bbox_at, bb_max_lon, bb_min_lon. cbn [fst snd].
    now rewrite Nat2Z.inj_succ.
Qed.

Lemma divide_area_neighbours_abut_witness :
  (forall i j : nat,
      (S i < Z.to_nat 18)%nat -> (j < Z.to_nat 18)%nat ->
      exists r above : @Rectangle float,
        nth_error (lat_loop 0 1.7 0 1.7 0.1 18 18 [])%float (i * Z.to_nat 18 + j) = Some r /\
        nth_error (lat_loop 0 1.7 0 1.7 0.1 18 18 [])%float (S i * Z.to_nat 18 + j)
        = Some above /\
        bb_max_lat r = py_min (bb_min_lat above) 1.7%float) /\
  (forall i j : nat,
      (i < Z.to_nat 18)%nat -> (S j < Z.to_nat 18)%nat ->
      exists r right : @Rectangle float,
        nth_error (lat_loop 0 1.7 0 1.7 0.1 18 18 [])%float (i * Z.to_nat 18 + j) = Some r /\
        nth_error (lat_loop 0 1.7 0 1.7 0.1 18 18 [])%float (i * Z.to_nat 18 + S j)
        = Some right /\
        bb_max_lon r = py_min (bb_min_lon right) 1.7%float).
Proof.
  apply (divide_area_neighbours_abut 0%float 1.7%float 0%float 1.7%float 0.1%float
           (lat_loop 0 1.7 0 1.7 0.1 18 18 [])%float 18 18).
  - rewrite divide_area_to_bboxes_unfold.
    replace (grid_steps 0%float 1.7%float 0.1%float) with (@Ok Z 18)
      by (vm_compute; reflexivity).
    reflexivity.
  - vm_compute. reflexivity.
  - vm_compute. reflexivity.
Defined.

(** On that grid the tile at row 16 ends at the input maximum 1.7, below the
    start 1.7000000000000002 of the tile above it. *)
Example divide_area_last_rows_of_float_grid :
  nth_error (lat_loop 0 1.7 0 1.7 0.1 18 18 [])%float (16 * 18 + 0)
  = Some (1.6, 0, 1.7, 0.1)%float /\
  nth_error (lat_loop 0 1.7 0 1.7 0.1 18 18 [])%float (17 * 18 + 0)
  = Some (1.7000000000000002, 0, 1.7, 0.1)%float.
Proof. split; vm_compute; reflexivity. Qed.

(** X2. On floats, a valid input (min <= max on both axes, step > 0) never
    yields an empty grid: when the function returns there is at least one row
    and one column, hence at least one tile. *)
Theorem divide_area_never_empty (min_lat max_lat min_lon max_lon step : float)
    (tiles : list (@Rectangle float)) :
  PrimFloat.leb min_lat max_lat = true ->
  PrimFloat.leb min_lon max_lon = true ->
  PrimFloat.ltb 0 step = true ->
  divide_area_to_bboxes min_lat max_lat min_lon max_lon step = Ok tiles ->
  exists row_count col_count : Z,
    grid_steps min_lat max_lat step = Ok row_count /\
    grid_steps min_lon max_lon step = Ok col_count /\
    1 <= row_count /\ 1 <= col_count /\ (1 <= List.length tiles)%nat.
Proof.
  intros Hlat Hlon Hstep Hd. rewrite divide_area_to_bboxes_unfold in Hd.
  pose proof (float_grid_steps _ _ _ Hlat Hstep) as Glat.
  pose proof (float_grid_steps _ _ _ Hlon Hstep) as Glon.
  destruct (grid_steps min_lat max_lat step) as [rows|e]; [|discriminate].
  destruct (grid_steps min_lon max_lon step) as [cols|e]; [|discriminate].
  injection Hd as <-. destruct Glat as [_ Hr], Glon as [_ Hc].
  exists rows, cols. repeat split; try assumption.
  rewrite lat_loop_length. nia.
Qed.

Lemma divide_area_never_empty_witness :
  exists row_count col_count : Z,
    grid_steps 5%float 5%float 0.1%float = Ok row_count /\
    grid_steps 7%float 7%float 0.1%float = Ok col_count /\
    1 <= row_count /\ 1 <= col_count /\
    (1 <= List.length [(5, 7, 5, 7)%float])%nat.
Proof.
  apply (divide_area_never_empty 5%float 5%float 7%float 7%float 0.1%float
           [(5, 7, 5, 7)%float]); vm_compute; reflexivity.
Defined.

(** ** Exceptions of the float run *)

Lemma Prim2SF_nan (x : float) : PrimFloat.is_nan x = true -> Prim2SF x = S754_nan.
Proof. intros Hn. unfold Prim2SF. now rewrite Hn. Qed.

Lemma float_int_exceptions (q : float) (e : exn) :
  float_int q = Raise e -> e = OverflowError \/ e = ValueError.
Proof.
  unfold float_int. destruct (Prim2SF q); intros [= <-]; auto.
Qed.

Lemma float_grid_steps_exceptions (lo hi step : float) :
  (PrimFloat.eqb step 0 = true -> grid_steps lo hi step = Raise ZeroDivisionError) /\
  (PrimFloat.eqb step 0 = false ->
   forall e, grid_steps lo hi step = Raise e -> e = OverflowError \/ e = ValueError) /\
  (PrimFloat.eqb step 0 = false ->
   PrimFloat.is_nan lo = true \/ PrimFloat.is_nan hi = true ->
   grid_steps lo hi step = Raise ValueError).
Proof.
  unfold grid_steps. cbn [py_truediv py_sub py_int PyNumber_float]. unfold float_truediv.
  repeat split.
  - intros ->. reflexivity.
  - intros -> e. cbn [bind].
    destruct (float_int _) eqn:Hq; cbn [bind]; [discriminate|].
    intros [= <-]. eapply float_int_exceptions; eauto.
  - intros -> Hnan. cbn [bind]. unfold float_int.
    rewrite div_spec, sub_spec.
    assert (Hs : SF64sub (Prim2SF hi) (Prim2SF lo) = S754_nan).
    { destruct Hnan as [Hn|Hn]; rewrite (Prim2SF_nan _ Hn).
      - destruct (Prim2SF hi); reflexivity.
      - reflexivity. }
    rewrite Hs. reflexivity.
Qed.

(** X3. On floats: a zero step (0.0 or -0.0) makes the function raise
    ZeroDivisionError, whatever the bounds; with a non-zero step it never
    raises that, only OverflowError or ValueError (from [int()] of a quotient
    that is infinite or NaN), and a NaN latitude bound raises ValueError. *)
Theorem divide_area_exceptions (min_lat max_lat min_lon max_lon step : float) :
  (PrimFloat.eqb step 0 = true ->
   divide_area_to_bboxes min_lat max_lat min_lon max_lon step = Raise ZeroDivisionError) /\
  (PrimFloat.eqb step 0 = false ->
   forall e, divide_area_to_bboxes min_lat max_lat min_lon max_lon step = Raise e ->
             e = OverflowError \/ e = ValueError) /\
  (PrimFloat.eqb step 0 = false ->
   PrimFloat.is_nan min_lat = true \/ PrimFloat.is_nan max_lat = true ->
   divide_area_to_bboxes min_lat max_lat min_lon max_lon step = Raise ValueError).
Proof.
  rewrite divide_area_to_bboxes_unfold.
  destruct (float_grid_steps_exceptions min_lat max_lat step) as (Z1 & E1 & N1).
  destruct (float_grid_steps_exceptions min_lon max_lon step) as (Z2 & E2 & _).
  repeat split.
  - intros Hz. now rewrite (Z1 Hz).
  - intros Hz e.
    destruct (grid_steps min_lat max_lat step) as [rows|e1].
    + destruct (grid_steps min_lon max_lon step) as [cols|e2]; [discriminate|].
      intros [= <-]. now apply E2.
    + intros [= <-]. now apply E1.
  - intros Hz Hnan. now rewrite (N1 Hz Hnan).
Qed.

Lemma divide_area_exceptions_witness :
  (divide_area_to_bboxes 22.5%float 23.5%float 112.5%float 114.0%float (-0)%float
   = Raise ZeroDivisionError) /\
  (forall e, divide_area_to_bboxes (-1e308)%float 1e308%float 0%float 1%float 0.1%float
             = Raise e -> e = OverflowError \/ e = ValueError) /\
  (divide_area_to_bboxes PrimFloat.nan 1%float 0%float 1%float 0.1%float = Raise ValueError).
Proof.
  split; [|split].
  - apply (proj1 (divide_area_exceptions 22.5 23.5 112.5 114.0 (-0))%float). reflexivity.
  - apply (proj1 (proj2 (divide_area_exceptions (-1e308) 1e308 0 1 0.1)%float)). reflexivity.
  - apply (proj2 (proj2 (divide_area_exceptions PrimFloat.nan 1 0 1 0.1)%float)).
    + reflexivity.
    + left. reflexivity.
Defined.

Example divide_area_overflow :
  divide_area_to_bboxes (-1e308)%float 1e308%float 0%float 1%float 0.1%float
  = Raise OverflowError.
Proof. vm_compute. reflexivity. Qed.

(** ** The south-west corner *)

Lemma SFeqb_refl (x : spec_float) : x <> S754_nan -> SFeqb x x = true.
Proof.
  unfold SFeqb. intros Hx.
  destruct x as [s|s| |s m e]; try destruct s; simpl; try reflexivity;
    try contradiction;
    rewrite Z.compare_refl, Pos.compare_cont_refl; reflexivity.
Qed.

(** [x + 0 * step == x] for a positive finite step and a number [x]. *)
Lemma float_add_zero_steps (x step : float) :
  PrimFloat.leb x x = true ->
  PrimFloat.ltb 0 step = true -> PrimFloat.ltb step infinity = true ->
  PrimFloat.eqb (PrimFloat.add x (PrimFloat.mul (float_of_int 0) step)) x = true.
Proof.
  intros Hx H0 Hfin.
  change (float_of_int 0) with 0%float.
  rewrite eqb_spec, add_spec, mul_spec.
  rewrite leb_spec in Hx. rewrite ltb_spec in H0, Hfin.
  change (Prim2SF 0) with (S754_zero false) in *.
  change (Prim2SF infinity) with (S754_infinity false) in *.
  destruct (Prim2SF step) as [s|s| |s m e]; try destruct s; try discriminate.
  cbn [SF64mul SFmul xorb].
  destruct (Prim2SF x) as [sx|sx| |sx mx ex]; try discriminate.
  - destruct sx; reflexivity.
  - destruct sx; reflexivity.
  - cbn [SF64add SFadd]. apply SFeqb_refl. discriminate.
Qed.

(** X4. On floats, for a valid input with a finite step, the grid is anchored
    at the south-west corner of the area: the first tile of the result starts
    at (min_lat, min_lon), with no rounding. *)
Theorem divide_area_first_tile_corner (min_lat max_lat min_lon max_lon step : float)
    (tiles : list (@Rectangle float)) :
  PrimFloat.leb min_lat max_lat = true ->
  PrimFloat.leb min_lon max_lon = true ->
  PrimFloat.ltb 0 step = true ->
  PrimFloat.ltb step infinity = true ->
  divide_area_to_bboxes min_lat max_lat min_lon max_lon step = Ok tiles ->
  exists r : @Rectangle float,
    nth_error tiles 0 = Some r /\
    PrimFloat.eqb (bb_min_lat r) min_lat = true /\
    PrimFloat.eqb (bb_min_lon r) min_lon = true.
Proof.
  intros Hlat Hlon Hstep Hfin Hd. rewrite divide_area_to_bboxes_unfold in Hd.
  pose proof (float_grid_steps _ _ _ Hlat Hstep) as Glat.
  pose proof (float_grid_steps _ _ _ Hlon Hstep) as Glon.
  destruct (grid_steps min_lat max_lat step) as [rows|e]; [|discriminate].
  destruct (grid_steps min_lon max_lon step) as [cols|e]; [|discriminate].
  injection Hd as <-. destruct Glat as [_ Hr], Glon as [_ Hc].
  exists (bbox_at min_lat max_lat min_lon max_lon step 0 0). split.
  - apply (lat_loop_nth min_lat max_lat min_lon max_lon step rows cols 0 0); lia.
  - assert (Nlat : PrimFloat.leb min_lat min_lat = true).
    { rewrite leb_spec in *. unfold SFleb in *.
      destruct (Prim2SF min_lat) as [s|s| |s m e]; try destruct s; simpl in *;
        try reflexivity; try discriminate;
        try (destruct (Prim2SF max_lat); discriminate);
        rewrite Z.compare_refl, Pos.compare_cont_refl; reflexivity. }
    assert (Nlon : PrimFloat.leb min_lon min_lon = true).
    { rewrite leb_spec in *. unfold SFleb in *.
      destruct (Prim2SF min_lon) as [s|s| |s m e]; try destruct s; simpl in *;
        try reflexivity; try discriminate;
        try (destruct (Prim2SF max_lon); discriminate);
        rewrite Z.compare_refl, Pos.compare_cont_refl; reflexivity. }
    split; now apply float_add_zero_steps.
Qed.

Lemma divide_area_first_tile_corner_witness :
  exists r : @Rectangle float,
    nth_error [ (22.5, 112.5, 22.6, 112.6); (22.5, 112.6, 22.6, 112.7);
                (22.5, 112.7, 22.6, 112.7);
                (22.6, 112.5, 22.7, 112.6); (22.6, 112.6, 22.7, 112.7);
                (22.6, 112.7, 22.7, 112.7) ]%float 0 = Some r /\
    PrimFloat.eqb (bb_min_lat r) 22.5%float = true /\
    PrimFloat.eqb (bb_min_lon r) 112.5%float = true.
Proof.
  apply (divide_area_first_tile_corner 22.5%float 22.7%float 112.5%float 112.7%float
           0.1%float); vm_compute; reflexivity.
Defined.

(** With an infinite step the corner is lost: 0 * inf is NaN. *)
Example divide_area_infinite_step :
  divide_area_to_bboxes 0%float 1%float 0%float 1%float infinity
  = Ok [(PrimFloat.nan, PrimFloat.nan, 1%float, 1%float)].
Proof. vm_compute. reflexivity. Qed.

(** ** The shape of the exact grid *)

Lemma Q_py_min_cases (a b : Q) :
  ((a <= b)%Q -> py_min a b = a) /\ ((b <= a)%Q -> (py_min a b == b)%Q).
Proof.
  unfold py_min. cbn [py_lt PyNumber_Q].
  destruct (Q_lt b a) eqn:Hlt.
  - apply Q_lt_iff in Hlt. split; intros; [lra | reflexivity].
  - apply Q_lt_false_iff in Hlt. split; intros; [reflexivity | lra].
Qed.

(** X5. With exact arithmetic and a valid input, every row below the last one
    is exactly [step] high, and the last row, number
    floor((max_lat - min_lat) / step), starts within the range and ends exactly
    at max_lat; the same for columns.  The grid thus covers the area up to its
    bounds and not beyond. *)
Theorem divide_area_exact_shape (min_lat max_lat min_lon max_lon step : Q) :
  (min_lat <= max_lat)%Q -> (min_lon <= max_lon)%Q -> (0 < step)%Q ->
  let n_lat := Qfloor ((max_lat - min_lat) / step) in
  let n_lon := Qfloor ((max_lon - min_lon) / step) in
  exists tiles : list (@Rectangle Q),
    divide_area_to_bboxes min_lat max_lat min_lon max_lon step = Ok tiles /\
    List.length tiles = (Z.to_nat (n_lat + 1) * Z.to_nat (n_lon + 1))%nat /\
    forall i j : nat,
      Z.of_nat i <= n_lat -> Z.of_nat j <= n_lon ->
      exists r : @Rectangle Q,
        nth_error tiles (i * Z.to_nat (n_lon + 1) + j) = Some r /\
        (Z.of_nat i < n_lat -> (bb_max_lat r == bb_min_lat r + step)%Q) /\
        (Z.of_nat i = n_lat -> (bb_min_lat r <= max_lat)%Q /\ (bb_max_lat r == max_lat)%Q) /\
        (Z.of_nat j < n_lon -> (bb_max_lon r == bb_min_lon r + step)%Q) /\
        (Z.of_nat j = n_lon -> (bb_min_lon r <= max_lon)%Q /\ (bb_max_lon r == max_lon)%Q).
Proof.
  intros Hlat Hlon Hstep n_lat n_lon.
  eexists. split; [now apply exact_divide_area|]. split; [apply lat_loop_length|].
  intros i j Hi Hj.
  pose proof (exact_quotient_nonneg min_lat max_lat step Hlat Hstep) as Qlat.
  pose proof (exact_quotient_nonneg min_lon max_lon step Hlon Hstep) as Qlon.
  assert (0 <= n_lat) by (change 0 with (Qfloor 0); now apply Qfloor_resp_le).
  assert (0 <= n_lon) by (change 0 with (Qfloor 0); now apply Qfloor_resp_le).
  exists (bbox_at min_lat max_lat min_lon max_lon step (Z.of_nat i) (Z.of_nat j)).
  split; [apply lat_loop_nth; fold n_lat n_lon; lia|].
  unfold bbox_at, bb_min_lat, bb_min_lon, bb_max_lat, bb_max_lon.
  cbn [fst snd py_add py_mul py_of_int PyNumber_Q].
  assert (Succ : forall lo k, (lo + inject_Z (k + 1) * step == lo + inject_Z k * step + step)%Q)
    by (intros; rewrite inject_Z_plus; ring).
  repeat split.
  - intros Hlt.
    destruct (Q_py_min_cases (min_lat + inject_Z (Z.of_nat i + 1) * step) max_lat) as [-> _].
    + apply Succ.
    + apply exact_row_start_le; [assumption.. | fold n_lat; lia].
  - apply exact_row_start_le; [assumption.. | fold n_lat; lia].
  - subst n_lat. rewrite H1.
    destruct (Q_py_min_cases (min_lat + inject_Z (Qfloor ((max_lat - min_lat) / step) + 1) * step)
                             max_lat) as [_ Hm].
    apply Hm. apply Qlt_le_weak. now apply exact_row_end_gt.
  - intros Hlt.
    destruct (Q_py_min_cases (min_lon + inject_Z (Z.of_nat j + 1) * step) max_lon) as [-> _].
    + apply Succ.
    + apply exact_row_start_le; [assumption.. | fold n_lon; lia].
  - apply exact_row_start_le; [assumption.. | fold n_lon; lia].
  - subst n_lon. rewrite H1.
    destruct (Q_py_min_cases (min_lon + inject_Z (Qfloor ((max_lon - min_lon) / step) + 1) * step)
                             max_lon) as [_ Hm].
    apply Hm. apply Qlt_le_weak. now apply exact_row_end_gt.
Qed.

Lemma divide_area_exact_shape_witness :
  let n_lat := Qfloor (((5#2) - 0) / 1) in
  let n_lon := Qfloor ((1 - 0) / 1) in
  exists tiles : list (@Rectangle Q),
    divide_area_to_bboxes 0%Q (5#2) 0%Q 1%Q 1%Q = Ok tiles /\
    List.length tiles = (Z.to_nat (n_lat + 1) * Z.to_nat (n_lon + 1))%nat /\
    forall i j : nat,
      Z.of_nat i <= n_lat -> Z.of_nat j <= n_lon ->
      exists r : @Rectangle Q,
        nth_error tiles (i * Z.to_nat (n_lon + 1) + j) = Some r /\
        (Z.of_nat i < n_lat -> (bb_max_lat r == bb_min_lat r + 1)%Q) /\
        (Z.of_nat i = n_lat -> (bb_min_lat r <= (5#2))%Q /\ (bb_max_lat r == (5#2))%Q) /\
        (Z.of_nat j < n_lon -> (bb_max_lon r == bb_min_lon r + 1)%Q) /\
        (Z.of_nat j = n_lon -> (bb_min_lon r <= 1)%Q /\ (bb_max_lon r == 1)%Q).
Proof.
  apply (divide_area_exact_shape 0%Q (5#2) 0%Q 1%Q 1%Q); vm_compute; congruence.
Defined.

(** X6. With exact arithmetic, when the latitude range is an exact multiple
    k * step of the step, the function makes k + 1 rows, one more than the
    range needs: every tile of the last row is a zero-height strip lying on
    max_lat. *)
Theorem divide_area_exact_multiple_strip
    (min_lat max_lat min_lon max_lon step : Q) (k : Z) :
  (min_lon <= max_lon)%Q -> (0 < step)%Q -> 0 <= k ->
  (max_lat - min_lat == inject_Z k * step)%Q ->
  exists (tiles : list (@Rectangle Q)) (col_count : Z),
    divide_area_to_bboxes min_lat max_lat min_lon max_lon step = Ok tiles /\
    grid_steps min_lat max_lat step = Ok (k + 1) /\
    grid_steps min_lon max_lon step = Ok col_count /\
    forall j : nat,
      (j < Z.to_nat col_count)%nat ->
      exists r : @Rectangle Q,
        nth_error tiles (Z.to_nat k * Z.to_nat col_count + j) = Some r /\
        (bb_min_lat r == max_lat)%Q /\ (bb_max_lat r == max_lat)%Q.
Proof.
  intros Hlon Hstep Hk Hmul.
  assert (Hlat : (min_lat <= max_lat)%Q).
  { assert (0 <= inject_Z k * step)%Q; [|lra].
    apply Qmult_le_0_compat; [|lra]. change 0%Q with (inject_Z 0). now rewrite <- Zle_Qle. }
  assert (Hq : Qfloor ((max_lat - min_lat) / step) = k).
  { rewrite <- (Qfloor_Z k). apply Qfloor_comp.
    rewrite Hmul. field. lra. }
  exists (lat_loop min_lat max_lat min_lon max_lon step (k + 1)
            (Qfloor ((max_lon - min_lon) / step) + 1) []),
         (Qfloor ((max_lon - min_lon) / step) + 1).
  split; [rewrite exact_divide_area by assumption; now rewrite Hq|].
  split; [rewrite exact_grid_steps by assumption; now rewrite Hq|].
  split; [now apply exact_grid_steps|].
  intros j Hj.
  exists (bbox_at min_lat max_lat min_lon max_lon step (Z.of_nat (Z.to_nat k)) (Z.of_nat j)).
  split; [apply lat_loop_nth; lia|].
  rewrite Z2Nat.id by assumption.
  unfold bbox_at, bb_min_lat, bb_max_lat.
  cbn [fst snd py_add py_mul py_of_int PyNumber_Q].
  split; [lra|].
  destruct (Q_py_min_cases (min_lat + inject_Z (k + 1) * step) max_lat) as [_ Hm].
  apply Hm. rewrite inject_Z_plus. change (inject_Z 1) with 1%Q. lra.
Qed.

Lemma divide_area_exact_multiple_strip_witness :
  exists (tiles : list (@Rectangle Q)) (col_count : Z),
    divide_area_to_bboxes (225#10) (227#10) (1125#10) (1127#10) (1#10) = Ok tiles /\
    grid_steps (225#10) (227#10) (1#10) = Ok (2 + 1) /\
    grid_steps (1125#10) (1127#10) (1#10) = Ok col_count /\
    forall j : nat,
      (j < Z.to_nat col_count)%nat ->
      exists r : @Rectangle Q,
        nth_error tiles (Z.to_nat 2 * Z.to_nat col_count + j) = Some r /\
        (bb_min_lat r == (227#10))%Q /\ (bb_max_lat r == (227#10))%Q.
Proof.
  apply (divide_area_exact_multiple_strip (225#10) (227#10) (1125#10) (1127#10) (1#10) 2).
  - vm_compute. congruence.
  - vm_compute. reflexivity.
  - lia.
  - vm_compute. reflexivity.
Defined.

(** ** A reversed range *)

Lemma Q_int_le_minus_one (q : Q) :
  (q <= -1)%Q -> exists z : Z, Q_int q = Ok z /\ z <= -1.
Proof.
  intros Hq. unfold Q_int. eexists. split; [reflexivity|].
  destruct q as [n d]. unfold Qle in Hq. simpl in *.
  replace n with (- (- n)) by lia. rewrite Z.quot_opp_l by lia.
  assert (1 <= (- n) ÷ Z.pos d); [|lia].
  rewrite Z.quot_div_nonneg by lia.
  apply Z.div_le_lower_bound; lia.
Qed.

Lemma exact_grid_steps_reversed (lo hi step : Q) :
  (0 < step)%Q -> (hi + step <= lo)%Q ->
  exists n : Z, grid_steps lo hi step = Ok n /\ n <= 0.
Proof.
  intros Hstep Hrev. unfold grid_steps, py_truediv, py_sub, py_int, PyNumber_Q.
  rewrite Q_truediv_positive by assumption. cbn [bind].
  destruct (Q_int_le_minus_one ((hi - lo) / step)) as (z & -> & Hz).
  { apply Qle_shift_div_r; [assumption | lra]. }
  cbn [bind]. eexists. split; [reflexivity | lia].
Qed.

Lemma exact_grid_steps_total (lo hi step : Q) :
  (0 < step)%Q -> exists n : Z, grid_steps lo hi step = Ok n.
Proof.
  intros Hstep. unfold grid_steps, py_truediv, py_sub, py_int, PyNumber_Q.
  rewrite Q_truediv_positive by assumption. cbn [bind]. unfold Q_int. cbn [bind].
  eauto.
Qed.

(** X7. The function does not reject a reversed range.  With exact arithmetic
    and step > 0, when max lies at least one step below min on either axis
    the function returns the empty list, without raising. *)
Theorem divide_area_reversed_range_empty (min_lat max_lat min_lon max_lon step : Q) :
  (0 < step)%Q ->
  (max_lat + step <= min_lat)%Q \/ (max_lon + step <= min_lon)%Q ->
  divide_area_to_bboxes min_lat max_lat min_lon max_lon step = Ok [].
Proof.
  intros Hstep Hrev. rewrite divide_area_to_bboxes_unfold.
  destruct (exact_grid_steps_total min_lat max_lat step Hstep) as (rows & Hr).
  destruct (exact_grid_steps_total min_lon max_lon step Hstep) as (cols & Hc).
  rewrite Hr, Hc. f_equal. apply length_zero_iff_nil. rewrite lat_loop_length.
  destruct Hrev as [H|H].
  - destruct (exact_grid_steps_reversed _ _ _ Hstep H) as (n & Hn & Hle).
    rewrite Hr in Hn. injection Hn as ->. lia.
  - destruct (exact_grid_steps_reversed _ _ _ Hstep H) as (n & Hn & Hle).
    rewrite Hc in Hn. injection Hn as ->. lia.
Qed.

Lemma divide_area_reversed_range_empty_witness :
  divide_area_to_bboxes 3%Q 1%Q 0%Q 1%Q (1#2) = Ok [].
Proof.
  apply (divide_area_reversed_range_empty 3%Q 1%Q 0%Q 1%Q (1#2)).
  - vm_compute. reflexivity.
  - left. vm_compute. congruence.
Defined.

(** A reversed range narrower than one step gives one row of inverted tiles. *)
Example divide_area_slightly_reversed :
  divide_area_to_bboxes (1#1) (3#4) 0%Q 0%Q (1#2)
  = Ok [((1 + 0 * (1#2))%Q, (0 + 0 * (1#2))%Q, (3#4), 0%Q)].
Proof. vm_compute. reflexivity. Qed.

(** * Further properties of the fetcher *)

#[local] Open Scope string_scope.

(** X8. Every call of [fetch_osm_by_bbox] sends exactly one request, for its
    own rectangle, whatever the server answers and whether the call returns
    or raises. *)
Theorem fetch_sends_one_request
    (bbox : @Rectangle float) (output_file : path) (w : world) :
  posts (trace (snd (fetch_osm_by_bbox bbox output_file w)))
  = (posts (trace w) ++ [bbox])%list.
Proof.
  destruct (server w (List.length (posts (trace w))) bbox) as [r|] eqn:Ho.
  - destruct (is_error_status (status_code r)) eqn:Hs.
    + rewrite (fetch_error_status bbox output_file w r Ho Hs).
      cbn [snd with_events trace]. rewrite posts_app. reflexivity.
    + destruct (assoc (fst output_file) (files w)) as [entries|] eqn:Hd.
      * destruct (fs_store_ok (files w) output_file (text r)) as (fs & Hfs);
          [congruence|].
        rewrite (fetch_saved bbox output_file w r fs Ho Hs Hfs).
        cbn [snd with_events with_files trace]. rewrite posts_app. reflexivity.
      * rewrite (fetch_unwritable bbox output_file w r Ho Hs Hd).
        cbn [snd with_events trace]. rewrite posts_app. reflexivity.
  - rewrite (fetch_transport_failure bbox output_file w Ho).
    cbn [snd with_events trace]. rewrite posts_app. reflexivity.
Qed.

(** X9. When the server answers with a status that is not 4xx or 5xx and the
    destination folder exists, the call returns normally, the destination
    holds the response text verbatim (whatever it held before) and every
    other file is unchanged. *)
Theorem fetch_success_saves_text
    (bbox : @Rectangle float) (output_file : path) (w : world) (r : response) :
  server w (List.length (posts (trace w))) bbox = Responds r ->
  is_error_status (status_code r) = false ->
  assoc (fst output_file) (files w) <> None ->
  let result := fetch_osm_by_bbox bbox output_file w in
  fst result = Ok tt /\
  fs_read (files (snd result)) output_file = Some (text r) /\
  forall p : path, p <> output_file ->
                   fs_read (files (snd result)) p = fs_read (files w) p.
Proof.
  intros Ho Hs Hd. cbv zeta.
  destruct (fs_store_ok (files w) output_file (text r) Hd) as (fs & Hfs).
  rewrite (fetch_saved bbox output_file w r fs Ho Hs Hfs).
  cbn [fst snd with_files files]. split; [reflexivity|]. split.
  - eapply fs_store_read; eauto.
  - intros p Hp. eapply fs_store_read_other_file; eauto.
Qed.

Lemma fetch_success_saves_text_witness :
  let result := fetch_osm_by_bbox (22.5, 112.5, 22.6, 112.6)%float
                  (os_path_join "osm_data" "part_1.osm") stale_world in
  fst result = Ok tt /\
  fs_read (files (snd result)) (os_path_join "osm_data" "part_1.osm")
  = Some (text {| status_code := 200; text := "new" |}) /\
  forall p : path, p <> os_path_join "osm_data" "part_1.osm" ->
                   fs_read (files (snd result)) p = fs_read (files stale_world) p.
Proof.
  apply (fetch_success_saves_text (22.5, 112.5, 22.6, 112.6)%float
           (os_path_join "osm_data" "part_1.osm") stale_world
           {| status_code := 200; text := "new" |}).
  - reflexivity.
  - reflexivity.
  - vm_compute. discriminate.
Defined.

(** X10. The [except] clause catches request failures only.  When the server
    answers with a passing status but the destination folder does not exist,
    [open] raises FileNotFoundError and the call raises it too: after the
    request was sent, without logging, without pausing and without touching
    any file. *)
Theorem fetch_missing_folder_raises
    (bbox : @Rectangle float) (output_file : path) (w : world) (r : response) :
  server w (List.length (posts (trace w))) bbox = Responds r ->
  is_error_status (status_code r) = false ->
  assoc (fst output_file) (files w) = None ->
  let result := fetch_osm_by_bbox bbox output_file w in
  fst result = Raise (FileNotFoundError (fst output_file)) /\
  files (snd result) = files w /\
  trace (snd result) = (trace w ++ [Print (FetchingArea bbox); Post bbox])%list.
Proof.
  intros Ho Hs Hd. cbv zeta.
  rewrite (fetch_unwritable bbox output_file w r Ho Hs Hd). repeat split.
Qed.

Lemma fetch_missing_folder_raises_witness :
  let result := fetch_osm_by_bbox (22.5, 112.5, 22.6, 112.6)%float
                  (os_path_join "nowhere" "part_1.osm") stale_world in
  fst result = Raise (FileNotFoundError (fst (os_path_join "nowhere" "part_1.osm"))) /\
  files (snd result) = files stale_world /\
  trace (snd result)
  = (trace stale_world ++ [Print (FetchingArea (22.5, 112.5, 22.6, 112.6)%float);
                           Post (22.5, 112.5, 22.6, 112.6)%float])%list.
Proof.
  apply (fetch_missing_folder_raises (22.5, 112.5, 22.6, 112.6)%float
           (os_path_join "nowhere" "part_1.osm") stale_world
           {| status_code := 200; text := "new" |}); reflexivity.
Defined.

(** * Further properties of the merger *)

(** ** Texts and lines *)

Lemma join_cons (l : string) (ls : list string) : join (l :: ls) = l ++ join ls.
Proof. reflexivity. Qed.

Lemma join_app (ls ls' : list string) : join (ls ++ ls') = join ls ++ join ls'.
Proof.
  induction ls as [|l ls IH]; [reflexivity|].
  cbn [app]. rewrite !join_cons. now rewrite IH, string_app_assoc.
Qed.

(** Splitting a text into lines loses nothing. *)
Lemma join_split_lines (s : string) : join (split_lines s) = s.
Proof.
  unfold join. induction s as [|c s IH]; [reflexivity|].
  cbn [split_lines]. destruct (Ascii.eqb c lf_char).
  - cbn [fold_right String.append]. now rewrite IH.
  - destruct (split_lines s) as [|l ls]; cbn [fold_right String.append] in *;
      now rewrite <- IH.
Qed.

Lemma has_char_app (c : ascii) (a b : string) :
  has_char c (a ++ b) = has_char c a || has_char c b.
Proof.
  induction a as [|x a IH]; cbn; [reflexivity|].
  now rewrite IH, orb_assoc.
Qed.

Lemma has_char_join (c : ascii) (ls : list string) :
  has_char c (join ls) = existsb (has_char c) ls.
Proof.
  induction ls as [|l ls IH]; [reflexivity|].
  rewrite join_cons. cbn [existsb]. now rewrite has_char_app, IH.
Qed.

Lemma existsb_filter_false {A : Type} (f g : A -> bool) (l : list A) :
  existsb f l = false -> existsb f (filter g l) = false.
Proof.
  induction l as [|x l IH]; cbn; [reflexivity|].
  intros [Hx Hl]%orb_false_iff. destruct (g x); cbn; [rewrite Hx|]; auto.
Qed.

(** A text without "\r" is read as it is. *)
Lemma universal_newlines_id (s : string) :
  has_char cr_char s = false -> universal_newlines s = s.
Proof.
  induction s as [|c s IH]; [reflexivity|].
  cbn [has_char universal_newlines]. intros [Hc Hs]%orb_false_iff.
  rewrite Hc. now rewrite IH.
Qed.

Lemma universal_newlines_cons (c : ascii) (s : string) :
  universal_newlines (String c s)
  = if Ascii.eqb c cr_char then
      match s with
      | String c' s'' =>
          if Ascii.eqb c' lf_char
          then String lf_char (universal_newlines s'')
          else String lf_char (universal_newlines s)
      | EmptyString => String lf_char EmptyString
      end
    else String c (universal_newlines s).
Proof. destruct s; reflexivity. Qed.

(** A text that was read holds no "\r". *)
Lemma universal_newlines_no_cr (s : string) :
  has_char cr_char (universal_newlines s) = false.
Proof.
  enough (Q : has_char cr_char (universal_newlines s) = false /\
              forall c, has_char cr_char (universal_newlines (String c s)) = false)
    by apply Q.
  induction s as [|c' s [IH1 IH2]].
  - split; [reflexivity|]. intros c. rewrite universal_newlines_cons.
    destruct (Ascii.eqb c cr_char) eqn:E; cbn [has_char universal_newlines];
      [reflexivity | now rewrite E].
  - split; [apply IH2|]. intros c.
    rewrite universal_newlines_cons. destruct (Ascii.eqb c cr_char) eqn:E.
    + destruct (Ascii.eqb c' lf_char); cbn [has_char].
      * now rewrite IH1.
      * now rewrite IH2.
    + cbn [has_char]. rewrite E. now rewrite IH2.
Qed.

Lemma filter_all {A : Type} (f : A -> bool) (l : list A) :
  (forall x, In x l -> f x = true) -> filter f l = l.
Proof.
  induction l as [|x l IH]; cbn; intros Hall; [reflexivity|].
  rewrite (Hall x (or_introl eq_refl)). f_equal. auto.
Qed.

Lemma lines_complete_tail (c : ascii) (s : string) :
  lines_complete (String c s) = true -> s <> "" -> lines_complete s = true.
Proof. destruct s; [contradiction | auto]. Qed.

(** After a text of complete lines a new line starts. *)
Lemma split_lines_app (a b : string) :
  lines_complete a = true ->
  split_lines (a ++ b) = (split_lines a ++ split_lines b)%list.
Proof.
  induction a as [|c a IH]; intros Ha; [reflexivity|].
  cbn [String.append split_lines].
  destruct a as [|c' a'].
  - cbn [lines_complete] in Ha. rewrite Ha. reflexivity.
  - assert (Ha' : lines_complete (String c' a') = true) by exact Ha.
    rewrite (IH Ha'). destruct (Ascii.eqb c lf_char); [reflexivity|].
    destruct (split_lines (String c' a')) as [|l ls] eqn:El; [|reflexivity].
    exfalso. assert (J := join_split_lines (String c' a')).
    rewrite El in J. discriminate.
Qed.

(** ** Suffixes *)

Lemma substring_whole (s : string) : substring 0 (String.length s) s = s.
Proof. induction s as [|c s IH]; cbn; [reflexivity | now rewrite IH]. Qed.

Lemma substring_after (a p : string) :
  substring (String.length a) (String.length p) (a ++ p) = p.
Proof. induction a as [|c a IH]; cbn; [apply substring_whole | exact IH]. Qed.

Lemma substring_split (n m : nat) (s : string) :
  (n + m = String.length s)%nat -> s = substring 0 n s ++ substring n m s.
Proof.
  revert s. induction n as [|n IH]; intros s Hlen.
  - cbn in Hlen. subst m. rewrite substring_whole. now destruct s.
  - destruct s as [|c s]; [discriminate|]. cbn in Hlen. cbn.
    f_equal. apply IH. lia.
Qed.

Lemma append_length (a b : string) :
  String.length (a ++ b) = (String.length a + String.length b)%nat.
Proof. induction a as [|c a IH]; cbn; [reflexivity | now rewrite IH]. Qed.

(** X11. The test [f.endswith(".osm")] of the listing holds for exactly the
    names that are some text followed by the suffix: for any suffix [p],
    [s.endswith(p)] is true if and only if [s = a + p] for some [a]. *)
Theorem endswith_iff_suffix (s p : string) :
  endswith s p = true <-> exists a, s = a ++ p.
Proof.
  unfold endswith. rewrite andb_true_iff, Nat.leb_le, String.eqb_eq. split.
  - intros [Hlen Hsub].
    exists (substring 0 (String.length s - String.length p) s).
    assert (E := substring_split (String.length s - String.length p)
                   (String.length p) s ltac:(lia)).
    now rewrite Hsub in E.
  - intros [a ->]. rewrite append_length. split; [lia|].
    replace (String.length a + String.length p - String.length p)%nat
      with (String.length a) by lia.
    apply substring_after.
Qed.

(** ** The run of the merger *)

(** X12. When the input folder does not exist, or it exists but the folder of
    the output file does not, [merge_osm_files] raises FileNotFoundError and
    leaves the world as it was: no output file is created or truncated and
    nothing is printed. *)
Theorem merge_missing_folder_raises
    (input_folder : string) (output_file : path) (w : world) :
  (assoc input_folder (files w) = None ->
   merge_osm_files input_folder output_file w
   = (Raise (FileNotFoundError input_folder), w)) /\
  (assoc input_folder (files w) <> None ->
   assoc (fst output_file) (files w) = None ->
   merge_osm_files input_folder output_file w
   = (Raise (FileNotFoundError (fst output_file)), w)).
Proof.
  unfold merge_osm_files, bindM, os_listdir, open_w, fs_store. split.
  - now intros ->.
  - intros Hin Hout. destruct (assoc input_folder (files w)); [|contradiction].
    now rewrite Hout.
Qed.

Lemma merge_missing_folder_raises_witness :
  merge_osm_files "parts" (in_cwd "old.osm") stale_world
  = (Raise (FileNotFoundError "parts"), stale_world) /\
  merge_osm_files "osm_data" (os_path_join "out" "full.osm") stale_world
  = (Raise (FileNotFoundError "out"), stale_world).
Proof.
  destruct (merge_missing_folder_raises "parts" (in_cwd "old.osm") stale_world)
    as [H1 _].
  destruct (merge_missing_folder_raises "osm_data" (os_path_join "out" "full.osm")
              stale_world) as [_ H2].
  split.
  - apply H1. reflexivity.
  - apply H2; [discriminate | reflexivity].
Defined.

(** X13. A merge that runs (the two folders exist, the output file is not one
    of the files read) changes no file other than the output file; in
    particular the input files stay as they were.  It sends no request and
    does not pause: the only effect besides the output file is the final
    message. *)
Theorem merge_changes_output_only
    (w : world) (input_folder : string) (output_file : path) (entries : folder) :
  assoc input_folder (files w) = Some entries ->
  assoc (fst output_file) (files w) <> None ->
  ~ In output_file
       (map (os_path_join input_folder)
            (filter (fun file => endswith file ".osm") (map fst entries))) ->
  exists w',
    merge_osm_files input_folder output_file w = (Ok tt, w') /\
    (forall p, p <> output_file -> fs_read (files w') p = fs_read (files w) p) /\
    trace w' = (trace w ++ [Print (MergeDone output_file)])%list.
Proof.
  intros Hin Hout Hfresh.
  destruct (merge_osm_files_run input_folder output_file w entries Hin Hout Hfresh)
    as (w' & Hrun & _ & F & T & _).
  exists w'. auto.
Qed.

Lemma merge_changes_output_only_witness :
  exists w',
    merge_osm_files "osm_data" (in_cwd "full.osm") stale_world = (Ok tt, w') /\
    (forall p, p <> in_cwd "full.osm" ->
               fs_read (files w') p = fs_read (files stale_world) p) /\
    trace w' = (trace stale_world ++ [Print (MergeDone (in_cwd "full.osm"))])%list.
Proof.
  apply (merge_changes_output_only stale_world "osm_data" (in_cwd "full.osm")
           [("part_1.osm", "old"); ("old.osm", "<way/>" ++ nl)]).
  - reflexivity.
  - discriminate.
  - vm_compute. intros [H|[H|[]]]; discriminate.
Defined.

Lemma existsb_map_false {A B : Type} (f : B -> bool) (g : A -> B) (l : list A) :
  (forall x, f (g x) = false) -> existsb f (map g l) = false.
Proof.
  intros Hall. induction l as [|x l IH]; [reflexivity|].
  cbn [map existsb]. now rewrite Hall, IH.
Qed.

Lemma contribution_no_cr (fs : file_system) (p : path) :
  has_char cr_char
    match fs_read fs p with
    | Some content =>
        join (filter (fun line => negb (is_envelope_line line)) (file_lines content))
    | None => ""
    end = false.
Proof.
  destruct (fs_read fs p) as [content|]; [|reflexivity].
  rewrite has_char_join. apply existsb_filter_false.
  rewrite <- has_char_join. unfold file_lines. rewrite join_split_lines.
  apply universal_newlines_no_cr.
Qed.

(** X14. The merged document never holds a carriage return: the input files
    are read with universal newlines, so "\r\n" and a lone "\r" of an input
    arrive in the output as "\n". *)
Theorem merge_output_has_no_carriage_return
    (w : world) (input_folder : string) (output_file : path) (entries : folder) :
  assoc input_folder (files w) = Some entries ->
  assoc (fst output_file) (files w) <> None ->
  ~ In output_file
       (map (os_path_join input_folder)
            (filter (fun file => endswith file ".osm") (map fst entries))) ->
  exists w' document,
    merge_osm_files input_folder output_file w = (Ok tt, w') /\
    fs_read (files w') output_file = Some document /\
    has_char cr_char document = false.
Proof.
  intros Hin Hout Hfresh.
  destruct (merge_osm_files_run input_folder output_file w entries Hin Hout Hfresh)
    as (w' & Hrun & Hread & _).
  exists w'. eexists. split; [exact Hrun|]. split; [exact Hread|].
  rewrite !has_char_app, has_char_join.
  replace (has_char cr_char xml_declaration) with false by reflexivity.
  replace (has_char cr_char osm_open_tag) with false by reflexivity.
  replace (has_char cr_char osm_close_tag) with false by reflexivity.
  rewrite orb_false_r. cbn [orb].
  apply existsb_map_false. intros name. apply contribution_no_cr.
Qed.

Lemma merge_output_has_no_carriage_return_witness :
  exists w' document,
    merge_osm_files "osm_data" (in_cwd "full.osm") sample_world = (Ok tt, w') /\
    fs_read (files w') (in_cwd "full.osm") = Some document /\
    has_char cr_char document = false.
Proof.
  apply (merge_output_has_no_carriage_return sample_world "osm_data"
           (in_cwd "full.osm") sample_folder).
  - reflexivity.
  - discriminate.
  - vm_compute. intros [H|[H|[]]]; discriminate.
Defined.

(** X15. When no merged input holds a carriage return or a line that starts
    with "<?xml", "<osm" or "</osm", the merged document is the two header
    lines, the contents of the input files one after the other, byte for
    byte and in listing order, and the closing tag: nothing is inserted
    between two files, not even a line break after a file whose last line is
    unterminated. *)
Theorem merge_concatenates_plain_files
    (w : world) (input_folder : string) (output_file : path) (entries : folder) :
  assoc input_folder (files w) = Some entries ->
  assoc (fst output_file) (files w) <> None ->
  ~ In output_file
       (map (os_path_join input_folder)
            (filter (fun file => endswith file ".osm") (map fst entries))) ->
  (forall name content,
      In name (filter (fun file => endswith file ".osm") (map fst entries)) ->
      fs_read (files w) (os_path_join input_folder name) = Some content ->
      has_char cr_char content = false /\
      forall line, In line (split_lines content) -> is_envelope_line line = false) ->
  exists w',
    merge_osm_files input_folder output_file w = (Ok tt, w') /\
    fs_read (files w') output_file
    = Some (xml_declaration ++ osm_open_tag
            ++ join (map (fun file =>
                            match fs_read (files w) (os_path_join input_folder file) with
                            | Some content => content
                            | None => ""
                            end)
                         (filter (fun file => endswith file ".osm") (map fst entries)))
            ++ "</osm>").
Proof.
  intros Hin Hout Hfresh Hplain.
  destruct (merge_osm_files_run input_folder output_file w entries Hin Hout Hfresh)
    as (w' & Hrun & Hread & _).
  exists w'. split; [exact Hrun|]. rewrite Hread. clear Hread Hrun Hfresh.
  do 5 f_equal.
  apply map_ext_in. intros name Hname.
  destruct (fs_read (files w) (os_path_join input_folder name)) as [content|] eqn:Hc;
    [|reflexivity].
  destruct (Hplain name content Hname Hc) as [Hcr Hlines].
  unfold file_lines. rewrite (universal_newlines_id _ Hcr).
  rewrite filter_all; [apply join_split_lines|].
  intros line Hl. now rewrite (Hlines line Hl).
Qed.

Lemma merge_concatenates_plain_files_witness :
  exists w',
    merge_osm_files "osm_data" (in_cwd "full.osm") stale_world = (Ok tt, w') /\
    fs_read (files w') (in_cwd "full.osm")
    = Some (xml_declaration ++ osm_open_tag
            ++ join (map (fun file =>
                            match fs_read (files stale_world)
                                          (os_path_join "osm_data" file) with
                            | Some content => content
                            | None => ""
                            end)
                         (filter (fun file => endswith file ".osm")
                                 (map fst [("part_1.osm", "old");
                                           ("old.osm", "<way/>" ++ nl)])))
            ++ "</osm>").
Proof.
  apply (merge_concatenates_plain_files stale_world "osm_data" (in_cwd "full.osm")
           [("part_1.osm", "old"); ("old.osm", "<way/>" ++ nl)]).
  - reflexivity.
  - discriminate.
  - vm_compute. intros [H|[H|[]]]; discriminate.
  - intros name content [<-|[<-|[]]] Hc; vm_compute in Hc;
      injection Hc as <-; (split; [reflexivity|]);
      vm_compute; intros line [<-|[]]; reflexivity.
Defined.

(** X16. Merging is a fixed point on its own well-formed output: when the
    only ".osm" file of the input folder is a document made of the two header
    lines, a body and the closing tag, where the body holds no carriage
    return, is empty or ends with a line break, and has no line that starts
    with "<?xml", "<osm" or "</osm", the merged document is that file
    again. *)
Theorem merge_of_merged_document
    (w : world) (input_folder : string) (output_file : path) (entries : folder)
    (name body : string) :
  assoc input_folder (files w) = Some entries ->
  assoc (fst output_file) (files w) <> None ->
  filter (fun file => endswith file ".osm") (map fst entries) = [name] ->
  os_path_join input_folder name <> output_file ->
  fs_read (files w) (os_path_join input_folder name)
  = Some (xml_declaration ++ osm_open_tag ++ body ++ "</osm>") ->
  has_char cr_char body = false ->
  lines_complete body = true ->
  (forall line, In line (split_lines body) -> is_envelope_line line = false) ->
  exists w',
    merge_osm_files input_folder output_file w = (Ok tt, w') /\
    fs_read (files w') output_file
    = Some (xml_declaration ++ osm_open_tag ++ body ++ "</osm>").
Proof.
  intros Hin Hout Hnames Hne Hdoc Hcr Hcomplete Hlines.
  assert (Hfresh : ~ In output_file
                     (map (os_path_join input_folder)
                          (filter (fun f => endswith f ".osm") (map fst entries)))).
  { rewrite Hnames. intros [H|[]]. now apply Hne. }
  destruct (merge_osm_files_run input_folder output_file w entries Hin Hout Hfresh)
    as (w' & Hrun & Hread & _).
  assert (Hbody : join (filter (fun line => negb (is_envelope_line line))
                               (file_lines (xml_declaration ++ osm_open_tag
                                            ++ body ++ "</osm>")))
                  = body).
  { unfold file_lines. rewrite universal_newlines_id.
    2:{ rewrite !has_char_app, Hcr. reflexivity. }
    rewrite (split_lines_app xml_declaration) by reflexivity.
    rewrite (split_lines_app osm_open_tag) by reflexivity.
    rewrite (split_lines_app body) by exact Hcomplete.
    rewrite !filter_app, !join_app.
    replace (filter _ (split_lines xml_declaration)) with (@nil string) by reflexivity.
    replace (filter _ (split_lines osm_open_tag)) with (@nil string) by reflexivity.
    replace (filter _ (split_lines "</osm>")) with (@nil string) by reflexivity.
    change (join []) with "". rewrite string_app_nil_r. cbn [String.append].
    rewrite filter_all; [apply join_split_lines|].
    intros line Hl. now rewrite (Hlines line Hl). }
  exists w'. split; [exact Hrun|]. rewrite Hread, Hnames. cbn [map].
  rewrite Hdoc, Hbody, join_cons.
  change (join []) with "". now rewrite string_app_nil_r.
Qed.

Lemma merge_of_merged_document_witness :
  exists w',
    merge_osm_files "osm_data" (in_cwd "again.osm") merged_world = (Ok tt, w') /\
    fs_read (files w') (in_cwd "again.osm")
    = Some (xml_declaration ++ osm_open_tag ++ ("  <node/>" ++ nl ++ "<way/>" ++ nl)
            ++ "</osm>").
Proof.
  apply (merge_of_merged_document merged_world "osm_data" (in_cwd "again.osm")
           [("full.osm", xml_declaration ++ osm_open_tag
                         ++ ("  <node/>" ++ nl ++ "<way/>" ++ nl) ++ "</osm>");
            ("full.txt", "")]
           "full.osm").
  - reflexivity.
  - discriminate.
  - reflexivity.
  - discriminate.
  - reflexivity.
  - reflexivity.
  - reflexivity.
  - vm_compute. intros line [<-|[<-|[]]]; reflexivity.
Defined.

(** The line break before the closing tag matters: without it the last body
    line absorbs the closing tag, survives the filter, and a second closing
    tag is appended. *)
Example merge_of_unterminated_document :
  let w := {| files := [(".", []);
                        ("osm_data", [("full.osm", xml_declaration ++ osm_open_tag
                                                   ++ "<way/>" ++ "</osm>")])];
              trace := [];
              server := fun _ _ => TransportFailure |} in
  fs_read (files (snd (merge_osm_files "osm_data" (in_cwd "again.osm") w)))
          (in_cwd "again.osm")
  = Some (xml_declaration ++ osm_open_tag ++ "<way/></osm>" ++ "</osm>").
Proof. reflexivity. Qed.

(** * Further properties of the driver *)

(** ** The names of the part files *)

Lemma append_inj_r (s x y : string) : x ++ s = y ++ s -> x = y.
Proof.
  revert y. induction x as [|c x IH]; intros [|d y] H.
  - reflexivity.
  - exfalso. apply (f_equal String.length) in H.
    cbn in H. rewrite ?append_length in H. lia.
  - exfalso. apply (f_equal String.length) in H.
    cbn in H. rewrite ?append_length in H. lia.
  - cbn in H. injection H as -> H. f_equal. auto.
Qed.

Lemma string_of_nat_inj (n m : nat) : string_of_nat n = string_of_nat m -> n = m.
Proof.
  unfold string_of_nat. intros H. apply Unsigned.to_uint_inj.
  apply (f_equal NilEmpty.uint_of_string) in H.
  rewrite !NilEmpty.usu in H. now injection H.
Qed.

(** Two rectangles never share a part file. *)
Lemma part_file_inj (i j : nat) : part_file i = part_file j -> i = j.
Proof.
  unfold part_file, os_path_join. intros [= H].
  apply append_inj_r, string_of_nat_inj in H. lia.
Qed.

(** ** The loop of the driver *)

Lemma total_sleep_app (t1 t2 : list event) :
  total_sleep (t1 ++ t2)%list = total_sleep t1 + total_sleep t2.
Proof.
  induction t1 as [|[m|b|s] t1 IH]; cbn [app total_sleep]; lia.
Qed.

Lemma saved_count_le (srv : nat -> @Rectangle float -> post_outcome) (n : nat)
    (bboxes : list (@Rectangle float)) :
  (saved_count srv n bboxes <= List.length bboxes)%nat.
Proof.
  revert n. induction bboxes as [|b bboxes IH]; intros n; cbn [saved_count List.length].
  - lia.
  - specialize (IH (S n)). destruct (accepted_text (srv n b)); lia.
Qed.

(** One call of the fetcher, by the answer to its request. *)
Lemma fetch_effect (bbox : @Rectangle float) (p : path) (w : world) :
  assoc (fst p) (files w) <> None ->
  exists w',
    fetch_osm_by_bbox bbox p w = (Ok tt, w') /\
    posts (trace w') = (posts (trace w) ++ [bbox])%list /\
    server w' = server w /\
    assoc (fst p) (files w') <> None /\
    (forall d, d <> fst p -> assoc d (files w') = assoc d (files w)) /\
    match accepted_text (server w (List.length (posts (trace w))) bbox) with
    | Some body =>
        fs_read (files w') p = Some body /\
        (forall q, q <> p -> fs_read (files w') q = fs_read (files w) q) /\
        total_sleep (trace w') = total_sleep (trace w) + 2
    | None =>
        files w' = files w /\ total_sleep (trace w') = total_sleep (trace w)
    end.
Proof.
  intros Hd. unfold accepted_text.
  destruct (server w (List.length (posts (trace w))) bbox) as [r|] eqn:Ho.
  - destruct (is_error_status (status_code r)) eqn:Hs.
    + rewrite (fetch_error_status bbox p w r Ho Hs).
      eexists. split; [reflexivity|]. unfold with_events. cbn [files trace server].
      rewrite posts_app, total_sleep_app. cbn [posts total_sleep].
      repeat split; auto; lia.
    + destruct (fs_store_ok (files w) p (text r) Hd) as (fs & Hfs).
      rewrite (fetch_saved bbox p w r fs Ho Hs Hfs).
      eexists. split; [reflexivity|].
      unfold with_events, with_files. cbn [files trace server].
      rewrite posts_app, total_sleep_app. cbn [posts total_sleep].
      repeat split.
      * eapply fs_store_folder_kept; eauto.
      * intros d Hne. eapply fs_store_other_folder; eauto.
      * eapply fs_store_read; eauto.
      * intros q Hq. eapply fs_store_read_other_file; eauto.
  - rewrite (fetch_transport_failure bbox p w Ho).
    eexists. split; [reflexivity|]. unfold with_events. cbn [files trace server].
    rewrite posts_app, total_sleep_app. cbn [posts total_sleep].
    repeat split; auto; lia.
Qed.

(** The loop of [main] over the rectangles, numbered from [start]. *)
Lemma fetch_loop_effect (bboxes : list (@Rectangle float)) (start : nat) (w : world) :
  assoc output_folder (files w) <> None ->
  exists w',
    for_each (enumerate_from start bboxes)
             (fun ib => fetch_osm_by_bbox (snd ib) (part_file (fst ib))) w
    = (Ok tt, w') /\
    posts (trace w') = (posts (trace w) ++ bboxes)%list /\
    server w' = server w /\
    assoc output_folder (files w') <> None /\
    (forall d, d <> output_folder -> assoc d (files w') = assoc d (files w)) /\
    (forall q, (forall k, (k < List.length bboxes)%nat -> q <> part_file (start + k)) ->
               fs_read (files w') q = fs_read (files w) q) /\
    (forall k b, nth_error bboxes k = Some b ->
                 fs_read (files w') (part_file (start + k))
                 = match accepted_text
                           (server w (List.length (posts (trace w)) + k) b) with
                   | Some body => Some body
                   | None => fs_read (files w) (part_file (start + k))
                   end) /\
    total_sleep (trace w')
    = total_sleep (trace w)
      + 2 * Z.of_nat (saved_count (server w) (List.length (posts (trace w))) bboxes) /\
    (saved_count (server w) (List.length (posts (trace w))) bboxes = 0%nat ->
     files w' = files w).
Proof.
  revert start w. induction bboxes as [|bbox bboxes IH]; intros start w Hd.
  - exists w. cbn [enumerate_from for_each saved_count]. rewrite app_nil_r.
    repeat split; auto; try lia.
    intros [|k] b; discriminate.
  - cbn [enumerate_from for_each fst snd].
    destruct (fetch_effect bbox (part_file start) w Hd)
      as (w1 & H1 & P1 & S1 & D1 & F1 & E1).
    destruct (IH (S start) w1 D1) as (w2 & H2 & P2 & S2 & D2 & F2 & O2 & R2 & T2 & Z2).
    assert (L1 : List.length (posts (trace w1)) = S (List.length (posts (trace w))))
      by (rewrite P1, length_app; cbn; lia).
    rewrite S1, L1 in R2, T2, Z2.
    (* what the first call leaves of the files it does not write *)
    assert (K1 : forall q, q <> part_file start ->
                           fs_read (files w1) q = fs_read (files w) q).
    { intros q Hq.
      destruct (accepted_text (server w (List.length (posts (trace w))) bbox)).
      - now apply E1.
      - destruct E1 as [-> _]. reflexivity. }
    exists w2. split; [run_step H1; exact H2|].
    split; [rewrite P2, P1, <- app_assoc; reflexivity|].
    split; [congruence|]. split; [exact D2|].
    split; [intros d Hne; rewrite F2, F1; auto|].
    split; [|split; [|split]].
    + intros q Hq. rewrite O2.
      * apply K1. rewrite <- (Nat.add_0_r start). apply Hq. cbn. lia.
      * intros k Hk. replace (S start + k)%nat with (start + S k)%nat by lia.
        apply Hq. cbn. lia.
    + intros [|k] b Hb.
      * cbn in Hb. injection Hb as <-. rewrite !Nat.add_0_r.
        rewrite O2.
        2:{ intros k _ Heq. apply part_file_inj in Heq. lia. }
        destruct (accepted_text (server w (List.length (posts (trace w))) bbox)).
        -- apply E1.
        -- destruct E1 as [-> _]. reflexivity.
      * cbn in Hb. specialize (R2 k b Hb).
        replace (start + S k)%nat with (S start + k)%nat by lia.
        replace (List.length (posts (trace w)) + S k)%nat
          with (S (List.length (posts (trace w))) + k)%nat by lia.
        rewrite R2.
        rewrite (K1 (part_file (S start + k))).
        2:{ intros Heq. apply part_file_inj in Heq. lia. }
        reflexivity.
    + rewrite T2. cbn [saved_count].
      destruct (accepted_text (server w (List.length (posts (trace w))) bbox));
        destruct E1 as (? & E1); try destruct E1 as (? & E1); lia.
    + cbn [saved_count]. intros Hz.
      destruct (accepted_text (server w (List.length (posts (trace w))) bbox));
        [discriminate|].
      destruct E1 as [E1 _]. rewrite Z2; [exact E1 | exact Hz].
Qed.

Lemma assoc_app_other {V : Type} (k k' : string) (v : V) (l : list (string * V)) :
  k <> k' -> assoc k (l ++ [(k', v)])%list = assoc k l.
Proof.
  intros Hne. induction l as [|[k0 v0] l IH]; cbn.
  - destruct (String.eqb_spec k k'); [contradiction | reflexivity].
  - destruct (String.eqb k k0); auto.
Qed.

(** The head of [main]: the grid is computed and the output folder is there,
    created empty when it was missing. *)
Lemma main_prepare (w : world) :
  assoc cwd (files w) <> None ->
  exists w1,
    main w
    = (fetch_all (lat_loop 22.5%float 23.5%float 112.5%float 114.0%float 0.1%float
                           11 16 []) ;;;
       merge_osm_files output_folder final_output_file) w1 /\
    assoc output_folder (files w1)
    = Some (match assoc output_folder (files w) with
            | Some entries => entries
            | None => []
            end) /\
    assoc cwd (files w1) <> None /\
    (forall q, fs_read (files w1) q = fs_read (files w) q) /\
    trace w1 = trace w /\ server w1 = server w.
Proof.
  intros Hcwd.
  set (bboxes := lat_loop 22.5%float 23.5%float 112.5%float 114.0%float 0.1%float 11 16 []).
  set (present := match assoc output_folder (files w) with Some _ => true | None => false end).
  assert (L : lift (divide_area_to_bboxes 22.5%float 23.5%float 112.5%float
                                           114.0%float 0.1%float) w
               = (Ok bboxes, w))
    by (rewrite main_bboxes; reflexivity).
  assert (E : os_path_exists output_folder w = (Ok present, w)) by reflexivity.
  destruct (assoc output_folder (files w)) as [entries|] eqn:Hd.
  - exists w. split.
    + unfold main. run_step L. run_step E. unfold present. cbn [negb].
      reflexivity.
    + auto.
  - exists (with_files (files w ++ [(output_folder, [])])%list w). split.
    + unfold main. run_step L. run_step E. unfold present. cbn [negb].
      assert (Hmk : os_makedirs output_folder w
                    = (Ok tt, with_files (files w ++ [(output_folder, [])])%list w))
        by (unfold os_makedirs; now rewrite Hd).
      run_step Hmk. reflexivity.
    + unfold with_files. cbn [files trace server]. repeat split.
      * now apply assoc_app_new.
      * now rewrite assoc_app_l.
      * intros [d name]. unfold fs_read. cbn [fst snd].
        destruct (String.eqb_spec d output_folder) as [->|Hne].
        -- rewrite (assoc_app_new _ _ _ Hd), Hd. reflexivity.
        -- now rewrite assoc_app_other.
Qed.

(** The whole run of [main]: the world after the loop and the world at the
    end. *)
Lemma main_stages (w : world) :
  assoc cwd (files w) <> None ->
  exists w1 w2 w3 entries,
    let bboxes := lat_loop 22.5%float 23.5%float 112.5%float 114.0%float 0.1%float
                           11 16 [] in
    main w = (Ok tt, w3) /\
    (* the output folder is there *)
    assoc output_folder (files w1)
    = Some (match assoc output_folder (files w) with
            | Some entries => entries
            | None => []
            end) /\
    (forall q, fs_read (files w1) q = fs_read (files w) q) /\
    trace w1 = trace w /\ server w1 = server w /\
    (* the loop *)
    (forall q, (forall k, (k < List.length bboxes)%nat -> q <> part_file k) ->
               fs_read (files w2) q = fs_read (files w1) q) /\
    (forall k b, nth_error bboxes k = Some b ->
                 fs_read (files w2) (part_file k)
                 = match accepted_text
                           (server w1 (List.length (posts (trace w1)) + k) b) with
                   | Some body => Some body
                   | None => fs_read (files w1) (part_file k)
                   end) /\
    total_sleep (trace w2)
    = total_sleep (trace w1)
      + 2 * Z.of_nat (saved_count (server w1) (List.length (posts (trace w1))) bboxes) /\
    (saved_count (server w1) (List.length (posts (trace w1))) bboxes = 0%nat ->
     files w2 = files w1) /\
    (* the merge *)
    assoc output_folder (files w2) = Some entries /\
    fs_read (files w3) final_output_file
    = Some (xml_declaration ++ osm_open_tag
            ++ join (map (fun file =>
                            match fs_read (files w2) (os_path_join output_folder file) with
                            | Some content =>
                                join (filter (fun line => negb (is_envelope_line line))
                                             (file_lines content))
                            | None => ""
                            end)
                         (filter (fun f => endswith f ".osm") (map fst entries)))
            ++ osm_close_tag) /\
    (forall q, q <> final_output_file -> fs_read (files w3) q = fs_read (files w2) q) /\
    trace w3 = (trace w2 ++ [Print (MergeDone final_output_file)])%list.
Proof.
  intros Hcwd.
  destruct (main_prepare w Hcwd) as (w1 & Hmain & D1 & C1 & R1 & T1 & S1).
  assert (D1' : assoc output_folder (files w1) <> None) by (rewrite D1; discriminate).
  destruct (fetch_loop_effect
              (lat_loop 22.5%float 23.5%float 112.5%float 114.0%float 0.1%float 11 16 [])
              0 w1 D1')
    as (w2 & H2 & P2 & S2 & D2 & F2 & O2 & R2 & Sl2 & Z2).
  destruct (assoc output_folder (files w2)) as [entries|] eqn:E2; [|contradiction].
  assert (Hfresh : ~ In final_output_file
                     (map (os_path_join output_folder)
                          (filter (fun f => endswith f ".osm") (map fst entries)))).
  { intros Hi. apply in_map_iff in Hi as (name & Heq & _). discriminate. }
  assert (C2 : assoc (fst final_output_file) (files w2) <> None).
  { cbn [final_output_file in_cwd fst]. rewrite F2; [exact C1 | discriminate]. }
  destruct (merge_osm_files_run output_folder final_output_file w2 entries E2 C2 Hfresh)
    as (w3 & H3 & R3 & F3 & T3 & _).
  exists w1, w2, w3, entries. cbv zeta.
  split.
  { rewrite Hmain. unfold fetch_all. run_step H2. exact H3. }
  repeat (split; [assumption|]). assumption.
Qed.

Lemma part_file_not_final (k : nat) : part_file k <> final_output_file.
Proof. discriminate. Qed.

Lemma saved_count_none (srv : nat -> @Rectangle float -> post_outcome) (n : nat)
    (bboxes : list (@Rectangle float)) :
  (forall m bbox, accepted_text (srv m bbox) = None) ->
  saved_count srv n bboxes = 0%nat.
Proof.
  intros Hnone. revert n.
  induction bboxes as [|b bboxes IH]; intros n; cbn [saved_count]; [reflexivity|].
  now rewrite Hnone, IH.
Qed.

(** ** The run of the driver *)

(** X17. After [main], the part file of the k-th rectangle of the grid
    (counting from 0, so the file "osm_data/guangzhou_part_{k+1}.osm") holds
    the text of the answer to the k-th request of the run when that answer
    passed [raise_for_status]; when the request failed, the part file is what
    it was before the run, so a part file of an earlier run stays in place. *)
Theorem main_part_files
    (w : world) (bboxes : list (@Rectangle float)) (k : nat) (bbox : @Rectangle float) :
  assoc cwd (files w) <> None ->
  divide_area_to_bboxes 22.5%float 23.5%float 112.5%float 114.0%float 0.1%float
  = Ok bboxes ->
  nth_error bboxes k = Some bbox ->
  let answer := server w (List.length (posts (trace w)) + k) bbox in
  (forall body, accepted_text answer = Some body ->
                fs_read (files (snd (main w))) (part_file k) = Some body) /\
  (accepted_text answer = None ->
   fs_read (files (snd (main w))) (part_file k) = fs_read (files w) (part_file k)).
Proof.
  intros Hcwd Hb Hk. rewrite main_bboxes in Hb. injection Hb as <-.
  destruct (main_stages w Hcwd)
    as (w1 & w2 & w3 & entries & Hm & _ & R1 & T1 & S1 & _ & Part & _ & _ & _ & _ & F3 & _).
  rewrite Hm. cbn [snd]. cbv zeta.
  rewrite (F3 _ (part_file_not_final k)), (Part k bbox Hk), S1, T1, R1.
  split.
  - now intros body ->.
  - now intros ->.
Qed.

Lemma main_part_files_witness :
  fs_read (files (snd (main third_fails_world))) (part_file 3)
  = Some (xml_declaration ++ osm_open_tag ++ ("<node id=4/>" ++ nl) ++ "</osm>" ++ nl)
  /\
  fs_read (files (snd (main third_fails_world))) (part_file 2)
  = fs_read (files third_fails_world) (part_file 2).
Proof.
  split.
  - apply (main_part_files third_fails_world
             (lat_loop 22.5%float 23.5%float 112.5%float 114.0%float 0.1%float 11 16 [])
             3 (bbox_at 22.5%float 23.5%float 112.5%float 114.0%float 0.1%float 0 3)).
    + discriminate.
    + vm_compute. reflexivity.
    + vm_compute. reflexivity.
    + reflexivity.
  - apply (main_part_files third_fails_world
             (lat_loop 22.5%float 23.5%float 112.5%float 114.0%float 0.1%float 11 16 [])
             2 (bbox_at 22.5%float 23.5%float 112.5%float 114.0%float 0.1%float 0 2)).
    + discriminate.
    + vm_compute. reflexivity.
    + vm_compute. reflexivity.
    + reflexivity.
Defined.

(** X18. [main] writes to its 176 part files and to the final document only:
    every other file, in the output folder or elsewhere, reads after the run
    as it did before. *)
Theorem main_touches_only_its_files (w : world) (q : path) :
  assoc cwd (files w) <> None ->
  q <> final_output_file ->
  (forall k, (k < 176)%nat -> q <> part_file k) ->
  fs_read (files (snd (main w))) q = fs_read (files w) q.
Proof.
  intros Hcwd Hfinal Hparts.
  destruct (main_stages w Hcwd)
    as (w1 & w2 & w3 & entries & Hm & _ & R1 & _ & _ & Frame & _ & _ & _ & _ & _ & F3 & _).
  rewrite Hm. cbn [snd]. rewrite (F3 q Hfinal), Frame, R1; [reflexivity|].
  intros k Hk. apply Hparts. now rewrite lat_loop_length in Hk.
Qed.

Lemma main_touches_only_its_files_witness :
  fs_read (files (snd (main stale_world))) (os_path_join "osm_data" "old.osm")
  = fs_read (files stale_world) (os_path_join "osm_data" "old.osm").
Proof.
  apply (main_touches_only_its_files stale_world (os_path_join "osm_data" "old.osm")).
  - discriminate.
  - discriminate.
  - intros k _. unfold part_file, os_path_join, output_folder. intros [= H].
Defined.

(** X19. The pauses of a run of [main] add up to two seconds for each request
    whose answer passed [raise_for_status], and so to 352 seconds at most;
    failed requests add no pause. *)
Theorem main_total_sleep (w : world) (bboxes : list (@Rectangle float)) :
  assoc cwd (files w) <> None ->
  divide_area_to_bboxes 22.5%float 23.5%float 112.5%float 114.0%float 0.1%float
  = Ok bboxes ->
  total_sleep (trace (snd (main w)))
  = total_sleep (trace w)
    + 2 * Z.of_nat (saved_count (server w) (List.length (posts (trace w))) bboxes)
  /\ total_sleep (trace (snd (main w))) <= total_sleep (trace w) + 352.
Proof.
  intros Hcwd Hb. rewrite main_bboxes in Hb. injection Hb as <-.
  destruct (main_stages w Hcwd)
    as (w1 & w2 & w3 & entries & Hm & _ & _ & T1 & S1 & _ & _ & Sl & _ & _ & _ & _ & T3).
  rewrite Hm. cbn [snd]. cbv zeta in Sl.
  rewrite T3, total_sleep_app, Sl, S1, T1. cbn [total_sleep].
  split; [lia|].
  assert (Hle := saved_count_le (server w) (List.length (posts (trace w)))
                   (lat_loop 22.5%float 23.5%float 112.5%float 114.0%float 0.1%float
                             11 16 [])).
  rewrite lat_loop_length in Hle. lia.
Qed.

Lemma main_total_sleep_witness :
  total_sleep (trace (snd (main flaky_world)))
  = total_sleep (trace flaky_world)
    + 2 * Z.of_nat (saved_count (server flaky_world)
                                (List.length (posts (trace flaky_world)))
                                (lat_loop 22.5%float 23.5%float 112.5%float 114.0%float
                                          0.1%float 11 16 []))
  /\ total_sleep (trace (snd (main flaky_world))) <= total_sleep (trace flaky_world) + 352.
Proof.
  apply (main_total_sleep flaky_world).
  - discriminate.
  - vm_compute. reflexivity.
Defined.

(** In the world where every other request fails, half of the 176 requests
    are followed by a pause. *)
Example main_total_sleep_flaky :
  saved_count (server flaky_world) 0
    (lat_loop 22.5%float 23.5%float 112.5%float 114.0%float 0.1%float 11 16 [])
  = 88%nat.
Proof. vm_compute. reflexivity. Qed.

(** X20. When no request of the run gets an answer that passes
    [raise_for_status] and the output folder holds no ".osm" file (or does
    not exist yet), [main] still returns normally; the final document is the
    empty envelope, and no other file is changed. *)
Theorem main_without_answers (w : world) :
  assoc cwd (files w) <> None ->
  (forall n bbox, accepted_text (server w n bbox) = None) ->
  (forall entries, assoc output_folder (files w) = Some entries ->
                   filter (fun file => endswith file ".osm") (map fst entries) = []) ->
  fst (main w) = Ok tt /\
  fs_read (files (snd (main w))) final_output_file
  = Some (xml_declaration ++ osm_open_tag ++ "</osm>") /\
  forall q, q <> final_output_file ->
            fs_read (files (snd (main w))) q = fs_read (files w) q.
Proof.
  intros Hcwd Hnone Hempty.
  destruct (main_stages w Hcwd)
    as (w1 & w2 & w3 & entries & Hm & D1 & R1 & T1 & S1 & _ & _ & _ & Z2 & E2 & R3 & F3 & _).
  cbv zeta in Z2. rewrite S1 in Z2.
  rewrite (saved_count_none _ _ _ Hnone) in Z2. specialize (Z2 eq_refl).
  rewrite Hm. cbn [fst snd]. split; [reflexivity|]. split.
  - rewrite R3. rewrite Z2, D1 in E2. injection E2 as <-.
    replace (filter _ (map fst _)) with (@nil string).
    + reflexivity.
    + destruct (assoc output_folder (files w)) as [entries|]; [|reflexivity].
      symmetry. now apply Hempty.
  - intros q Hq. rewrite (F3 q Hq), Z2. apply R1.
Qed.

Lemma main_without_answers_witness :
  fst (main offline_world) = Ok tt /\
  fs_read (files (snd (main offline_world))) final_output_file
  = Some (xml_declaration ++ osm_open_tag ++ "</osm>") /\
  forall q, q <> final_output_file ->
            fs_read (files (snd (main offline_world))) q = fs_read (files offline_world) q.
Proof.
  apply (main_without_answers offline_world).
  - discriminate.
  - reflexivity.
  - intros entries H. discriminate H.
Defined.

#[local] Close Scope string_scope.
